(** * BillMate / BankApp: the virtual bank ledger

    A shallow embedding of the ledger code of the repository and the
    properties of its specification.

    Three implementations of the ledger live in the repository:
    - [Legacy]   the first, local-only wallet (one AsyncStorage key);
    - [BillMate] the app-level [lib/bank.ts] (owner contexts, linked
                 accounts, local uid map);
    - [BankApp]  [BankApp/lib/bank.ts] (cloud first, local mirror).
    They share [normalizeState] and [generateAccountNumber] verbatim.

    Modelling conventions
    - a JS [number] is a binary64 value: [spec_float] with the operations
      of the IEEE-754 specification of the standard library at precision
      53 and maximal exponent 1024;
    - a JS string is a [string], the sequence of its code units, when
      these are ASCII ([Str.isAscii]): on such strings [trim],
      [toUpperCase] and the class [\s] of JavaScript are the functions of
      [Str], which change the case of the ASCII letters only and take
      only the ASCII white space for white space. The account numbers
      that the code accepts and generates are such strings; a property
      about a string that the caller supplies assumes that it is one;
    - a value of type [unknown] is a [JSValue];
    - AsyncStorage and Firestore are fields of an explicit [World]; every
      asynchronous function is a state-and-exception computation [M]. *)

From Stdlib Require Import ZArith NArith Lia List Ascii String.
From Stdlib Require Import SpecFloat.
From stdpp Require Import base option list gmap strings.

Local Open Scope Z_scope.

(** ** Numbers *)

Module Num.

Definition prec : Z := 53.
Definition emax : Z := 1024.

Abbreviation number := spec_float.

Definition zero : number := S754_zero false.
Definition NaN : number := S754_nan.
Definition Infinity : number := S754_infinity false.

Definition add (x y : number) : number := SFadd prec emax x y.
Definition sub (x y : number) : number := SFsub prec emax x y.
Definition ltb (x y : number) : bool := SFltb x y.
Definition leb (x y : number) : bool := SFleb x y.

(** [valid x]: [x] is a binary64 value (its mantissa is canonical). *)
Definition valid (x : number) : bool := valid_binary prec emax x.

(** [Number.isFinite] *)
Definition isFinite (x : number) : bool :=
match x with
| S754_zero _ | S754_finite _ _ _ => true
| S754_infinity _ | S754_nan => false
end.

(** [Math.max(x, y)]: NaN if either is NaN, [+0] is larger than [-0]. *)
Definition max (x y : number) : number :=
match SFcompare x y with
| None => NaN
| Some Lt => y
| Some Gt => x
| Some Eq =>
    match x, y with
    | S754_zero sx, S754_zero sy => S754_zero (sx && sy)
    | _, _ => x
    end
end.

(** [x >= 0] *)
Definition nonneg (x : number) : bool := leb zero x.

(** The integer [n] as a number (exact below 2^53). *)
Definition ofZ (n : Z) : number := binary_normalize prec emax n 0 false.

End Num.

(** ** Strings *)

Module Str.

Definition chars (s : string) : list ascii := list_ascii_of_string s.
Definition str (l : list ascii) : string := string_of_list_ascii l.

Definition code (a : ascii) : N := N_of_ascii a.

(** White space of [String.prototype.trim] and of the [\s] class. *)
Definition isSpace (a : ascii) : bool :=
let c := code a in ((9 <=? c) && (c <=? 13))%N || (c =? 32)%N.

Definition isDigit (a : ascii) : bool :=
let c := code a in ((48 <=? c) && (c <=? 57))%N.
Definition isUpper (a : ascii) : bool :=
let c := code a in ((65 <=? c) && (c <=? 90))%N.
Definition isLower (a : ascii) : bool :=
let c := code a in ((97 <=? c) && (c <=? 122))%N.

(** The class [[A-Z0-9]]. *)
Definition isUpperAlnum (a : ascii) : bool := isUpper a || isDigit a.
(** The class [[a-zA-Z0-9]]. *)
Definition isAlnum (a : ascii) : bool := isLower a || isUpper a || isDigit a.

Definition upperChar (a : ascii) : ascii :=
if isLower a then ascii_of_N (code a - 32) else a.

Fixpoint dropWhile (p : ascii -> bool) (l : list ascii) : list ascii :=
match l with
| [] => []
| a :: l' => if p a then dropWhile p l' else l
end.

(** [s.trim()] *)
Definition trim (s : string) : string :=
str (rev (dropWhile isSpace (rev (dropWhile isSpace (chars s))))).

(** [s.toUpperCase()] *)
Definition toUpperCase (s : string) : string := str (map upperChar (chars s)).

(** [s.replace(/\s+/g, '')] *)
Definition removeSpaces (s : string) : string :=
str (List.filter (fun a => negb (isSpace a)) (chars s)).

(** [s.replace(/[^a-zA-Z0-9]/g, '')] *)
Definition keepAlnum (s : string) : string := str (List.filter isAlnum (chars s)).

(** [s.slice(0, n)] *)
Definition sliceTo (n : nat) (s : string) : string := str (firstn n (chars s)).

(** [s.slice(-n)] *)
Definition sliceLast (n : nat) (s : string) : string :=
str (skipn (List.length (chars s) - n) (chars s)).

(** A string is falsy exactly when it is empty. *)
Definition truthy (s : string) : bool :=
match s with EmptyString => false | String _ _ => true end.

(** Decimal digits of [n], least significant first. *)
Fixpoint digitsRev (fuel : nat) (n : N) : list ascii :=
match fuel with
| O => []
| S fuel' =>
    ascii_of_N (48 + n mod 10) ::
    (if (n / 10 =? 0)%N then [] else digitsRev fuel' (n / 10)%N)
end.

(** [n.toString()] for a non-negative integer [n]. *)
Definition ofN (n : N) : string :=
str (rev (digitsRev (S (N.to_nat (N.log2 n))) n)).

(** [/^BM[A-Z0-9]{6,}$/.test(s)] *)
Definition matchesAccountPattern (s : string) : bool :=
match chars s with
| b :: m :: rest =>
    (code b =? 66)%N && (code m =? 77)%N
    && (6 <=? List.length rest)%nat && forallb isUpperAlnum rest
| _ => false
end.

(** A string of ASCII characters: the strings on which [trim],
  [toUpperCase] and [removeSpaces] are the functions of JavaScript. *)
Definition isAscii (s : string) : bool :=
forallb (fun a => (code a <? 128)%N) (chars s).

End Str.

(** ** Dates *)

Module JSDate.
Local Open Scope N_scope.

Definition pad (width : nat) (n : N) : string :=
let d := Str.chars (Str.ofN n) in
Str.str (repeat "0"%char (width - List.length d) ++ d).

(** Year, month and day of the day number [days] (days since the epoch),
  in the proleptic Gregorian calendar. *)
Definition civil (days : N) : N * N * N :=
let z := days + 719468 in
let era := z / 146097 in
let doe := z mod 146097 in
let yoe := (doe - doe / 1460 + doe / 36524 - doe / 146096) / 365 in
let doy := doe - (365 * yoe + yoe / 4 - yoe / 100) in
let mp := (5 * doy + 2) / 153 in
let d := doy - (153 * mp + 2) / 5 + 1 in
let m := if mp <? 10 then mp + 3 else mp - 9 in
let y := yoe + era * 400 + (if m <=? 2 then 1 else 0) in
(y, m, d).

(** [new Date(ms).toISOString()] for a time [ms] at or after the epoch. *)
Definition toISOString (ms : N) : string :=
let '(y, m, d) := civil (ms / 86400000) in
let t := ms mod 86400000 in
((if (y <=? 9999)%N then pad 4 y else "+" ++ pad 6 y)
   ++ "-" ++ pad 2 m ++ "-" ++ pad 2 d
   ++ "T" ++ pad 2 (t / 3600000) ++ ":" ++ pad 2 (t / 60000 mod 60)
   ++ ":" ++ pad 2 (t / 1000 mod 60) ++ "." ++ pad 3 (t mod 1000) ++ "Z")%string.

End JSDate.

(** ** Untyped values *)

(** What a parameter of type [unknown] can hold: the values of JSON and
    [undefined].  The field list of an object is in insertion order; when a
    key occurs twice the last binding is the property. *)
#[local] Set Warnings "-register-all".
Inductive JSValue :=
| JUndefined
| JNull
| JBool (b : bool)
| JNum (x : Num.number)
| JStr (s : string)
| JArr (items : list JSValue)
| JObj (fields : list (string * JSValue)).

Module JS.

(** [value && typeof value === 'object'] *)
Definition isObject (v : JSValue) : bool :=
match v with
| JArr _ | JObj _ => true
| _ => false
end.

(** [Array.isArray(v)] *)
Definition isArray (v : JSValue) : bool :=
match v with
| JArr _ => true
| _ => false
end.

Definition lookupField (k : string) (fields : list (string * JSValue)) : option JSValue :=
fold_left (fun found kv => if String.eqb (fst kv) k then Some (snd kv) else found)
          fields None.

(** [v.k] for one of the property names the ledger reads; an array has
  none of them, and reading a property of a primitive yields
  [undefined]. *)
Definition getProp (v : JSValue) (k : string) : JSValue :=
match v with
| JObj fields => default JUndefined (lookupField k fields)
| _ => JUndefined
end.

(** The array index that the key [k] is, if it is one: the decimal form,
  without leading zeros, of an integer below [2^32 - 1]. *)
Definition arrayIndex (k : string) : option N :=
let digits := Str.chars k in
if negb (forallb Str.isDigit digits) then None
else
  let n := fold_left (fun acc d => (10 * acc + (Str.code d - 48))%N) digits 0%N in
  if String.eqb (Str.ofN n) k && (n <? 4294967295)%N then Some n else None.

(** The keys, each once, in the order of their first occurrence. *)
Fixpoint firstKeys (keys : list string) : list string :=
match keys with
| [] => []
| k :: rest => k :: List.filter (fun k' => negb (String.eqb k' k)) (firstKeys rest)
end.

Fixpoint insertIndexed (x : N * string) (l : list (N * string)) : list (N * string) :=
match l with
| [] => [x]
| y :: l' => if (fst x <=? fst y)%N then x :: l else y :: insertIndexed x l'
end.

(** The indexed keys in ascending order of their index. *)
Definition sortIndexed (l : list (N * string)) : list (N * string) :=
fold_right insertIndexed [] l.

(** [Object.keys] of an object with the fields [fields]: the array
  indices in ascending order, then the other keys in the order in which
  they were created. *)
Definition ownKeys (fields : list (string * JSValue)) : list string :=
let keys := firstKeys (map fst fields) in
map snd (sortIndexed
           (omap (fun k => match arrayIndex k with
                           | Some n => Some (n, k)
                           | None => None
                           end) keys))
++ List.filter (fun k => match arrayIndex k with Some _ => false | None => true end) keys.

(** [JSON.parse(JSON.stringify(x))] of a number [x]. *)
Definition jsonNumber (x : Num.number) : JSValue :=
match x with
| S754_zero _ => JNum Num.zero
| S754_finite _ _ _ => JNum x
| S754_infinity _ | S754_nan => JNull
end.

End JS.

(** ** Ledger state *)

Inductive TxType := credit | debit.

Record BankTransaction := {
  tx_id : string;
  tx_type : TxType;
  tx_amount : Num.number;
  tx_note : string;
  tx_createdAt : string;
}.

Record BankState := {
  balance : Num.number;
  transactions : list BankTransaction;
}.

Definition defaultBankState : BankState :=
  {| balance := Num.zero; transactions := [] |}.

Definition typeName (t : TxType) : string :=
  match t with credit => "credit" | debit => "debit" end.

Definition parseType (v : JSValue) : option TxType :=
  match v with
  | JStr s => if String.eqb s "credit" then Some credit
              else if String.eqb s "debit" then Some debit else None
  | _ => None
  end.

(** The callback mapped over [candidate.transactions]. *)
Definition normalizeTransaction (item : JSValue) : option BankTransaction :=
  if negb (JS.isObject item) then None
  else
    match JS.getProp item "id", parseType (JS.getProp item "type"),
          JS.getProp item "amount", JS.getProp item "note",
          JS.getProp item "createdAt" with
    | JStr i, Some t, JNum a, JStr n, JStr c =>
        if Num.isFinite a
        then Some {| tx_id := i; tx_type := t; tx_amount := a;
                     tx_note := n; tx_createdAt := c |}
        else None
    | _, _, _, _, _ => None
    end.

Definition normalizeState (value : JSValue) : BankState :=
  if negb (JS.isObject value) then defaultBankState
  else
    let balance :=
      match JS.getProp value "balance" with
      | JNum b => if Num.isFinite b then Num.max Num.zero b else Num.zero
      | _ => Num.zero
      end in
    let transactions :=
      match JS.getProp value "transactions" with
      | JArr items => omap normalizeTransaction items
      | _ => []
      end in
    {| balance := balance; transactions := transactions |}.

(** A transaction and a state as values: what Firestore keeps of them. *)
Definition transactionValue (t : BankTransaction) : JSValue :=
  JObj [("id", JStr (tx_id t)); ("type", JStr (typeName (tx_type t)));
        ("amount", JNum (tx_amount t)); ("note", JStr (tx_note t));
        ("createdAt", JStr (tx_createdAt t))].

Definition stateValue (s : BankState) : JSValue :=
  JObj [("balance", JNum (balance s));
        ("transactions", JArr (map transactionValue (transactions s)))].

(** [JSON.parse(JSON.stringify(s))]: what AsyncStorage gives back. *)
Definition transactionJSON (t : BankTransaction) : JSValue :=
  JObj [("id", JStr (tx_id t)); ("type", JStr (typeName (tx_type t)));
        ("amount", JS.jsonNumber (tx_amount t)); ("note", JStr (tx_note t));
        ("createdAt", JStr (tx_createdAt t))].

Definition stateJSON (s : BankState) : JSValue :=
  JObj [("balance", JS.jsonNumber (balance s));
        ("transactions", JArr (map transactionJSON (transactions s)))].

(** The state after a credit and after a debit of [amount]: the object
    literals [nextState], [senderNextState], [receiverNextState] of the
    ledger operations. *)
Definition creditedState (previous : BankState) (amount : Num.number)
    (i n c : string) : BankState :=
  {| balance := Num.add (balance previous) amount;
     transactions :=
       {| tx_id := i; tx_type := credit; tx_amount := amount;
          tx_note := n; tx_createdAt := c |} :: transactions previous |}.

Definition debitedState (previous : BankState) (amount : Num.number)
    (i n c : string) : BankState :=
  {| balance := Num.sub (balance previous) amount;
     transactions :=
       {| tx_id := i; tx_type := debit; tx_amount := amount;
          tx_note := n; tx_createdAt := c |} :: transactions previous |}.

(** A well-formed ledger state: a finite balance that is not negative,
    and finite transaction amounts (the types of the fields are those of
    the records). *)
Definition wellFormed (s : BankState) : bool :=
  Num.isFinite (balance s) && Num.nonneg (balance s)
  && forallb (fun t => Num.isFinite (tx_amount t)) (transactions s).

(** [Number.isFinite(amount) ? amount : 0] *)
Definition safeAmountOf (amount : Num.number) : Num.number :=
  if Num.isFinite amount then amount else Num.zero.

(** ** The world: identity provider, AsyncStorage, Firestore, clock *)

(** AsyncStorage.  An entry that the code reads as plain text is in
    [texts]; an entry that it writes with [JSON.stringify] and reads with
    [JSON.parse] is in [jsons], as the parsed value.  AsyncStorage itself
    is taken to be reliable: its calls never reject. *)
Record AsyncStorage := {
  texts : gmap string string;
  jsons : gmap string JSValue;
}.

(** The fields of a [users/{uid}] document that the ledger reads. *)
Record UserData := {
  accountNumber : JSValue;
  bankState : JSValue;
}.

(** Firestore: the collection [users], the collection [bankAccounts] (each
    document reduced to its [uid] field) and the legacy documents
    [users/{uid}/bank/state]. *)
Record Firestore := {
  users : gmap string UserData;
  bankAccounts : gmap string JSValue;
  legacyBank : gmap string JSValue;
}.

Inductive DocPath :=
| UserDoc (uid : string)
| BankAccountDoc (account : string)
| LegacyBankDoc (uid : string).

Inductive CloudOp :=
| GetDoc (path : DocPath)
| SetDoc (path : DocPath)
| RunTransaction.

(** [outage n op] tells whether the [n]-th request to Firestore rejects
    when it is [op]; [clock n] is the [n]-th reading of the system time in
    milliseconds; [random n] stands for the [n]-th draw of
    [Math.random()], as the integer part of its product with 9000 (used
    modulo 9000). *)
Record World := {
  authUid : option string;
  firebaseConfigured : bool;
  storage : AsyncStorage;
  firestore : Firestore;
  outage : nat -> CloudOp -> bool;
  requests : nat;
  clock : nat -> N;
  clockReads : nat;
  random : nat -> N;
  randomDraws : nat;
}.

Inductive Exn :=
| FirestoreError
| BankAccountConflict      (* new Error('bank-account-conflict') *)
| LoginRequired.           (* new Error('You must be logged in to add money.') *)

Inductive Outcome (A : Type) :=
| Returned (a : A) (w : World)
| Thrown (e : Exn) (w : World).
Arguments Returned {A} a w.
Arguments Thrown {A} e w.

(** An asynchronous function: it runs in a world and either returns or
    rejects, leaving a world behind. *)
Definition M (A : Type) : Type := World -> Outcome A.

Definition ret {A} (a : A) : M A := fun w => Returned a w.

Definition bind {A B} (m : M A) (k : A -> M B) : M B :=
  fun w => match m w with
           | Returned a w' => k a w'
           | Thrown e w' => Thrown e w'
           end.

Definition throw {A} (e : Exn) : M A := fun w => Thrown e w.

(** [try { m } catch (e) { handler e }] *)
Definition tryCatch {A} (m : M A) (handler : Exn -> M A) : M A :=
  fun w => match m w with
           | Returned a w' => Returned a w'
           | Thrown e w' => handler e w'
           end.

Declare Scope async_scope.
Delimit Scope async_scope with async.
Notation "x <- m ;; k" := (bind m (fun x => k))
  (at level 100, m at next level, right associativity) : async_scope.
Notation "m ;; k" := (bind m (fun _ => k))
  (at level 100, right associativity) : async_scope.
Open Scope async_scope.

Definition setStorage (st : AsyncStorage) (w : World) : World :=
  {| authUid := authUid w; firebaseConfigured := firebaseConfigured w;
     storage := st; firestore := firestore w;
     outage := outage w; requests := requests w;
     clock := clock w; clockReads := clockReads w;
     random := random w; randomDraws := randomDraws w |}.

Definition setFirestore (fs : Firestore) (w : World) : World :=
  {| authUid := authUid w; firebaseConfigured := firebaseConfigured w;
     storage := storage w; firestore := fs;
     outage := outage w; requests := requests w;
     clock := clock w; clockReads := clockReads w;
     random := random w; randomDraws := randomDraws w |}.

Definition countRequest (w : World) : World :=
  {| authUid := authUid w; firebaseConfigured := firebaseConfigured w;
     storage := storage w; firestore := firestore w;
     outage := outage w; requests := S (requests w);
     clock := clock w; clockReads := clockReads w;
     random := random w; randomDraws := randomDraws w |}.

Module AsyncStorageApi.

(** [AsyncStorage.getItem(key)] of a plain-text entry. *)
Definition getItem (key : string) : M (option string) :=
fun w => Returned (texts (storage w) !! key) w.

Definition setItem (key value : string) : M unit :=
fun w => Returned tt
  (setStorage {| texts := <[key := value]> (texts (storage w));
                 jsons := jsons (storage w) |} w).

Definition removeItem (key : string) : M unit :=
fun w => Returned tt
  (setStorage {| texts := delete key (texts (storage w));
                 jsons := jsons (storage w) |} w).

(** [JSON.parse(await AsyncStorage.getItem(key))]; [None] when there is
  no entry. *)
Definition getJSON (key : string) : M (option JSValue) :=
fun w => Returned (jsons (storage w) !! key) w.

(** [AsyncStorage.setItem(key, JSON.stringify(x))], [value] being what
  [JSON.parse] reads back. *)
Definition setJSON (key : string) (value : JSValue) : M unit :=
fun w => Returned tt
  (setStorage {| texts := texts (storage w);
                 jsons := <[key := value]> (jsons (storage w)) |} w).

End AsyncStorageApi.

Module FirestoreApi.

(** A request to Firestore: it rejects when the world says so. *)
Definition request (op : CloudOp) : M unit :=
fun w => if outage w (requests w) op
         then Thrown FirestoreError (countRequest w)
         else Returned tt (countRequest w).

Definition readUser (uid : string) (fs : Firestore) : option UserData :=
users fs !! uid.

(** [set(userRef, { accountNumber }, { merge: true })] *)
Definition mergeAccountNumber (uid : string) (v : JSValue) (fs : Firestore) : Firestore :=
{| users := <[uid := {| accountNumber := v;
                        bankState := from_option bankState JUndefined (users fs !! uid) |}]>
              (users fs);
   bankAccounts := bankAccounts fs; legacyBank := legacyBank fs |}.

(** [set(userRef, { bankState }, { merge: true })] *)
Definition mergeBankState (uid : string) (v : JSValue) (fs : Firestore) : Firestore :=
{| users := <[uid := {| accountNumber := from_option accountNumber JUndefined (users fs !! uid);
                        bankState := v |}]>
              (users fs);
   bankAccounts := bankAccounts fs; legacyBank := legacyBank fs |}.

(** [set(mappingRef, { uid })] *)
Definition writeMapping (account : string) (v : JSValue) (fs : Firestore) : Firestore :=
{| users := users fs;
   bankAccounts := <[account := v]> (bankAccounts fs);
   legacyBank := legacyBank fs |}.

(** [getDoc(doc(db, 'users', uid))]: the snapshot's data, if it exists. *)
Definition getUser (uid : string) : M (option UserData) :=
request (GetDoc (UserDoc uid)) ;;
fun w => Returned (readUser uid (firestore w)) w.

(** [getDoc(doc(db, 'bankAccounts', account))]: the [uid] field of the
  mapping, if the document exists. *)
Definition getMapping (account : string) : M (option JSValue) :=
request (GetDoc (BankAccountDoc account)) ;;
fun w => Returned (bankAccounts (firestore w) !! account) w.

(** [getDoc(doc(db, 'users', uid, 'bank', 'state'))] *)
Definition getLegacy (uid : string) : M (option JSValue) :=
request (GetDoc (LegacyBankDoc uid)) ;;
fun w => Returned (legacyBank (firestore w) !! uid) w.

Definition setUserAccountNumber (uid : string) (v : JSValue) : M unit :=
request (SetDoc (UserDoc uid)) ;;
fun w => Returned tt (setFirestore (mergeAccountNumber uid v (firestore w)) w).

Definition setUserBankState (uid : string) (v : JSValue) : M unit :=
request (SetDoc (UserDoc uid)) ;;
fun w => Returned tt (setFirestore (mergeBankState uid v (firestore w)) w).

Definition setMapping (account : string) (v : JSValue) : M unit :=
request (SetDoc (BankAccountDoc account)) ;;
fun w => Returned tt (setFirestore (writeMapping account v (firestore w)) w).

(** [runTransaction(db, body)]: one request; the body reads and writes
  the database atomically, and nothing is written when it throws. *)
Definition runTransaction {A} (body : Firestore -> Exn + (A * Firestore)) : M A :=
request RunTransaction ;;
fun w => match body (firestore w) with
         | inl e => Thrown e w
         | inr (a, fs) => Returned a (setFirestore fs w)
         end.

End FirestoreApi.

Definition tickClock (w : World) : World :=
  {| authUid := authUid w; firebaseConfigured := firebaseConfigured w;
     storage := storage w; firestore := firestore w;
     outage := outage w; requests := requests w;
     clock := clock w; clockReads := S (clockReads w);
     random := random w; randomDraws := randomDraws w |}.

Definition tickRandom (w : World) : World :=
  {| authUid := authUid w; firebaseConfigured := firebaseConfigured w;
     storage := storage w; firestore := firestore w;
     outage := outage w; requests := requests w;
     clock := clock w; clockReads := clockReads w;
     random := random w; randomDraws := S (randomDraws w) |}.

(** [Date.now()] *)
Definition dateNow : M N :=
  fun w => Returned (clock w (clockReads w)) (tickClock w).

(** [new Date().toISOString()] *)
Definition newDateISO : M string :=
  now <- dateNow ;; ret (JSDate.toISOString now).

(** [Math.floor(1000 + Math.random() * 9000)] *)
Definition randomFourDigits : M N :=
  fun w => Returned (1000 + random w (randomDraws w) mod 9000)%N (tickRandom w).

(** [generateAccountNumber], the same in [BillMate] and [BankApp]. *)
Definition generateAccountNumber : M string :=
  now <- dateNow ;;
  let nowPart := Str.sliceLast 6 (Str.ofN now) in
  r <- randomFourDigits ;;
  let randomPart := Str.ofN r in
  ret ("BM" ++ nowPart ++ randomPart)%string.

(** A string read from a value: [typeof v === 'string' && v.trim()]. *)
Definition nonBlankString (v : JSValue) : option string :=
  match v with
  | JStr s => if Str.truthy (Str.trim s) then Some s else None
  | _ => None
  end.

(** The messages of the results, by what they say. *)
Inductive Message :=
| LoginNeeded          (* 'You must be logged in to make payment.' / 'Login required to make payment.' *)
| InvalidAccount       (* 'Invalid receiver account number.' *)
| SelfTransfer         (* 'You cannot pay your own account.' *)
| InvalidAmount        (* 'Enter a valid amount.' / 'Invalid amount.' *)
| InsufficientBalance (available : Num.number)
                       (* `Insufficient balance. Available: ${available.toFixed(2)}` *)
| AccountNotFound      (* 'Receiver account not found.' *)
| PartialFailure       (* 'Payment partially saved locally. Cloud sync failed.' *)
| Paid (amount : Num.number) (target : string).
                       (* `Payment successful: ${amount.toFixed(2)} to ${target}` / `Paid ... to ...` *)

(** The result of a debit or of a transfer: [{ ok, state, message }]
    (a debit that succeeds carries no message). *)
Record OpResult := {
  ok : bool;
  state : BankState;
  message : option Message;
}.

(** A string that may be [null] is truthy when it is a non-empty string. *)
Definition truthyOpt (o : option string) : bool :=
  match o with
  | Some s => Str.truthy s
  | None => false
  end.

(** ** The first wallet: one local ledger *)

Module Legacy.
Import AsyncStorageApi.

Definition BANK_STORAGE_KEY : string := "billmate:bank-state".

Definition saveBankState (st : BankState) : M unit :=
setJSON BANK_STORAGE_KEY (stateJSON st).

Definition getBankState : M BankState :=
tryCatch
  (rawValue <- getJSON BANK_STORAGE_KEY ;;
   match rawValue with
   | None => ret defaultBankState
   | Some parsed => ret (normalizeState parsed)
   end)
  (fun _ => ret defaultBankState).

Definition addVirtualMoney (amount : Num.number) (note : string) : M BankState :=
let safeAmount := safeAmountOf amount in
if Num.leb safeAmount Num.zero then getBankState
else
  previousState <- getBankState ;;
  now <- dateNow ;;
  created <- newDateISO ;;
  let nextState :=
    creditedState previousState safeAmount ("tx-" ++ Str.ofN now) note created in
  saveBankState nextState ;;
  ret nextState.

Definition tryDeductVirtualMoney (amount : Num.number) (note : string) : M OpResult :=
let safeAmount := safeAmountOf amount in
previousState <- getBankState ;;
if Num.leb safeAmount Num.zero
then ret {| ok := false; state := previousState; message := Some InvalidAmount |}
else if Num.ltb (balance previousState) safeAmount
then ret {| ok := false; state := previousState;
            message := Some (InsufficientBalance (balance previousState)) |}
else
  now <- dateNow ;;
  created <- newDateISO ;;
  let nextState :=
    debitedState previousState safeAmount ("tx-" ++ Str.ofN now) note created in
  saveBankState nextState ;;
  ret {| ok := true; state := nextState; message := None |}.

End Legacy.

(** ** BillMate: [lib/bank.ts] of the subscription tracker *)

Module BillMate.
Import AsyncStorageApi FirestoreApi.

Record BankOwnerContext := {
cloudOwnerUid : option string;
localOwnerKey : string;
}.

Definition LOCAL_BANK_STORAGE_KEY_PREFIX : string := "billmate:bank-state:".
Definition LINKED_ACCOUNT_KEY_PREFIX : string := "billmate:linked-bank-account:".
Definition LOCAL_ACCOUNT_KEY_PREFIX : string := "billmate:bank-account-number:".
Definition LOCAL_ACCOUNT_UID_MAP_KEY : string := "billmate:bank-account-uid-map".

Definition linkedAccountStorageKey (uid : string) : string :=
(LINKED_ACCOUNT_KEY_PREFIX ++ uid)%string.
Definition localAccountStorageKey (uid : string) : string :=
(LOCAL_ACCOUNT_KEY_PREFIX ++ uid)%string.
Definition localBankStorageKey (ownerKey : string) : string :=
(LOCAL_BANK_STORAGE_KEY_PREFIX ++ ownerKey)%string.

Definition normalizeAccountNumber (value : string) : string :=
Str.removeSpaces (Str.toUpperCase (Str.trim value)).

Definition isValidAccountNumber (value : string) : bool :=
Str.matchesAccountPattern value.

(** [auth?.currentUser?.uid] *)
Definition currentUserUid : M (option string) :=
fun w => Returned (authUid w) w.

Definition isFirebaseConfigured : M bool :=
fun w => Returned (firebaseConfigured w) w.

Definition saveLocalBankState (ownerKey : string) (st : BankState) : M unit :=
setJSON (localBankStorageKey ownerKey) (stateJSON st).

(** [Object.entries(parsed)]: the own properties in the order of
  [Object.keys], each with its value. *)
Definition entries (parsed : JSValue) : list (string * JSValue) :=
match parsed with
| JObj fields =>
    map (fun k => (k, default JUndefined (JS.lookupField k fields))) (JS.ownKeys fields)
| JArr items => imap (fun i v => (Str.ofN (N.of_nat i), v)) items
| _ => []
end.

Definition getLocalUidMap : M (gmap string string) :=
tryCatch
  (rawValue <- getJSON LOCAL_ACCOUNT_UID_MAP_KEY ;;
   match rawValue with
   | None => ret ∅
   | Some parsed =>
       if negb (JS.isObject parsed) then ret ∅
       else ret (fold_left
                   (fun (result : gmap string string) kv =>
                      match nonBlankString (snd kv) with
                      | Some value => <[normalizeAccountNumber (fst kv) := value]> result
                      | None => result
                      end)
                   (entries parsed) ∅)
   end)
  (fun _ => ret ∅).

Definition saveLocalUidMap (map : gmap string string) : M unit :=
setJSON LOCAL_ACCOUNT_UID_MAP_KEY (JObj (map_to_list (JStr <$> map))).

Definition registerLocalAccountMapping (accountNumber uid : string) : M unit :=
let normalized := normalizeAccountNumber accountNumber in
if negb (Str.truthy normalized) || negb (Str.truthy uid) then ret tt
else
  setItem (localAccountStorageKey uid) normalized ;;
  map <- getLocalUidMap ;;
  saveLocalUidMap (<[normalized := uid]> map).

Definition getLocalUidByAccountNumber (accountNumber : string) : M (option string) :=
let normalized := normalizeAccountNumber accountNumber in
if negb (Str.truthy normalized) then ret None
else
  map <- getLocalUidMap ;;
  ret (map !! normalized).

(** The loop of [getOrCreateLocalAccountNumber] with [attempts] rounds
  left, and the deterministic fallback after it. *)
Fixpoint pickLocalCandidate (attempts : nat) (uid : string)
  (uidMap : gmap string string) : M string :=
match attempts with
| S attempts' =>
    candidate <- generateAccountNumber ;;
    if negb (truthyOpt (uidMap !! candidate))
    then
      setItem (localAccountStorageKey uid) candidate ;;
      saveLocalUidMap (<[candidate := uid]> uidMap) ;;
      ret candidate
    else pickLocalCandidate attempts' uid uidMap
| O =>
    let fallback :=
      ("BM" ++ Str.toUpperCase (Str.sliceTo 10 (Str.keepAlnum uid)))%string in
    setItem (localAccountStorageKey uid) fallback ;;
    saveLocalUidMap (<[fallback := uid]> uidMap) ;;
    ret fallback
end.

Definition getOrCreateLocalAccountNumber (uid : string) : M string :=
stored <- getItem (localAccountStorageKey uid) ;;
if truthyOpt stored
then
  let normalizedStored := normalizeAccountNumber (default "" stored) in
  registerLocalAccountMapping normalizedStored uid ;;
  ret normalizedStored
else
  uidMap <- getLocalUidMap ;;
  pickLocalCandidate 10 uid uidMap.

Definition saveCloudBankState (ownerUid : string) (st : BankState) : M unit :=
setUserBankState ownerUid (stateValue st).

Definition persistStateForOwner (ownerContext : BankOwnerContext) (st : BankState) : M unit :=
if truthyOpt (cloudOwnerUid ownerContext)
then
  tryCatch
    (saveCloudBankState (default "" (cloudOwnerUid ownerContext)) st)
    (fun _ => saveLocalBankState (localOwnerKey ownerContext) st)
else saveLocalBankState (localOwnerKey ownerContext) st.

Definition getUidByAccountNumber (accountNumber : string) : M (option string) :=
let normalized := normalizeAccountNumber accountNumber in
if negb (Str.truthy normalized) || negb (isValidAccountNumber normalized) then ret None
else
  configured <- isFirebaseConfigured ;;
  fromCloud <-
    (if configured
     then
       tryCatch
         (mappingSnapshot <- getMapping normalized ;;
          match mappingSnapshot with
          | Some (JStr uid) =>
              registerLocalAccountMapping normalized uid ;;
              ret (Some uid)
          | _ => ret None
          end)
         (fun _ => ret None)
     else ret None) ;;
  match fromCloud with
  | Some uid => ret (Some uid)
  | None => getLocalUidByAccountNumber normalized
  end.

(** [typeof bankState === 'object' && bankState !== null &&
   Array.isArray(bankState.transactions)] *)
Definition hasBankState (v : JSValue) : bool :=
JS.isObject v && JS.isArray (JS.getProp v "transactions").

Definition ensureCloudBankDoc (ownerUid : string) : M BankState :=
userSnapshot <- getUser ownerUid ;;
match (match userSnapshot with
       | Some userData =>
           if hasBankState (bankState userData)
           then Some (normalizeState (bankState userData))
           else None
       | None => None
       end) with
| Some normalizedUserBankState => ret normalizedUserBankState
| None =>
    legacyBankSnapshot <- getLegacy ownerUid ;;
    match legacyBankSnapshot with
    | Some data =>
        let legacyState := normalizeState data in
        saveCloudBankState ownerUid legacyState ;;
        ret legacyState
    | None =>
        setUserBankState ownerUid (stateValue defaultBankState) ;;
        ret defaultBankState
    end
end.

Definition getLocalBankState (ownerKey : string) : M BankState :=
tryCatch
  (rawValue <- getJSON (localBankStorageKey ownerKey) ;;
   match rawValue with
   | None => ret defaultBankState
   | Some parsed => ret (normalizeState parsed)
   end)
  (fun _ => ret defaultBankState).

(** The body of the reservation transaction. *)
Definition reserveAccount (uid candidate : string) (fs : Firestore)
  : Exn + (string * Firestore) :=
match nonBlankString (from_option accountNumber JUndefined (readUser uid fs)) with
| Some latestExisting => inr (normalizeAccountNumber latestExisting, fs)
| None =>
    match bankAccounts fs !! candidate with
    | Some _ => inl BankAccountConflict
    | None =>
        let fs1 := writeMapping candidate (JStr uid) fs in
        let fs2 := mergeAccountNumber uid (JStr candidate) fs1 in
        inr (candidate, mergeBankState uid (stateValue defaultBankState) fs2)
    end
end.

(** The reservation loop with [attempts] rounds left. *)
Fixpoint reserveLoop (attempts : nat) (uid : string) : M (option string) :=
match attempts with
| S attempts' =>
    candidate <- generateAccountNumber ;;
    tryCatch
      (accountNumber <- runTransaction (reserveAccount uid candidate) ;;
       registerLocalAccountMapping accountNumber uid ;;
       ret (Some accountNumber))
      (fun error =>
         match error with
         | BankAccountConflict => reserveLoop attempts' uid
         | _ => a <- getOrCreateLocalAccountNumber uid ;; ret (Some a)
         end)
| O => a <- getOrCreateLocalAccountNumber uid ;; ret (Some a)
end.

Definition ensureBankAccountForUser (uid : string) : M (option string) :=
if negb (Str.truthy uid) then ret None
else
  existingLocalAccount <- getItem (localAccountStorageKey uid) ;;
  if truthyOpt existingLocalAccount
  then
    let normalizedLocal := normalizeAccountNumber (default "" existingLocalAccount) in
    registerLocalAccountMapping normalizedLocal uid ;;
    ret (Some normalizedLocal)
  else
    configured <- isFirebaseConfigured ;;
    if negb configured
    then a <- getOrCreateLocalAccountNumber uid ;; ret (Some a)
    else
      (* [Some r]: the try statement returned [r]; [None]: it fell through *)
      found <-
        tryCatch
          (userSnapshot <- getUser uid ;;
           match nonBlankString
                   (from_option accountNumber JUndefined userSnapshot) with
           | Some existingAccountNumber =>
               let normalizedExisting := normalizeAccountNumber existingAccountNumber in
               registerLocalAccountMapping normalizedExisting uid ;;
               ret (Some normalizedExisting)
           | None => ret None
           end)
          (fun _ => a <- getOrCreateLocalAccountNumber uid ;; ret (Some a)) ;;
      match found with
      | Some account => ret (Some account)
      | None => reserveLoop 8 uid
      end.

Definition resolveBankOwnerContext : M BankOwnerContext :=
currentUid <- currentUserUid ;;
if negb (truthyOpt currentUid)
then ret {| cloudOwnerUid := None; localOwnerKey := "guest" |}
else
  let uid := default "" currentUid in
  ownAccountNumber <- ensureBankAccountForUser uid ;;
  configured <- isFirebaseConfigured ;;
  linkedAccountNumber <- getItem (linkedAccountStorageKey uid) ;;
  linked <-
    (if truthyOpt linkedAccountNumber
     then
       let linkedNumber := default "" linkedAccountNumber in
       linkedUid <- getUidByAccountNumber linkedNumber ;;
       if truthyOpt linkedUid
       then ret (Some {| cloudOwnerUid := if configured then linkedUid else None;
                         localOwnerKey :=
                           ("acc:" ++ normalizeAccountNumber linkedNumber)%string |})
       else removeItem (linkedAccountStorageKey uid) ;; ret None
     else ret None) ;;
  match linked with
  | Some context => ret context
  | None =>
      ret {| cloudOwnerUid := if configured then Some uid else None;
             localOwnerKey :=
               if truthyOpt ownAccountNumber
               then ("acc:" ++ default "" ownAccountNumber)%string
               else ("uid:" ++ uid)%string |}
  end.

Definition getBankState : M BankState :=
tryCatch
  (ownerContext <- resolveBankOwnerContext ;;
   if truthyOpt (cloudOwnerUid ownerContext)
   then ensureCloudBankDoc (default "" (cloudOwnerUid ownerContext))
   else getLocalBankState (localOwnerKey ownerContext))
  (fun _ => getLocalBankState "guest").

Definition addVirtualMoney (amount : Num.number) (note : string) : M BankState :=
let safeAmount := safeAmountOf amount in
if Num.leb safeAmount Num.zero then getBankState
else
  ownerContext <- resolveBankOwnerContext ;;
  previousState <- getBankState ;;
  now <- dateNow ;;
  created <- newDateISO ;;
  let nextState :=
    creditedState previousState safeAmount ("tx-" ++ Str.ofN now) note created in
  persistStateForOwner ownerContext nextState ;;
  ret nextState.

Definition tryDeductVirtualMoney (amount : Num.number) (note : string) : M OpResult :=
let safeAmount := safeAmountOf amount in
ownerContext <- resolveBankOwnerContext ;;
previousState <- getBankState ;;
if Num.leb safeAmount Num.zero
then ret {| ok := false; state := previousState; message := Some InvalidAmount |}
else if Num.ltb (balance previousState) safeAmount
then ret {| ok := false; state := previousState;
            message := Some (InsufficientBalance (balance previousState)) |}
else
  now <- dateNow ;;
  created <- newDateISO ;;
  let nextState :=
    debitedState previousState safeAmount ("tx-" ++ Str.ofN now) note created in
  persistStateForOwner ownerContext nextState ;;
  ret {| ok := true; state := nextState; message := None |}.

(** The persist step of [payToAccountByNumber] (its last statements),
  named for the properties of that step. *)
Definition persistPayment (payerOwnerContext recipientOwnerContext : BankOwnerContext)
  (payerNextState recipientNextState : BankState)
  (safeAmount : Num.number) (normalizedAccountNumber : string) : M OpResult :=
persistStateForOwner payerOwnerContext payerNextState ;;
persistStateForOwner recipientOwnerContext recipientNextState ;;
ret {| ok := true; state := payerNextState;
       message := Some (Paid safeAmount normalizedAccountNumber) |}.

Definition payToAccountByNumber (accountNumber : string) (amount : Num.number)
  (note : string) : M OpResult :=
currentUid <- currentUserUid ;;
payerState <- getBankState ;;
if negb (truthyOpt currentUid)
then ret {| ok := false; state := payerState; message := Some LoginNeeded |}
else
  let uid := default "" currentUid in
  let normalizedAccountNumber := normalizeAccountNumber accountNumber in
  if negb (Str.truthy normalizedAccountNumber)
     || negb (isValidAccountNumber normalizedAccountNumber)
  then ret {| ok := false; state := payerState; message := Some InvalidAccount |}
  else
    let safeAmount := safeAmountOf amount in
    if Num.leb safeAmount Num.zero
    then ret {| ok := false; state := payerState; message := Some InvalidAmount |}
    else
      ownAccountNumber <- ensureBankAccountForUser uid ;;
      if truthyOpt ownAccountNumber
         && String.eqb (normalizeAccountNumber (default "" ownAccountNumber))
                       normalizedAccountNumber
      then ret {| ok := false; state := payerState; message := Some SelfTransfer |}
      else if Num.ltb (balance payerState) safeAmount
      then ret {| ok := false; state := payerState;
                  message := Some (InsufficientBalance (balance payerState)) |}
      else
        recipientUid <- getUidByAccountNumber normalizedAccountNumber ;;
        if negb (truthyOpt recipientUid)
        then ret {| ok := false; state := payerState; message := Some AccountNotFound |}
        else
          let recipient := default "" recipientUid in
          payerOwnerContext <- resolveBankOwnerContext ;;
          debitNow <- dateNow ;;
          debitCreated <- newDateISO ;;
          let payerNextState :=
            debitedState payerState safeAmount
              ("tx-" ++ Str.ofN debitNow ++ "-debit")
              (note ++ " to " ++ normalizedAccountNumber) debitCreated in
          configured <- isFirebaseConfigured ;;
          let recipientOwnerContext :=
            {| cloudOwnerUid := if configured then Some recipient else None;
               localOwnerKey := ("acc:" ++ normalizedAccountNumber)%string |} in
          recipientPreviousState <-
            (if truthyOpt (cloudOwnerUid recipientOwnerContext)
             then ensureCloudBankDoc recipient
             else getLocalBankState (localOwnerKey recipientOwnerContext)) ;;
          creditNow <- dateNow ;;
          creditCreated <- newDateISO ;;
          let recipientNextState :=
            creditedState recipientPreviousState safeAmount
              ("tx-" ++ Str.ofN creditNow ++ "-credit")
              (note ++ " from " ++ default uid ownAccountNumber) creditCreated in
          persistPayment payerOwnerContext recipientOwnerContext
            payerNextState recipientNextState safeAmount normalizedAccountNumber.

End BillMate.

(** ** BankApp: [BankApp/lib/bank.ts] of the bank client *)

Module BankApp.
Import AsyncStorageApi FirestoreApi.

Record AddVirtualMoneyResult := {
am_state : BankState;
persistedToCloud : bool;
}.

Definition LOCAL_BANK_KEY_PREFIX : string := "bankapp:bank-state:".
Definition LOCAL_ACCOUNT_KEY_PREFIX : string := "bankapp:account-number:".

Definition localBankKey (uid : string) : string :=
(LOCAL_BANK_KEY_PREFIX ++ uid)%string.
Definition localAccountKey (uid : string) : string :=
(LOCAL_ACCOUNT_KEY_PREFIX ++ uid)%string.

(** [firebaseConfigured && db]: the database exists exactly when the
  configuration is complete. *)
Definition isFirebaseReady : M bool :=
fun w => Returned (firebaseConfigured w) w.

(** [auth?.currentUser?.uid]; [auth] is [null] without configuration. *)
Definition currentUserUid : M (option string) :=
fun w => Returned (if firebaseConfigured w then authUid w else None) w.

Definition getLocalBankState (uid : string) : M BankState :=
tryCatch
  (rawValue <- getJSON (localBankKey uid) ;;
   match rawValue with
   | None => ret defaultBankState
   | Some parsed => ret (normalizeState parsed)
   end)
  (fun _ => ret defaultBankState).

Definition saveLocalBankState (uid : string) (st : BankState) : M unit :=
setJSON (localBankKey uid) (stateJSON st).

Definition saveCloudBankState (uid : string) (st : BankState) : M bool :=
ready <- isFirebaseReady ;;
if negb ready then ret false
else
  tryCatch
    (setUserBankState uid (stateValue st) ;; ret true)
    (fun _ => ret false).

Definition getUidByAccountNumber (accountNumber : string) : M (option string) :=
ready <- isFirebaseReady ;;
if negb ready then ret None
else
  tryCatch
    (let normalized := Str.toUpperCase (Str.trim accountNumber) in
     if negb (Str.truthy normalized) then ret None
     else
       snapshot <- getMapping normalized ;;
       ret (nonBlankString (default JUndefined snapshot)))
    (fun _ => ret None).

Definition syncAccountNumberToCloud (uid accountNumber : string) : M unit :=
ready <- isFirebaseReady ;;
if negb ready then ret tt
else
  let normalized := Str.toUpperCase (Str.trim accountNumber) in
  if negb (Str.truthy normalized) then ret tt
  else
    mappingSnapshot <- getMapping normalized ;;
    match nonBlankString (default JUndefined mappingSnapshot) with
    | Some mappedUid =>
        if negb (String.eqb mappedUid uid) then ret tt
        else
          setMapping normalized (JStr uid) ;;
          setUserAccountNumber uid (JStr normalized)
    | None =>
        setMapping normalized (JStr uid) ;;
        setUserAccountNumber uid (JStr normalized)
    end.

(** [const fallback = generateAccountNumber(); await setItem(...);
   return fallback] *)
Definition localFallback (uid : string) : M (option string) :=
fallback <- generateAccountNumber ;;
setItem (localAccountKey uid) fallback ;;
ret (Some fallback).

(** The body of the reservation transaction. *)
Definition reserveAccount (uid candidate : string) (fs : Firestore)
  : Exn + (string * Firestore) :=
match nonBlankString (from_option accountNumber JUndefined (readUser uid fs)) with
| Some latestExisting => inr (latestExisting, fs)
| None =>
    match bankAccounts fs !! candidate with
    | Some _ => inl BankAccountConflict
    | None =>
        let fs1 := writeMapping candidate (JStr uid) fs in
        let fs2 := mergeAccountNumber uid (JStr candidate) fs1 in
        inr (candidate, mergeBankState uid (stateValue defaultBankState) fs2)
    end
end.

(** The reservation loop with [attempts] rounds left. *)
Fixpoint reserveLoop (attempts : nat) (uid : string) : M (option string) :=
match attempts with
| S attempts' =>
    candidate <- generateAccountNumber ;;
    tryCatch
      (accountNumber <- runTransaction (reserveAccount uid candidate) ;;
       setItem (localAccountKey uid) accountNumber ;;
       ret (Some accountNumber))
      (fun error =>
         match error with
         | BankAccountConflict => reserveLoop attempts' uid
         | _ => localFallback uid
         end)
| O => localFallback uid
end.

Definition ensureBankAccountForUser (uid : string) : M (option string) :=
if negb (Str.truthy uid) then ret None
else
  localStored <- getItem (localAccountKey uid) ;;
  if truthyOpt localStored
  then
    syncAccountNumberToCloud uid (default "" localStored) ;;
    ret localStored
  else
    ready <- isFirebaseReady ;;
    if negb ready
    then localFallback uid
    else
      (* [Some r]: the try statement returned [r]; [None]: it fell through *)
      found <-
        tryCatch
          (userSnapshot <- getUser uid ;;
           match nonBlankString
                   (from_option accountNumber JUndefined userSnapshot) with
           | Some existingAccount =>
               setItem (localAccountKey uid) existingAccount ;;
               syncAccountNumberToCloud uid existingAccount ;;
               ret (Some (Some existingAccount))
           | None => ret None
           end)
          (fun _ => r <- localFallback uid ;; ret (Some r)) ;;
      match found with
      | Some result => ret result
      | None => reserveLoop 8 uid
      end.

(** [typeof bankState === 'object' && bankState !== null &&
   Array.isArray(bankState.transactions)] *)
Definition hasBankState (v : JSValue) : bool :=
JS.isObject v && JS.isArray (JS.getProp v "transactions").

Definition getBankState : M BankState :=
currentUid <- currentUserUid ;;
if negb (truthyOpt currentUid) then ret defaultBankState
else
  let uid := default "" currentUid in
  ready <- isFirebaseReady ;;
  if negb ready then getLocalBankState uid
  else
    tryCatch
      (userSnapshot <- getUser uid ;;
       match (match userSnapshot with
              | Some userData =>
                  if hasBankState (bankState userData)
                  then Some (normalizeState (bankState userData))
                  else None
              | None => None
              end) with
       | Some normalizedUserBankState =>
           saveLocalBankState uid normalizedUserBankState ;;
           ret normalizedUserBankState
       | None =>
           legacyBankSnapshot <- getLegacy uid ;;
           match legacyBankSnapshot with
           | Some data =>
               let legacyState := normalizeState data in
               setUserBankState uid (stateValue legacyState) ;;
               saveLocalBankState uid legacyState ;;
               ret legacyState
           | None =>
               setUserBankState uid (stateValue defaultBankState) ;;
               ret defaultBankState
           end
       end)
      (fun _ => getLocalBankState uid).

Definition addVirtualMoney (amount : Num.number) (note : string)
  : M AddVirtualMoneyResult :=
currentUid <- currentUserUid ;;
if negb (truthyOpt currentUid) then throw LoginRequired
else
  let uid := default "" currentUid in
  let safeAmount := safeAmountOf amount in
  ready <- isFirebaseReady ;;
  if Num.leb safeAmount Num.zero
  then
    currentState <- getBankState ;;
    ret {| am_state := currentState; persistedToCloud := ready |}
  else
    ensureBankAccountForUser uid ;;
    previousState <- getBankState ;;
    now <- dateNow ;;
    created <- newDateISO ;;
    let nextState :=
      creditedState previousState safeAmount ("tx-" ++ Str.ofN now) note created in
    if ready
    then
      tryCatch
        (setUserBankState uid (stateValue nextState) ;;
         saveLocalBankState uid nextState ;;
         ret {| am_state := nextState; persistedToCloud := true |})
        (fun _ =>
           saveLocalBankState uid nextState ;;
           ret {| am_state := nextState; persistedToCloud := false |})
    else
      saveLocalBankState uid nextState ;;
      ret {| am_state := nextState; persistedToCloud := false |}.

(** The persist step of [transferToAccountByNumber] (its last
  statements, from the two cloud writes to the result), named for the
  properties of that step. *)
Definition persistTransfer (senderUid receiverUid : string)
  (senderNextState receiverNextState : BankState)
  (safeAmount : Num.number) (normalizedTarget : string) : M OpResult :=
senderSaved <- saveCloudBankState senderUid senderNextState ;;
receiverSaved <- saveCloudBankState receiverUid receiverNextState ;;
saveLocalBankState senderUid senderNextState ;;
saveLocalBankState receiverUid receiverNextState ;;
if negb senderSaved || negb receiverSaved
then ret {| ok := false; message := Some PartialFailure;
            state := senderNextState |}
else ret {| ok := true;
            message := Some (Paid safeAmount normalizedTarget);
            state := senderNextState |}.

Definition transferToAccountByNumber (targetAccountNumber : string)
  (amount : Num.number) (note : string) : M OpResult :=
senderUidOpt <- currentUserUid ;;
if negb (truthyOpt senderUidOpt)
then ret {| ok := false; message := Some LoginNeeded; state := defaultBankState |}
else
  let senderUid := default "" senderUidOpt in
  let normalizedTarget := Str.toUpperCase (Str.trim targetAccountNumber) in
  if negb (Str.matchesAccountPattern normalizedTarget)
  then
    senderState <- getBankState ;;
    ret {| ok := false; message := Some InvalidAccount; state := senderState |}
  else
    senderAccountNumber <- ensureBankAccountForUser senderUid ;;
    if truthyOpt senderAccountNumber
       && String.eqb (Str.toUpperCase (Str.trim (default "" senderAccountNumber)))
                     normalizedTarget
    then
      senderState <- getBankState ;;
      ret {| ok := false; message := Some SelfTransfer; state := senderState |}
    else
      let safeAmount := safeAmountOf amount in
      senderState <- getBankState ;;
      if Num.leb safeAmount Num.zero
      then ret {| ok := false; message := Some InvalidAmount; state := senderState |}
      else if Num.ltb (balance senderState) safeAmount
      then ret {| ok := false;
                  message := Some (InsufficientBalance (balance senderState));
                  state := senderState |}
      else
        receiverUidOpt <- getUidByAccountNumber normalizedTarget ;;
        if negb (truthyOpt receiverUidOpt)
        then ret {| ok := false; message := Some AccountNotFound; state := senderState |}
        else
          let receiverUid := default "" receiverUidOpt in
          receiverSnapshot <- getUser receiverUid ;;
          let receiverState :=
            normalizeState (from_option bankState JUndefined receiverSnapshot) in
          debitNow <- dateNow ;;
          debitCreated <- newDateISO ;;
          let senderNextState :=
            debitedState senderState safeAmount
              ("tx-" ++ Str.ofN debitNow ++ "-debit")
              (note ++ " to " ++ normalizedTarget) debitCreated in
          creditNow <- dateNow ;;
          creditCreated <- newDateISO ;;
          let receiverNextState :=
            creditedState receiverState safeAmount
              ("tx-" ++ Str.ofN creditNow ++ "-credit")
              (note ++ " from " ++ default senderUid senderAccountNumber)
              creditCreated in
          persistTransfer senderUid receiverUid senderNextState receiverNextState
            safeAmount normalizedTarget.

End BankApp.

(** ** Vocabulary of the properties *)

(** [x] is a zero, a finite number or an infinity of sign [s]. *)
Definition signed (s : bool) (x : spec_float) : Prop :=
  match x with
  | S754_zero s' | S754_infinity s' | S754_finite s' _ _ => s' = s
  | S754_nan => False
  end.

(** The world an outcome leaves behind. *)
Definition after {A} (o : Outcome A) : World :=
  match o with
  | Returned _ w => w
  | Thrown _ w => w
  end.

(** [m] never rejects. *)
Definition safe {A} (m : M A) : Prop :=
  forall w, exists a w', m w = Returned a w'.

(** Every run of [m] relates the world it starts in to the world it
    leaves, for a relation [R] that is reflexive and transitive. *)
Definition preserves {A} (R : World -> World -> Prop) (m : M A) : Prop :=
  forall w, R w (after (m w)).

(** Every value that [m] returns satisfies [P]. *)
Definition returns {A} (P : A -> Prop) (m : M A) : Prop :=
  forall w a w', m w = Returned a w' -> P a.

Definition clamped (s : BankState) : Prop := wellFormed s = true.

(** The ledger state of the data model of the specification: a
    well-formed state none of whose entries has a negative amount. *)
Definition validLedgerState (s : BankState) : bool :=
  wellFormed s && forallb (fun t => Num.nonneg (tx_amount t)) (transactions s).

(** A state whose balance is not negative. *)
Definition solvent (s : BankState) : Prop := Num.nonneg (balance s) = true.

(** What a debit of [a] from the state [prev] may answer. *)
Definition debitAnswer (prev : BankState) (a : Num.number) (n : string)
    (r : OpResult) : Prop :=
  (Num.leb (safeAmountOf a) Num.zero = true
   /\ r = {| ok := false; state := prev; message := Some InvalidAmount |})
  \/ (Num.leb (safeAmountOf a) Num.zero = false
      /\ Num.ltb (balance prev) (safeAmountOf a) = true
      /\ r = {| ok := false; state := prev;
                message := Some (InsufficientBalance (balance prev)) |})
  \/ (Num.leb (safeAmountOf a) Num.zero = false
      /\ Num.ltb (balance prev) (safeAmountOf a) = false
      /\ exists i c, r = {| ok := true; state := debitedState prev (safeAmountOf a) i n c;
                            message := None |}).

(** The guard of a debit, read off its answer. *)
Definition debitGuard (prev : BankState) (a : Num.number) (r : OpResult) : Prop :=
  (Num.isFinite a = true -> Num.ltb (balance prev) a = true ->
   r = {| ok := false; state := prev;
          message := Some (InsufficientBalance (balance prev)) |})
  /\ (Num.isFinite a = false ->
      r = {| ok := false; state := prev; message := Some InvalidAmount |})
  /\ (ok r = false -> state r = prev)
  /\ (ok r = true ->
      Num.ltb (balance prev) a = false
      /\ balance (state r) = Num.sub (balance prev) a
      /\ (Num.valid a = true -> Num.valid (balance prev) = true ->
          Num.nonneg (balance (state r)) = true)).

(** The verdict of a debit: the guard, and the answer to a finite amount
    that is not above 0. *)
Definition debitVerdict (prev : BankState) (a : Num.number) (r : OpResult) : Prop :=
  debitGuard prev a r
  /\ (Num.isFinite a = true -> Num.leb a Num.zero = true ->
      r = {| ok := false; state := prev; message := Some InvalidAmount |}).

(** The verdict of the debit leg of a transfer or of a payment that has
    read the state [prev], on the outcome [o] of the call: the answers to
    an amount that exceeds the balance and to an amount that is not
    valid; an answer that is refused carries the state that was read; an
    answer that is [ok], or that reports a partial failure, carries the
    balance minus the amount, which is not negative. *)
Definition legVerdict (prev : BankState) (a : Num.number)
    (o : Outcome OpResult) : Prop :=
  (Num.isFinite a = true -> Num.ltb (balance prev) a = true ->
   exists w', o = Returned {| ok := false; state := prev;
                              message := Some (InsufficientBalance (balance prev)) |} w')
  /\ (Num.isFinite a = false \/ Num.leb a Num.zero = true ->
      exists w', o = Returned {| ok := false; state := prev;
                                 message := Some InvalidAmount |} w')
  /\ forall r w',
       o = Returned r w' ->
       (ok r = false -> message r <> Some PartialFailure -> state r = prev)
       /\ (ok r = true \/ message r = Some PartialFailure ->
           Num.ltb (balance prev) a = false
           /\ balance (state r) = Num.sub (balance prev) a
           /\ (Num.valid a = true -> Num.valid (balance prev) = true ->
               Num.nonneg (balance (state r)) = true)).

(** [transferToAccountByNumber] has reached its persist step. *)
Definition transferCommitted (target : string) (a : Num.number) (n : string)
    (w : World) (r : OpResult) (w' : World)
    (senderUid : string) (acct : option string) (receiverUid : string)
    (senderState receiverState senderNext receiverNext : BankState) : Prop :=
  let T := Str.toUpperCase (Str.trim target) in
  exists w1 w2 w3 snap w4 i1 c1 i2 c2,
    firebaseConfigured w = true /\ authUid w = Some senderUid
    /\ Str.truthy senderUid = true
    /\ Str.matchesAccountPattern T = true
    /\ BankApp.ensureBankAccountForUser senderUid w = Returned acct w1
    /\ BankApp.getBankState w1 = Returned senderState w2
    /\ Num.isFinite a = true /\ Num.leb a Num.zero = false
    /\ Num.ltb (balance senderState) a = false
    /\ BankApp.getUidByAccountNumber T w2 = Returned (Some receiverUid) w3
    /\ Str.truthy receiverUid = true
    /\ FirestoreApi.getUser receiverUid w3 = Returned snap w4
    /\ receiverState = normalizeState (from_option bankState JUndefined snap)
    /\ senderNext = debitedState senderState a i1 (n ++ " to " ++ T) c1
    /\ receiverNext
       = creditedState receiverState a i2 (n ++ " from " ++ default senderUid acct) c2
    /\ BankApp.persistTransfer senderUid receiverUid senderNext receiverNext a T
         (tickClock (tickClock (tickClock (tickClock w4)))) = Returned r w'.

(** The state [st] is what the store holds for the owner [ctx]: in the
    owner's document or, failing that, in the local cache. *)
Definition persistedAt (ctx : BillMate.BankOwnerContext) (st : BankState)
    (w : World) : Prop :=
  (truthyOpt (BillMate.cloudOwnerUid ctx) = true
   /\ bankState <$> users (firestore w) !! default "" (BillMate.cloudOwnerUid ctx)
      = Some (stateValue st))
  \/ jsons (storage w) !! BillMate.localBankStorageKey (BillMate.localOwnerKey ctx)
     = Some (stateJSON st).

(** Two owner contexts that address different ledgers. *)
Definition distinctOwners (c1 c2 : BillMate.BankOwnerContext) : Prop :=
  default "" (BillMate.cloudOwnerUid c1) <> default "" (BillMate.cloudOwnerUid c2)
  /\ BillMate.localOwnerKey c1 <> BillMate.localOwnerKey c2.

(** [payToAccountByNumber] has reached its persist step. *)
Definition paymentCommitted (account : string) (a : Num.number) (n : string)
    (w : World) (r : OpResult) (w' : World)
    (uid : string) (own : option string) (recipient : string)
    (payerState recipientState : BankState)
    (payerCtx recipientCtx : BillMate.BankOwnerContext)
    (payerNext recipientNext : BankState) : Prop :=
  let T := BillMate.normalizeAccountNumber account in
  exists w1 w2 w3 w4 w5 i1 c1 i2 c2,
    authUid w = Some uid /\ Str.truthy uid = true
    /\ BillMate.getBankState w = Returned payerState w1
    /\ BillMate.isValidAccountNumber T = true
    /\ Num.isFinite a = true /\ Num.leb a Num.zero = false
    /\ BillMate.ensureBankAccountForUser uid w1 = Returned own w2
    /\ Num.ltb (balance payerState) a = false
    /\ BillMate.getUidByAccountNumber T w2 = Returned (Some recipient) w3
    /\ Str.truthy recipient = true
    /\ BillMate.resolveBankOwnerContext w3 = Returned payerCtx w4
    /\ recipientCtx
       = {| BillMate.cloudOwnerUid :=
              if firebaseConfigured w4 then Some recipient else None;
            BillMate.localOwnerKey := ("acc:" ++ T)%string |}
    /\ (if truthyOpt (BillMate.cloudOwnerUid recipientCtx)
        then BillMate.ensureCloudBankDoc recipient
        else BillMate.getLocalBankState (BillMate.localOwnerKey recipientCtx))
         (tickClock (tickClock w4)) = Returned recipientState w5
    /\ payerNext = debitedState payerState a i1 (n ++ " to " ++ T) c1
    /\ recipientNext
       = creditedState recipientState a i2 (n ++ " from " ++ default uid own) c2
    /\ BillMate.persistPayment payerCtx recipientCtx payerNext recipientNext a T
         (tickClock (tickClock w5)) = Returned r w'.

(** [st] is [prev] after a credit, and after a debit, of [a] with the
    note [n]: the balance moves by [a] and one entry is put in front. *)
Definition creditOf (prev : BankState) (a : Num.number) (n : string)
    (st : BankState) : Prop :=
  balance st = Num.add (balance prev) a
  /\ exists i c,
       transactions st
       = {| tx_id := i; tx_type := credit; tx_amount := a; tx_note := n;
            tx_createdAt := c |} :: transactions prev.

Definition debitOf (prev : BankState) (a : Num.number) (n : string)
    (st : BankState) : Prop :=
  balance st = Num.sub (balance prev) a
  /\ exists i c,
       transactions st
       = {| tx_id := i; tx_type := debit; tx_amount := a; tx_note := n;
            tx_createdAt := c |} :: transactions prev.

(** What a transfer of BankApp that answers [ok] has done: the answer
    carries the state of the sender after the debit, the state of the
    receiver after the credit is in the receiver's document, and the
    state of the sender is in the sender's document when the two users
    differ. *)
Definition transferMoved (target : string) (a : Num.number) (n : string)
    (w : World) (r : OpResult) (w' : World) : Prop :=
  let T := Str.toUpperCase (Str.trim target) in
  exists senderUid acct receiverUid senderState receiverState senderNext receiverNext,
    transferCommitted target a n w r w'
      senderUid acct receiverUid senderState receiverState senderNext receiverNext
    /\ r = {| ok := true; state := senderNext; message := Some (Paid a T) |}
    /\ debitOf senderState a (n ++ " to " ++ T) senderNext
    /\ creditOf receiverState a (n ++ " from " ++ default senderUid acct) receiverNext
    /\ bankState <$> users (firestore w') !! receiverUid = Some (stateValue receiverNext)
    /\ (senderUid <> receiverUid ->
        bankState <$> users (firestore w') !! senderUid = Some (stateValue senderNext)).

(** Firestore accepts the write of a state for the owner [ctx] that is
    the [k]-th request of [W]: the owner has a remote uid and the request
    does not reject. *)
Definition acceptedRemotely (ctx : BillMate.BankOwnerContext) (W : World)
    (k : nat) : bool :=
  truthyOpt (BillMate.cloudOwnerUid ctx)
  && negb (outage W k (SetDoc (UserDoc (default "" (BillMate.cloudOwnerUid ctx))))).

(** Where the state [st] of the owner [ctx] is in [w]: in the owner's
    document when [remote], and otherwise in the local cache under the
    owner's key. *)
Definition storedFor (ctx : BillMate.BankOwnerContext) (st : BankState)
    (remote : bool) (w : World) : Prop :=
  if remote
  then bankState <$> users (firestore w) !! default "" (BillMate.cloudOwnerUid ctx)
       = Some (stateValue st)
  else jsons (storage w) !! BillMate.localBankStorageKey (BillMate.localOwnerKey ctx)
       = Some (stateJSON st).

(** The two sides of a payment are written to the same place. *)
Definition sameSlot (pc rc : BillMate.BankOwnerContext) (p q : bool) : Prop :=
  p = q
  /\ if p
     then default "" (BillMate.cloudOwnerUid pc) = default "" (BillMate.cloudOwnerUid rc)
     else BillMate.localOwnerKey pc = BillMate.localOwnerKey rc.

(** What the persist step of a payment, started in [W], has left in
    [w']: the state of the recipient where its write went, and the state
    of the payer where its write went unless the recipient's write went
    to the same place. The write of the payer is the next request of [W],
    when the payer has a remote uid, and the write of the recipient is the
    request after it. *)
Definition paymentStored (pc rc : BillMate.BankOwnerContext) (pn rn : BankState)
    (W w' : World) : Prop :=
  let p := acceptedRemotely pc W (requests W) in
  let q := acceptedRemotely rc W
             (if truthyOpt (BillMate.cloudOwnerUid pc)
              then S (requests W) else requests W) in
  storedFor rc rn q w' /\ (~ sameSlot pc rc p q -> storedFor pc pn p w').

(** [payToAccountByNumber] has reached its persist step, which starts in
    the world [W]. *)
Definition paymentReached (account : string) (a : Num.number) (n : string)
    (w : World) (uid : string) (own : option string) (recipient : string)
    (payerState recipientState : BankState)
    (payerCtx recipientCtx : BillMate.BankOwnerContext)
    (payerNext recipientNext : BankState) (W : World) : Prop :=
  let T := BillMate.normalizeAccountNumber account in
  exists w1 w2 w3 w4 w5 i1 c1 i2 c2,
    authUid w = Some uid /\ Str.truthy uid = true
    /\ BillMate.getBankState w = Returned payerState w1
    /\ BillMate.isValidAccountNumber T = true
    /\ Num.isFinite a = true /\ Num.leb a Num.zero = false
    /\ BillMate.ensureBankAccountForUser uid w1 = Returned own w2
    /\ Num.ltb (balance payerState) a = false
    /\ BillMate.getUidByAccountNumber T w2 = Returned (Some recipient) w3
    /\ Str.truthy recipient = true
    /\ BillMate.resolveBankOwnerContext w3 = Returned payerCtx w4
    /\ recipientCtx
       = {| BillMate.cloudOwnerUid :=
              if firebaseConfigured w4 then Some recipient else None;
            BillMate.localOwnerKey := ("acc:" ++ T)%string |}
    /\ (if truthyOpt (BillMate.cloudOwnerUid recipientCtx)
        then BillMate.ensureCloudBankDoc recipient
        else BillMate.getLocalBankState (BillMate.localOwnerKey recipientCtx))
         (tickClock (tickClock w4)) = Returned recipientState w5
    /\ payerNext = debitedState payerState a i1 (n ++ " to " ++ T) c1
    /\ recipientNext
       = creditedState recipientState a i2 (n ++ " from " ++ default uid own) c2
    /\ W = tickClock (tickClock w5).

(** What a payment of BillMate that answers [ok] has done: the answer
    carries the state of the payer after the debit, and the persist step
    has left that state and the state of the recipient after the credit
    where [paymentStored] tells. *)
Definition paymentSettled (account : string) (a : Num.number) (n : string)
    (w : World) (r : OpResult) (w' : World) : Prop :=
  let T := BillMate.normalizeAccountNumber account in
  exists uid own recipient payerState recipientState payerCtx recipientCtx
         payerNext recipientNext W,
    paymentReached account a n w uid own recipient payerState recipientState
      payerCtx recipientCtx payerNext recipientNext W
    /\ BillMate.persistPayment payerCtx recipientCtx payerNext recipientNext a T W
       = Returned r w'
    /\ r = {| ok := true; state := payerNext; message := Some (Paid a T) |}
    /\ debitOf payerState a (n ++ " to " ++ T) payerNext
    /\ creditOf recipientState a (n ++ " from " ++ default uid own) recipientNext
    /\ paymentStored payerCtx recipientCtx payerNext recipientNext W w'.

(** The ledger that the remote store holds for [uid]: what a read of the
    owner's documents yields when Firestore answers. *)
Definition cloudLedger (fs : Firestore) (uid : string) : BankState :=
  let legacy :=
    match legacyBank fs !! uid with
    | Some data => normalizeState data
    | None => defaultBankState
    end in
  match users fs !! uid with
  | Some userData =>
      if BankApp.hasBankState (bankState userData)
      then normalizeState (bankState userData)
      else legacy
  | None => legacy
  end.

(** No ledger of the remote store has changed between [w] and [w']. *)
Definition cloudFrame (w w' : World) : Prop :=
  forall u, cloudLedger (firestore w') u = cloudLedger (firestore w) u.

(** The identity provider, the configuration and the behaviour of the
    environment are the same in [w] and [w']. *)
Definition envFrame (w w' : World) : Prop :=
  authUid w' = authUid w /\ firebaseConfigured w' = firebaseConfigured w
  /\ outage w' = outage w /\ clock w' = clock w /\ random w' = random w.

(** A character that stays as it is in a normalized account number. *)
Definition plain (a : ascii) : bool := negb (Str.isSpace a) && negb (Str.isLower a).

(** The clock never reads a time before the tenth millisecond. *)
Definition clockSane (w : World) : Prop := forall k, (10 <= clock w k)%N.

(** The deterministic fallback of [getOrCreateLocalAccountNumber]. *)
Definition alnumCount (uid : string) : nat :=
  List.length (List.filter Str.isAlnum (Str.chars uid)).

(** An outcome that is a value and a world related by [Q], or a
    rejection in a world where [E] holds; and [m], started in a world
    where [P] holds, has such an outcome. *)
Definition satisfies {A} (Q : A -> World -> Prop) (E : World -> Prop)
    (o : Outcome A) : Prop :=
  match o with
  | Returned a w' => Q a w'
  | Thrown _ w' => E w'
  end.

Definition triple {A} (P : World -> Prop) (m : M A) (Q : A -> World -> Prop)
    (E : World -> Prop) : Prop :=
  forall w, P w -> satisfies Q E (m w).

(** The local cache holds, for [uid], an account number whose normal form
    is [a]. *)
Definition cachedAs (uid a : string) (w : World) : Prop :=
  exists s, texts (storage w) !! BillMate.localAccountStorageKey uid = Some s
            /\ Str.truthy s = true /\ BillMate.normalizeAccountNumber s = a.

(** The account numbers already recorded for [uid], locally and in the
    owner's document, are well-formed once normalized. *)
Definition recordedNumbersValid (uid : string) (w : World) : Prop :=
  (forall s, texts (storage w) !! BillMate.localAccountStorageKey uid = Some s ->
             Str.truthy s = true ->
             BillMate.isValidAccountNumber (BillMate.normalizeAccountNumber s) = true)
  /\ (forall s, nonBlankString
                  (from_option accountNumber JUndefined (users (firestore w) !! uid))
                = Some s ->
                BillMate.isValidAccountNumber (BillMate.normalizeAccountNumber s) = true).

(** The same for BankApp, which returns the recorded numbers as they are. *)
Definition recordedNumbersValidRaw (uid : string) (w : World) : Prop :=
  (forall s, texts (storage w) !! BankApp.localAccountKey uid = Some s ->
             Str.truthy s = true -> Str.matchesAccountPattern s = true)
  /\ (forall s, nonBlankString
                  (from_option accountNumber JUndefined (users (firestore w) !! uid))
                = Some s -> Str.matchesAccountPattern s = true).

(** Nothing that an invariant of the allocator reads has changed: the
    clock, the remote store and the plain-text entries of the cache. *)
Definition unchanged (w w' : World) : Prop :=
  clock w' = clock w /\ firestore w' = firestore w
  /\ texts (storage w') = texts (storage w).

(** An invariant that reads only what [unchanged] keeps. *)
Definition settled (I : World -> Prop) : Prop :=
  forall w w', unchanged w w' -> I w -> I w'.

(** An account number that is not empty and is its own normal form. *)
Definition normal (c : string) : Prop :=
  Str.truthy c = true /\ BillMate.normalizeAccountNumber c = c.

(** AsyncStorage is the same in [w] and [w']. *)
Definition storageFrame (w w' : World) : Prop := storage w' = storage w.

(** The local cache of BankApp holds the account number [a] for [uid]. *)
Definition cachedRaw (uid a : string) (w : World) : Prop :=
  texts (storage w) !! BankApp.localAccountKey uid = Some a /\ Str.truthy a = true.

(** BillMate has a cached account number for [uid]. *)
Definition provisioned (uid : string) (w : World) : Prop :=
  exists s, texts (storage w) !! BillMate.localAccountStorageKey uid = Some s
            /\ Str.truthy s = true.

(** No ledger of the local cache of BillMate has changed. *)
Definition localLedgerFrame (w w' : World) : Prop :=
  forall k, jsons (storage w') !! BillMate.localBankStorageKey k
            = jsons (storage w) !! BillMate.localBankStorageKey k.

(** What a run of BillMate for the signed-in, provisioned user [uid]
    leaves as it was: the user stays provisioned, and the environment and
    every ledger, remote or local, are the same. *)
Definition hush (uid : string) (w w' : World) : Prop :=
  authUid w = Some uid -> provisioned uid w ->
  provisioned uid w' /\ envFrame w w' /\ cloudFrame w w' /\ localLedgerFrame w w'.

(** The local cache of BankApp is as it was, but for the ledger that is
    cached for [uid]. *)
Definition cacheRefresh (uid : string) (w w' : World) : Prop :=
  texts (storage w') = texts (storage w)
  /\ forall k, k <> BankApp.localBankKey uid ->
               jsons (storage w') !! k = jsons (storage w) !! k.

(** ** Scenarios

    Concrete worlds on which the functions are run: the users [alice]
    (account [BM11111111], balance 100) and [bob] (account [BM22222222],
    balance 0) of the scenario of the transfer, a device without an
    account, a user whose ledger is still in the legacy document, and the
    wallet of the first version. *)

Module Scenario.

(** An empty ledger with the balance [b]. *)
Definition ledger (b : Z) : BankState :=
{| balance := Num.ofZ b; transactions := [] |}.

Definition cloud : Firestore :=
{| users :=
     {[ "alice" := {| accountNumber := JStr "BM11111111";
                      bankState := stateValue (ledger 100) |};
        "bob" := {| accountNumber := JStr "BM22222222";
                    bankState := stateValue (ledger 0) |} ]};
   bankAccounts := {[ "BM11111111" := JStr "alice"; "BM22222222" := JStr "bob" ]};
   legacyBank := ∅ |}.

(** [alice] is signed in on a device that has cached her account number,
  and Firestore answers every request. *)
Definition online : World :=
{| authUid := Some "alice"; firebaseConfigured := true;
   storage :=
     {| texts := {[ BankApp.localAccountKey "alice" := "BM11111111";
                    BillMate.localAccountStorageKey "alice" := "BM11111111" ]};
        jsons := ∅ |};
   firestore := cloud;
   outage := fun _ _ => false; requests := 0;
   clock := fun n => (N.of_nat n + 1700000000000)%N; clockReads := 0;
   random := fun n => N.of_nat n; randomDraws := 0 |}.

(** The same with requests to Firestore that reject as [f] tells. *)
Definition failing (f : nat -> CloudOp -> bool) : World :=
{| authUid := authUid online; firebaseConfigured := firebaseConfigured online;
   storage := storage online; firestore := firestore online;
   outage := f; requests := 0;
   clock := clock online; clockReads := 0;
   random := random online; randomDraws := 0 |}.

(** Firestore rejects every request. *)
Definition offline : World := failing (fun _ _ => true).

(** Firestore rejects the writes to the document of [bob]. *)
Definition bobUnreachable : World :=
failing (fun _ op => match op with
                     | SetDoc (UserDoc u) => String.eqb u "bob"
                     | _ => false
                     end).

(** [carolyn] signs in on a new device; Firestore answers two requests and
  rejects the later ones. *)
Definition signup : World :=
{| authUid := Some "carolyn"; firebaseConfigured := true;
   storage := {| texts := ∅; jsons := ∅ |};
   firestore := cloud;
   outage := fun k _ => (2 <=? k)%nat; requests := 0;
   clock := clock online; clockReads := 0;
   random := random online; randomDraws := 0 |}.

(** The user [ab] on a device without Firebase, whose clock and random
  source stand still, and where the one candidate they give is taken. *)
Definition crowded : World :=
{| authUid := Some "ab"; firebaseConfigured := false;
   storage :=
     {| texts := ∅;
        jsons := {[ BillMate.LOCAL_ACCOUNT_UID_MAP_KEY
                    := JObj [("BM0000001000", JStr "zed")] ]} |};
   firestore := {| users := ∅; bankAccounts := ∅; legacyBank := ∅ |};
   outage := fun _ _ => false; requests := 0;
   clock := fun _ => 1700000000000%N; clockReads := 0;
   random := fun _ => 0%N; randomDraws := 0 |}.

(** The wallet of the first version, holding 100. *)
Definition wallet : World :=
{| authUid := None; firebaseConfigured := false;
   storage := {| texts := ∅;
                 jsons := {[ Legacy.BANK_STORAGE_KEY := stateJSON (ledger 100) ]} |};
   firestore := {| users := ∅; bankAccounts := ∅; legacyBank := ∅ |};
   outage := fun _ _ => false; requests := 0;
   clock := clock online; clockReads := 0;
   random := random online; randomDraws := 0 |}.

(** A stored ledger with an entry of a negative amount. *)
Definition refund : JSValue :=
JObj [("balance", JNum (Num.ofZ 5));
      ("transactions",
       JArr [JObj [("id", JStr "tx-1"); ("type", JStr "credit");
                   ("amount", JNum (Num.ofZ (-3))); ("note", JStr "Refund");
                   ("createdAt", JStr "2023-11-14T22:13:20.001Z")]])].

(** The answer to the transfer of 40 from [alice] to [bob]. *)
Definition paid : OpResult :=
{| ok := true;
   state :=
     {| balance := Num.ofZ 60;
        transactions :=
          [{| tx_id := "tx-1700000000000-debit"; tx_type := debit;
              tx_amount := Num.ofZ 40; tx_note := "QR payment to BM22222222";
              tx_createdAt := "2023-11-14T22:13:20.001Z" |}] |};
   message := Some (Paid (Num.ofZ 40) "BM22222222") |}.

(** The answer to a request that is refused with [m]. *)
Definition refused (m : Message) : OpResult :=
{| ok := false; state := ledger 100; message := Some m |}.

(** The owner context of [alice]. *)
Definition aliceContext : BillMate.BankOwnerContext :=
{| BillMate.cloudOwnerUid := Some "alice";
   BillMate.localOwnerKey := "acc:BM11111111" |}.

(** The ledger of [bob] after the payment of 40 that [alice] makes to
  him. *)
Definition bobCredited : BankState :=
{| balance := Num.ofZ 40;
   transactions :=
     [{| tx_id := "tx-1700000000002-credit"; tx_type := credit;
         tx_amount := Num.ofZ 40; tx_note := "QR payment from BM11111111";
         tx_createdAt := "2023-11-14T22:13:20.003Z" |}] |}.

(** [dave] signs in on a new device: he has no account number yet, and
  his ledger of 50 is in the legacy document. *)
Definition migrant : World :=
{| authUid := Some "dave"; firebaseConfigured := true;
   storage := {| texts := ∅; jsons := ∅ |};
   firestore :=
     {| users := users cloud; bankAccounts := bankAccounts cloud;
        legacyBank := {[ "dave" := stateValue (ledger 50) ]} |};
   outage := fun _ _ => false; requests := 0;
   clock := clock online; clockReads := 0;
   random := random online; randomDraws := 0 |}.

End Scenario.

(** ** BillMate: linked accounts and the savings summary

    The rest of [lib/bank.ts] of BillMate: the account of the current
    user, the link to another account, and [getSavingsSummary] of the
    savings screen. *)

Module Linking.
Import AsyncStorageApi.
Import BillMate.

Record LinkedBankAccountInfo := {
  ownAccountNumber : option string;
  linkedAccountNumber : option string;
  linkedAccountOwnerUid : option string;
}.

(** The messages of [linkBankAccountByNumber]. *)
Inductive LinkMessage :=
| EnterValidAccount    (* 'Enter a valid account number (example: BM12345678).' *)
| LoginToLink          (* 'Login required to link account.' *)
| LinkTargetNotFound   (* 'Account number not found.' *)
| LinkedToOwn          (* 'Linked to your own bank account.' *)
| LinkedSuccessfully.  (* 'Linked successfully.' *)

Record LinkResult := {
  link_ok : bool;
  link_message : LinkMessage;
  link_info : LinkedBankAccountInfo;
}.

Definition ensureBankAccountForCurrentUser : M (option string) :=
  currentUid <- currentUserUid ;;
  if negb (truthyOpt currentUid) then ret None
  else ensureBankAccountForUser (default "" currentUid).

Definition getLinkedBankAccountInfo : M LinkedBankAccountInfo :=
  currentUid <- currentUserUid ;;
  if negb (truthyOpt currentUid)
  then ret {| ownAccountNumber := None; linkedAccountNumber := None;
              linkedAccountOwnerUid := None |}
  else
    let uid := default "" currentUid in
    own <- ensureBankAccountForUser uid ;;
    linked <- getItem (linkedAccountStorageKey uid) ;;
    if negb (truthyOpt linked)
    then ret {| ownAccountNumber := own; linkedAccountNumber := None;
                linkedAccountOwnerUid := None |}
    else
      owner <- getUidByAccountNumber (default "" linked) ;;
      if negb (truthyOpt owner)
      then
        removeItem (linkedAccountStorageKey uid) ;;
        ret {| ownAccountNumber := own; linkedAccountNumber := None;
               linkedAccountOwnerUid := None |}
      else ret {| ownAccountNumber := own; linkedAccountNumber := linked;
                  linkedAccountOwnerUid := owner |}.

Definition linkBankAccountByNumber (accountNumber : string) : M LinkResult :=
  let normalized := normalizeAccountNumber accountNumber in
  if negb (Str.truthy normalized) || negb (isValidAccountNumber normalized)
  then
    info <- getLinkedBankAccountInfo ;;
    ret {| link_ok := false; link_message := EnterValidAccount; link_info := info |}
  else
    currentUid <- currentUserUid ;;
    if negb (truthyOpt currentUid)
    then
      info <- getLinkedBankAccountInfo ;;
      ret {| link_ok := false; link_message := LoginToLink; link_info := info |}
    else
      let uid := default "" currentUid in
      ownerUid <- getUidByAccountNumber normalized ;;
      if negb (truthyOpt ownerUid)
      then
        info <- getLinkedBankAccountInfo ;;
        ret {| link_ok := false; link_message := LinkTargetNotFound; link_info := info |}
      else
        setItem (linkedAccountStorageKey uid) normalized ;;
        info <- getLinkedBankAccountInfo ;;
        ret {| link_ok := true;
               link_message := if String.eqb (default "" ownerUid) uid
                               then LinkedToOwn else LinkedSuccessfully;
               link_info := info |}.

Definition unlinkLinkedBankAccount : M LinkedBankAccountInfo :=
  currentUid <- currentUserUid ;;
  (if truthyOpt currentUid
   then removeItem (linkedAccountStorageKey (default "" currentUid))
   else ret tt) ;;
  getLinkedBankAccountInfo.

End Linking.

(** [getSavingsSummary] of [app/savings.tsx]. *)
Module Savings.

Record SavingsSummary := {
  totalCredits : Num.number;
  totalDebits : Num.number;
}.

Definition getSavingsSummary (st : BankState) : SavingsSummary :=
  fold_left
    (fun summary transaction =>
       match tx_type transaction with
       | credit =>
           {| totalCredits := Num.add (totalCredits summary) (tx_amount transaction);
              totalDebits := totalDebits summary |}
       | debit =>
           {| totalCredits := totalCredits summary;
              totalDebits := Num.add (totalDebits summary) (tx_amount transaction) |}
       end)
    (transactions st)
    {| totalCredits := Num.zero; totalDebits := Num.zero |}.

End Savings.

(** ** Vocabulary of the further properties *)

(** A number that [JSON.stringify] and [JSON.parse] give back as it is:
    finite, and not the negative zero. *)
Definition jsonSafe (x : Num.number) : bool :=
  match x with
  | S754_zero s => negb s
  | S754_finite _ _ _ => true
  | S754_infinity _ | S754_nan => false
  end.

(** A state that the local cache gives back as it is. *)
Definition storable (s : BankState) : bool :=
  jsonSafe (balance s) && Num.nonneg (balance s)
  && forallb (fun t => jsonSafe (tx_amount t)) (transactions s).

(** The link of [uid] is the same in [w] and [w']. *)
Definition linkFrame (w w' : World) : Prop :=
  forall uid, texts (storage w') !! BillMate.linkedAccountStorageKey uid
              = texts (storage w) !! BillMate.linkedAccountStorageKey uid.

(** No link has been made between [w] and [w']: the link of a user is
    what it was or has been removed. *)
Definition linkShrink (w w' : World) : Prop :=
  forall uid,
    texts (storage w') !! BillMate.linkedAccountStorageKey uid
    = texts (storage w) !! BillMate.linkedAccountStorageKey uid
    \/ texts (storage w') !! BillMate.linkedAccountStorageKey uid = None.

(** A uid map as [getLocalUidMap] reads it: normalized account numbers
    mapped to strings that are not blank. *)
Definition uidMapNormal (m : gmap string string) : Prop :=
  forall k v, m !! k = Some v ->
              BillMate.normalizeAccountNumber k = k /\ nonBlankString (JStr v) = Some v.

(** * Properties *)

(** ** Binary64 arithmetic: signs and order *)

Section FloatSigns.
Variables prec emax : Z.

Lemma shr_1_nonneg mrs : 0 <= shr_m mrs -> 0 <= shr_m (shr_1 mrs).
Proof.
  destruct mrs as [m r s]; simpl. destruct m as [|p|p]; simpl; try lia.
  destruct p; simpl; lia.
Qed.

Lemma iter_shr_1_nonneg p :
  forall mrs, 0 <= shr_m mrs -> 0 <= shr_m (SpecFloat.iter_pos shr_1 p mrs).
Proof.
  induction p as [p IH|p IH|]; intros mrs H; simpl.
  - apply IH, IH, shr_1_nonneg, H.
  - apply IH, IH, H.
  - apply shr_1_nonneg, H.
Qed.

Lemma shr_nonneg mrs e n : 0 <= shr_m mrs -> 0 <= shr_m (fst (shr mrs e n)).
Proof.
  intros H. destruct n; simpl; trivial. by apply iter_shr_1_nonneg.
Qed.

Lemma shr_record_of_loc_m m l : shr_m (shr_record_of_loc m l) = m.
Proof. destruct l as [|[]]; reflexivity. Qed.

Lemma shr_fexp_nonneg m e l :
  0 <= m -> 0 <= shr_m (fst (shr_fexp prec emax m e l)).
Proof.
  intros H. unfold shr_fexp. apply shr_nonneg. by rewrite shr_record_of_loc_m.
Qed.

Lemma round_nearest_even_nonneg m l : 0 <= m -> 0 <= round_nearest_even m l.
Proof.
  intros H. destruct l as [|[]]; simpl; try lia. destruct (Z.even m); lia.
Qed.

Lemma binary_round_aux_signed s m e l :
  0 <= m -> signed s (binary_round_aux prec emax s m e l).
Proof.
  intros H. unfold binary_round_aux.
  pose proof (shr_fexp_nonneg m e l H) as H1.
  destruct (shr_fexp prec emax m e l) as [mrs' e']; simpl in H1.
  pose proof (shr_fexp_nonneg _ e' loc_Exact
                (round_nearest_even_nonneg _ (loc_of_shr_record mrs') H1)) as H2.
  destruct (shr_fexp prec emax _ e' loc_Exact) as [mrs'' e'']; simpl in H2.
  destruct (shr_m mrs'') as [|p|p]; simpl; try done; try lia.
  by destruct (_ <=? _).
Qed.

Lemma binary_round_signed s m e : signed s (binary_round prec emax s m e).
Proof.
  unfold binary_round. destruct (shl_align _ _ _) as [mz ez].
  apply binary_round_aux_signed. lia.
Qed.

Lemma binary_normalize_signed m e :
  0 <= m -> signed false (binary_normalize prec emax m e false).
Proof.
  intros H. destruct m as [|p|p]; simpl; [done| apply binary_round_signed | lia].
Qed.

Lemma pos_iter_xO m d : Zpos (Pos.iter xO m d) = Zpos m * 2 ^ Zpos d.
Proof.
  revert m. induction d using Pos.peano_ind; intros m.
  - simpl. lia.
  - rewrite Pos.iter_succ, Pos2Z.inj_xO, IHd, Pos2Z.inj_succ, Z.pow_succ_r by lia.
    lia.
Qed.

Lemma shl_align_fst m e e' :
  e' <= e -> Zpos (fst (shl_align m e e')) = Zpos m * 2 ^ (e - e').
Proof.
  intros H. unfold shl_align. destruct (e' - e) as [|d|d] eqn:E; simpl.
  - replace (e - e') with 0 by lia. lia.
  - lia.
  - rewrite pos_iter_xO. f_equal. f_equal. lia.
Qed.

Lemma digits2_pos_bounds m :
  2 ^ (Zpos (digits2_pos m) - 1) <= Zpos m < 2 ^ Zpos (digits2_pos m).
Proof.
  induction m as [m IH|m IH|]; simpl digits2_pos.
  - rewrite Pos2Z.inj_succ.
    replace (Z.succ (Z.pos (digits2_pos m)) - 1)
      with (Z.succ (Z.pos (digits2_pos m) - 1)) by lia.
    rewrite !Z.pow_succ_r by lia. lia.
  - rewrite Pos2Z.inj_succ.
    replace (Z.succ (Z.pos (digits2_pos m)) - 1)
      with (Z.succ (Z.pos (digits2_pos m) - 1)) by lia.
    rewrite !Z.pow_succ_r by lia. lia.
  - simpl. lia.
Qed.

End FloatSigns.

Lemma signed_nonneg x : signed false x -> Num.nonneg x = true.
Proof. destruct x as [s|s| |s m e]; simpl; intros H; try done; by subst. Qed.

Lemma nonneg_cases x :
  Num.nonneg x = true ->
  (exists s, x = S754_zero s) \/ x = S754_infinity false
  \/ exists m e, x = S754_finite false m e.
Proof.
  destruct x as [s|[]| |[] m e]; cbn; intros H; try discriminate; eauto.
Qed.

(** A finite number that is not [<= 0] is a positive finite number. *)
Lemma positive_finite a :
  Num.isFinite a = true -> Num.leb a Num.zero = false ->
  exists m e, a = S754_finite false m e.
Proof.
  destruct a as [s|s| |[] m e]; cbn; intros H1 H2; try discriminate; eauto.
Qed.

Lemma ltb_zero_not_leb a :
  Num.ltb Num.zero a = true -> Num.leb a Num.zero = false.
Proof. destruct a as [s|[]| |[] m e]; cbn; intros H; done. Qed.

(** In two canonical positive finite numbers, [b >= a] is the order of
    the aligned mantissas. *)
Lemma aligned_order mb eb ma ea :
  bounded Num.prec Num.emax mb eb = true ->
  bounded Num.prec Num.emax ma ea = true ->
  Num.ltb (S754_finite false mb eb) (S754_finite false ma ea) = false ->
  Zpos (fst (shl_align ma ea (Z.min eb ea))) <= Zpos (fst (shl_align mb eb (Z.min eb ea))).
Proof.
  unfold bounded, canonical_mantissa, fexp, emin, Num.prec, Num.emax.
  intros Hb Ha Hlt.
  apply andb_prop in Hb as [Hb _]. apply andb_prop in Ha as [Ha _].
  apply Z.eqb_eq in Hb, Ha.
  unfold Num.ltb, SFltb, SFcompare in Hlt.
  rewrite !shl_align_fst by lia.
  destruct (eb ?= ea) eqn:E.
  - apply Z.compare_eq in E. subst ea.
    rewrite Z.min_id, Z.sub_diag. simpl (2 ^ 0). rewrite !Z.mul_1_r.
    destruct (Pos.compare_cont Eq mb ma) eqn:C; try discriminate.
    + apply Pos.compare_eq in C. subst. lia.
    + change (Pos.compare mb ma = Gt) in C. apply Pos.compare_gt_iff in C. lia.
  - discriminate.
  - apply Z.compare_gt_iff in E.
    rewrite Z.min_r by lia. rewrite Z.sub_diag. simpl (2 ^ 0). rewrite Z.mul_1_r.
    pose proof (digits2_pos_bounds mb) as [Lb _].
    pose proof (digits2_pos_bounds ma) as [_ Ua].
    assert (Z.pos (digits2_pos mb) = 53) as Db by lia.
    assert (Z.pos (digits2_pos ma) <= 53) as Da by lia.
    rewrite Db in Lb. simpl (53 - 1) in Lb.
    assert (2 ^ Z.pos (digits2_pos ma) <= 2 ^ 53) by (apply Z.pow_le_mono_r; lia).
    assert (2 ^ 1 <= 2 ^ (eb - ea)) by (apply Z.pow_le_mono_r; lia).
    change (2 ^ 1) with 2 in *. change (2 ^ 53) with (2 * 2 ^ 52) in *.
    nia.
Qed.

(** [previous.balance + amount] is not negative when the balance is not
    and the amount is a positive finite number. *)
Lemma add_nonneg b a :
  Num.nonneg b = true -> Num.isFinite a = true -> Num.leb a Num.zero = false ->
  Num.nonneg (Num.add b a) = true.
Proof.
  intros Hb Hf Ha.
  destruct (positive_finite a Hf Ha) as (ma & ea & ->).
  destruct (nonneg_cases b Hb) as [[s ->]|[->|(mb & eb & ->)]]; try done.
  apply signed_nonneg. unfold Num.add, SFadd.
  apply binary_normalize_signed. simpl. lia.
Qed.

(** [previous.balance - amount] is not negative when the guard
    [previous.balance < amount] has failed. *)
Lemma sub_nonneg b a :
  Num.valid b = true -> Num.valid a = true ->
  Num.nonneg b = true -> Num.isFinite a = true -> Num.leb a Num.zero = false ->
  Num.ltb b a = false ->
  Num.nonneg (Num.sub b a) = true.
Proof.
  intros Vb Va Hb Hf Ha Hlt.
  destruct (positive_finite a Hf Ha) as (ma & ea & ->).
  destruct (nonneg_cases b Hb) as [[s ->]|[->|(mb & eb & ->)]]; try done.
  apply signed_nonneg. unfold Num.sub, SFsub.
  apply binary_normalize_signed. simpl.
  pose proof (aligned_order mb eb ma ea Vb Va Hlt). lia.
Qed.

Lemma compare_cont_antisym p q :
  Pos.compare_cont Eq q p = CompOpp (Pos.compare_cont Eq p q).
Proof. apply Pos.compare_antisym. Qed.

(** [a <= b] makes the guard [b < a] fail. *)
Lemma leb_not_ltb a b : Num.leb a b = true -> Num.ltb b a = false.
Proof.
  unfold Num.leb, Num.ltb, SFleb, SFltb.
  destruct a as [[]|[]| |[] ma ea], b as [[]|[]| |[] mb eb]; simpl; try done.
  - rewrite (Z.compare_antisym eb ea), (compare_cont_antisym mb ma).
    destruct (eb ?= ea); simpl; try done.
    by destruct (Pos.compare_cont Eq mb ma).
  - rewrite (Z.compare_antisym eb ea), (compare_cont_antisym mb ma).
    destruct (eb ?= ea); simpl; try done.
    by destruct (Pos.compare_cont Eq mb ma).
Qed.

(** [Math.max(0, b)] of a finite [b]. *)
Lemma max_zero_finite b :
  Num.isFinite b = true ->
  Num.isFinite (Num.max Num.zero b) = true
  /\ Num.nonneg (Num.max Num.zero b) = true
  /\ Num.max Num.zero (Num.max Num.zero b) = Num.max Num.zero b.
Proof. destruct b as [s|s| |[] m e]; cbn; intros H; try discriminate; done. Qed.

Lemma max_zero_valid b : Num.valid b = true -> Num.valid (Num.max Num.zero b) = true.
Proof. destruct b as [s|[]| |[] m e]; cbn; intros H; done. Qed.

(** ** The state normalizer *)

Lemma normalizeState_balance x :
  Num.isFinite (balance (normalizeState x)) = true
  /\ Num.nonneg (balance (normalizeState x)) = true.
Proof.
  unfold normalizeState. destruct (negb (JS.isObject x)); [done|]. simpl.
  destruct (JS.getProp x "balance") as [| | |b| | |]; try done.
  destruct (Num.isFinite b) eqn:F; [|done].
  by destruct (max_zero_finite b F) as (? & ? & _).
Qed.

Lemma normalizeTransaction_finite item t :
  normalizeTransaction item = Some t -> Num.isFinite (tx_amount t) = true.
Proof.
  unfold normalizeTransaction. destruct (negb (JS.isObject item)); [done|].
  destruct (JS.getProp item "id"); try done.
  destruct (parseType _); try done.
  destruct (JS.getProp item "amount") as [| | |a| | |]; try done.
  destruct (JS.getProp item "note"); try done.
  destruct (JS.getProp item "createdAt"); try done.
  destruct (Num.isFinite a) eqn:F; [|done].
  by intros [= <-].
Qed.

Lemma normalizeTransactions_finite items :
  forallb (fun t => Num.isFinite (tx_amount t)) (omap normalizeTransaction items) = true.
Proof.
  induction items as [|item items IH]; [done|].
  change (forallb (fun t => Num.isFinite (tx_amount t))
            match normalizeTransaction item with
            | Some y => y :: omap normalizeTransaction items
            | None => omap normalizeTransaction items
            end = true).
  destruct (normalizeTransaction item) as [t|] eqn:E; [|done]. simpl.
  by rewrite (normalizeTransaction_finite _ _ E).
Qed.

Lemma normalizeState_wellFormed x : wellFormed (normalizeState x) = true.
Proof.
  unfold wellFormed. destruct (normalizeState_balance x) as [-> ->]. simpl.
  unfold normalizeState. destruct (negb (JS.isObject x)); [done|]. simpl.
  destruct (JS.getProp x "transactions"); try done.
  apply normalizeTransactions_finite.
Qed.

Lemma parseType_typeName t : parseType (JStr (typeName t)) = Some t.
Proof. by destruct t. Qed.

Lemma normalizeTransaction_value t :
  Num.isFinite (tx_amount t) = true ->
  normalizeTransaction (transactionValue t) = Some t.
Proof.
  intros F. destruct t as [i ty a n c]. simpl in F.
  unfold normalizeTransaction, transactionValue. cbn -[parseType typeName].
  rewrite parseType_typeName. cbn. by rewrite F.
Qed.

Lemma normalizeTransactions_values txs :
  forallb (fun t => Num.isFinite (tx_amount t)) txs = true ->
  omap normalizeTransaction (map transactionValue txs) = txs.
Proof.
  induction txs as [|t txs IH]; [done|]. intros H.
  apply andb_prop in H as [F H].
  change (match normalizeTransaction (transactionValue t) with
          | Some y => y :: omap normalizeTransaction (map transactionValue txs)
          | None => omap normalizeTransaction (map transactionValue txs)
          end = t :: txs).
  by rewrite (normalizeTransaction_value t F), (IH H).
Qed.

(** A well-formed state whose balance is its own clamp is a fixed point
    of the normalizer. *)
Lemma normalizeState_stateValue s :
  wellFormed s = true -> Num.max Num.zero (balance s) = balance s ->
  normalizeState (stateValue s) = s.
Proof.
  unfold wellFormed. intros H Hmax.
  apply andb_prop in H as [H Ftx]. apply andb_prop in H as [F _].
  destruct s as [b txs]. simpl in *.
  unfold normalizeState, stateValue. cbn.
  by rewrite F, Hmax, (normalizeTransactions_values txs Ftx).
Qed.

Lemma normalizeState_clamped x :
  Num.max Num.zero (balance (normalizeState x)) = balance (normalizeState x).
Proof.
  unfold normalizeState. destruct (negb (JS.isObject x)); [done|]. simpl.
  destruct (JS.getProp x "balance") as [| | |b| | |]; try done.
  destruct (Num.isFinite b) eqn:F; [|done].
  by destruct (max_zero_finite b F) as (_ & _ & ?).
Qed.

Lemma normalizeState_idempotent x :
  normalizeState (stateValue (normalizeState x)) = normalizeState x.
Proof.
  apply normalizeState_stateValue;
    [apply normalizeState_wellFormed | apply normalizeState_clamped].
Qed.

Lemma normalizeState_default :
  normalizeState (stateValue defaultBankState) = defaultBankState.
Proof. reflexivity. Qed.

(** C5, as the code has it: [normalizeState] is defined on every value
    and returns a state with a finite balance that is not negative and
    with entries of finite amounts, whose sign it does not look at; it is
    idempotent; it sends [null], an array and an object without a list of
    transactions to the empty ledger. *)
Theorem normalizeState_total_idempotent :
  (forall x, exists s, normalizeState x = s /\ wellFormed s = true)
  /\ (forall x, normalizeState (stateValue (normalizeState x)) = normalizeState x)
  /\ normalizeState JNull = {| balance := Num.zero; transactions := [] |}
  /\ normalizeState (JArr []) = defaultBankState
  /\ normalizeState (JObj [("balance", JStr "12")]) = defaultBankState.
Proof.
  split; [|split; [|split; [|split]]]; try reflexivity.
  - intros x. exists (normalizeState x). split; [done|apply normalizeState_wellFormed].
  - apply normalizeState_idempotent.
Qed.

(** An entry of a negative amount goes through [normalizeState] as it
    is. *)
Lemma negative_amount_counterexample :
  normalizeState Scenario.refund
  = {| balance := Num.ofZ 5;
       transactions :=
         [{| tx_id := "tx-1"; tx_type := credit; tx_amount := Num.ofZ (-3);
             tx_note := "Refund"; tx_createdAt := "2023-11-14T22:13:20.001Z" |}] |}
  /\ Num.nonneg (Num.ofZ (-3)) = false
  /\ validLedgerState (normalizeState Scenario.refund) = false.
Proof. split; [reflexivity|]. split; reflexivity. Qed.

(** ** Reasoning about asynchronous functions *)

Lemma safe_ret {A} (a : A) : safe (ret a).
Proof. intros w. by exists a, w. Qed.

Lemma safe_bind {A B} (m : M A) (k : A -> M B) :
  safe m -> (forall a, safe (k a)) -> safe (bind m k).
Proof.
  intros Hm Hk w. destruct (Hm w) as (a & w1 & E).
  destruct (Hk a w1) as (b & w2 & E'). exists b, w2.
  unfold bind. by rewrite E.
Qed.

Lemma safe_tryCatch {A} (m : M A) (h : Exn -> M A) :
  (forall e, safe (h e)) -> safe (tryCatch m h).
Proof.
  intros Hh w. unfold tryCatch. destruct (m w) as [a w1|e w1]; [by exists a, w1|].
  apply Hh.
Qed.

Lemma safe_read {A} (f : World -> A) : safe (fun w => Returned (f w) w).
Proof. intros w. by eexists _, _. Qed.

Lemma safe_tryCatch_l {A} (m : M A) (h : Exn -> M A) :
  safe m -> safe (tryCatch m h).
Proof.
  intros Hm w. unfold tryCatch. destruct (Hm w) as (a & w1 & ->). by exists a, w1.
Qed.

Section Preservation.
Variable R : World -> World -> Prop.
Hypothesis R_refl : forall w, R w w.
Hypothesis R_trans : forall w1 w2 w3, R w1 w2 -> R w2 w3 -> R w1 w3.

Lemma preserves_ret {A} (a : A) : preserves R (ret a).
Proof using R_refl. intros w. apply R_refl. Qed.

Lemma preserves_throw {A} e : preserves R (throw (A:=A) e).
Proof using R_refl. intros w. apply R_refl. Qed.

Lemma preserves_bind {A B} (m : M A) (k : A -> M B) :
  preserves R m -> (forall a, preserves R (k a)) -> preserves R (bind m k).
Proof using R_trans.
  intros Hm Hk w. specialize (Hm w). unfold bind.
  destruct (m w) as [a w1|e w1]; simpl in *; [|done].
  eapply R_trans; [exact Hm|apply Hk].
Qed.

Lemma preserves_tryCatch {A} (m : M A) (h : Exn -> M A) :
  preserves R m -> (forall e, preserves R (h e)) -> preserves R (tryCatch m h).
Proof using R_trans.
  intros Hm Hh w. specialize (Hm w). unfold tryCatch.
  destruct (m w) as [a w1|e w1]; simpl in *; [done|].
  eapply R_trans; [exact Hm|apply Hh].
Qed.

(** A computation that only reads the world. *)
Lemma preserves_read {A} (f : World -> A) :
  preserves R (fun w => Returned (f w) w).
Proof using R_refl. intros w. apply R_refl. Qed.

End Preservation.

Lemma preserves_returned {A} R (m : M A) w a w' :
  preserves R m -> m w = Returned a w' -> R w w'.
Proof. intros H E. specialize (H w). by rewrite E in H. Qed.

Lemma preserves_thrown {A} R (m : M A) w e w' :
  preserves R m -> m w = Thrown e w' -> R w w'.
Proof. intros H E. specialize (H w). by rewrite E in H. Qed.

Create HintDb preserve.
Create HintDb safe.

Lemma bind_returned {A B} (m : M A) (k : A -> M B) w a w1 :
  m w = Returned a w1 -> bind m k w = k a w1.
Proof. intros E. unfold bind. by rewrite E. Qed.

Lemma bind_thrown {A B} (m : M A) (k : A -> M B) w e w1 :
  m w = Thrown e w1 -> bind m k w = Thrown e w1.
Proof. intros E. unfold bind. by rewrite E. Qed.

Lemma tryCatch_returned {A} (m : M A) h w a w1 :
  m w = Returned a w1 -> tryCatch m h w = Returned a w1.
Proof. intros E. unfold tryCatch. by rewrite E. Qed.

Lemma tryCatch_thrown {A} (m : M A) h w e w1 :
  m w = Thrown e w1 -> tryCatch m h w = h e w1.
Proof. intros E. unfold tryCatch. by rewrite E. Qed.

(** Walks through the sequential structure of an asynchronous function. *)
Ltac walk refl trans :=
  repeat first
    [ solve [eauto with nocore preserve]
    | apply (preserves_ret _ refl)
    | apply (preserves_throw _ refl)
    | apply (preserves_read _ refl)
    | apply (preserves_bind _ trans); [|intros ?]
    | apply (preserves_tryCatch _ trans); [|intros ?]
    | match goal with
      | |- preserves _ (if ?b then _ else _) => destruct b
      | |- preserves _ (match ?x with _ => _ end) => destruct x
      | |- preserves _ (let _ := _ in _) => cbv zeta
      end
    | solve [eauto with nocore preserve] ].

Ltac walk_safe :=
  repeat first
    [ solve [eauto with nocore safe]
    | apply safe_ret
    | apply safe_bind; [|intros ?]
    | apply safe_tryCatch; intros ?
    | apply safe_read
    | match goal with
      | |- safe (if ?b then _ else _) => destruct b
      | |- safe (match ?x with _ => _ end) => destruct x
      | |- safe (let _ := _ in _) => cbv zeta
      end
    | solve [eauto with nocore safe] ].

(** *** The collaborators that never reject *)

Lemma safe_getItem k : safe (AsyncStorageApi.getItem k).
Proof. apply safe_read. Qed.
Lemma safe_getJSON k : safe (AsyncStorageApi.getJSON k).
Proof. apply safe_read. Qed.
Lemma safe_setItem k v : safe (AsyncStorageApi.setItem k v).
Proof. intros w. by eexists _, _. Qed.
Lemma safe_removeItem k : safe (AsyncStorageApi.removeItem k).
Proof. intros w. by eexists _, _. Qed.
Lemma safe_setJSON k v : safe (AsyncStorageApi.setJSON k v).
Proof. intros w. by eexists _, _. Qed.
Lemma safe_dateNow : safe dateNow.
Proof. intros w. by eexists _, _. Qed.
Lemma safe_newDateISO : safe newDateISO.
Proof. intros w. by eexists _, _. Qed.
Lemma safe_randomFourDigits : safe randomFourDigits.
Proof. intros w. by eexists _, _. Qed.
Lemma safe_generateAccountNumber : safe generateAccountNumber.
Proof.
  unfold generateAccountNumber.
  apply safe_bind; [apply safe_dateNow|intros now]. cbv zeta.
  apply safe_bind; [apply safe_randomFourDigits|intros r]. apply safe_ret.
Qed.

#[export] Hint Resolve safe_getItem safe_getJSON safe_setItem safe_removeItem
  safe_setJSON safe_dateNow safe_newDateISO safe_randomFourDigits
  safe_generateAccountNumber : safe.

(** *** Legacy *)

Lemma Legacy_getBankState_safe : safe Legacy.getBankState.
Proof. unfold Legacy.getBankState. apply safe_tryCatch_l. walk_safe. Qed.

(** *** BillMate *)

Lemma BillMate_getLocalUidMap_safe : safe BillMate.getLocalUidMap.
Proof. unfold BillMate.getLocalUidMap. apply safe_tryCatch. intros ?. apply safe_ret. Qed.
#[export] Hint Resolve BillMate_getLocalUidMap_safe : safe.

Lemma BillMate_saveLocalUidMap_safe m : safe (BillMate.saveLocalUidMap m).
Proof. apply safe_setJSON. Qed.
#[export] Hint Resolve BillMate_saveLocalUidMap_safe : safe.

Lemma BillMate_saveLocalBankState_safe k s : safe (BillMate.saveLocalBankState k s).
Proof. apply safe_setJSON. Qed.
#[export] Hint Resolve BillMate_saveLocalBankState_safe : safe.

Lemma BillMate_registerLocalAccountMapping_safe a u :
  safe (BillMate.registerLocalAccountMapping a u).
Proof. unfold BillMate.registerLocalAccountMapping. walk_safe. Qed.
#[export] Hint Resolve BillMate_registerLocalAccountMapping_safe : safe.

Lemma BillMate_getLocalUidByAccountNumber_safe a :
  safe (BillMate.getLocalUidByAccountNumber a).
Proof. unfold BillMate.getLocalUidByAccountNumber. walk_safe. Qed.
#[export] Hint Resolve BillMate_getLocalUidByAccountNumber_safe : safe.

Lemma BillMate_pickLocalCandidate_safe n u m : safe (BillMate.pickLocalCandidate n u m).
Proof. induction n as [|n IH]; simpl; walk_safe. Qed.
#[export] Hint Resolve BillMate_pickLocalCandidate_safe : safe.

Lemma BillMate_getOrCreateLocalAccountNumber_safe u :
  safe (BillMate.getOrCreateLocalAccountNumber u).
Proof. unfold BillMate.getOrCreateLocalAccountNumber. walk_safe. Qed.
#[export] Hint Resolve BillMate_getOrCreateLocalAccountNumber_safe : safe.

Lemma BillMate_persistStateForOwner_safe c s : safe (BillMate.persistStateForOwner c s).
Proof. unfold BillMate.persistStateForOwner. walk_safe. Qed.
#[export] Hint Resolve BillMate_persistStateForOwner_safe : safe.

Lemma BillMate_getUidByAccountNumber_safe a : safe (BillMate.getUidByAccountNumber a).
Proof.
  unfold BillMate.getUidByAccountNumber, BillMate.isFirebaseConfigured.
  walk_safe.
Qed.
#[export] Hint Resolve BillMate_getUidByAccountNumber_safe : safe.

Lemma BillMate_getLocalBankState_safe k : safe (BillMate.getLocalBankState k).
Proof. unfold BillMate.getLocalBankState. walk_safe. Qed.
#[export] Hint Resolve BillMate_getLocalBankState_safe : safe.

Lemma BillMate_reserveLoop_safe n u : safe (BillMate.reserveLoop n u).
Proof.
  induction n as [|n IH]; simpl; walk_safe.
Qed.
#[export] Hint Resolve BillMate_reserveLoop_safe : safe.

Lemma BillMate_ensureBankAccountForUser_safe u : safe (BillMate.ensureBankAccountForUser u).
Proof.
  unfold BillMate.ensureBankAccountForUser, BillMate.isFirebaseConfigured.
  walk_safe.
Qed.
#[export] Hint Resolve BillMate_ensureBankAccountForUser_safe : safe.

Lemma BillMate_resolveBankOwnerContext_safe : safe BillMate.resolveBankOwnerContext.
Proof.
  unfold BillMate.resolveBankOwnerContext, BillMate.isFirebaseConfigured,
    BillMate.currentUserUid.
  walk_safe.
Qed.
#[export] Hint Resolve BillMate_resolveBankOwnerContext_safe : safe.

Lemma BillMate_getBankState_safe : safe BillMate.getBankState.
Proof. unfold BillMate.getBankState. walk_safe. Qed.
#[export] Hint Resolve BillMate_getBankState_safe : safe.

(** *** BankApp *)

Lemma BankApp_getLocalBankState_safe u : safe (BankApp.getLocalBankState u).
Proof. unfold BankApp.getLocalBankState. walk_safe. Qed.
#[export] Hint Resolve BankApp_getLocalBankState_safe : safe.

Lemma BankApp_saveLocalBankState_safe u s : safe (BankApp.saveLocalBankState u s).
Proof. apply safe_setJSON. Qed.
#[export] Hint Resolve BankApp_saveLocalBankState_safe : safe.

Lemma BankApp_saveCloudBankState_safe u s : safe (BankApp.saveCloudBankState u s).
Proof.
  unfold BankApp.saveCloudBankState, BankApp.isFirebaseReady.
  walk_safe.
Qed.
#[export] Hint Resolve BankApp_saveCloudBankState_safe : safe.

Lemma BankApp_getUidByAccountNumber_safe a : safe (BankApp.getUidByAccountNumber a).
Proof.
  unfold BankApp.getUidByAccountNumber, BankApp.isFirebaseReady.
  walk_safe.
Qed.
#[export] Hint Resolve BankApp_getUidByAccountNumber_safe : safe.

Lemma BankApp_getBankState_safe : safe BankApp.getBankState.
Proof.
  unfold BankApp.getBankState, BankApp.isFirebaseReady, BankApp.currentUserUid.
  walk_safe.
Qed.
#[export] Hint Resolve BankApp_getBankState_safe : safe.

Lemma BankApp_persistTransfer_safe s r sn rn a t :
  safe (BankApp.persistTransfer s r sn rn a t).
Proof. unfold BankApp.persistTransfer. walk_safe. Qed.

(** *** What a function returns *)

Lemma returns_ret {A} (P : A -> Prop) a : P a -> returns P (ret a).
Proof. intros H w b w' [= <- _]. exact H. Qed.

Lemma returns_bind {A B} (P : B -> Prop) (m : M A) (k : A -> M B) :
  (forall a, returns P (k a)) -> returns P (bind m k).
Proof.
  intros Hk w b w'. unfold bind. destruct (m w) as [a w1|e w1]; [|done].
  apply Hk.
Qed.

Lemma returns_tryCatch {A} (P : A -> Prop) (m : M A) h :
  returns P m -> (forall e, returns P (h e)) -> returns P (tryCatch m h).
Proof.
  intros Hm Hh w b w'. unfold tryCatch.
  destruct (m w) as [a w1|e w1] eqn:E.
  - intros [= <- <-]. by eapply Hm.
  - apply Hh.
Qed.

Create HintDb returns.

Ltac walk_returns :=
  repeat first
    [ solve [eauto with nocore returns]
    | apply returns_ret
    | apply returns_bind; intros ?
    | apply returns_tryCatch; [|intros ?]
    | match goal with
      | |- returns _ (if ?b then _ else _) => destruct b
      | |- returns _ (match ?x with _ => _ end) => destruct x
      | |- returns _ (let _ := _ in _) => cbv zeta
      end ].

(** *** Stepping through a run *)

Lemma bind_ret {A B} (a : A) (k : A -> M B) w : bind (ret a) k w = k a w.
Proof. reflexivity. Qed.

Lemma bind_dateNow {B} (k : N -> M B) w :
  bind dateNow k w = k (clock w (clockReads w)) (tickClock w).
Proof. reflexivity. Qed.

Lemma bind_newDateISO {B} (k : string -> M B) w :
  bind newDateISO k w = k (JSDate.toISOString (clock w (clockReads w))) (tickClock w).
Proof. reflexivity. Qed.

Lemma bind_safe_ret {A B} (m : M A) (b : B) w :
  safe m -> exists w', bind m (fun _ => ret b) w = Returned b w'.
Proof.
  intros H. destruct (H w) as (a & w' & E). exists w'.
  by rewrite (bind_returned _ _ _ _ _ E).
Qed.

Lemma bind_inv {A B} (m : M A) (k : A -> M B) w b w' :
  bind m k w = Returned b w' ->
  exists a w1, m w = Returned a w1 /\ k a w1 = Returned b w'.
Proof.
  unfold bind. destruct (m w) as [a w1|e w1]; [|done]. intros H. by exists a, w1.
Qed.

Lemma safeAmountOf_finite a : Num.isFinite a = true -> safeAmountOf a = a.
Proof. unfold safeAmountOf. by intros ->. Qed.

Lemma safeAmountOf_invalid a :
  Num.isFinite a = false -> Num.leb (safeAmountOf a) Num.zero = true.
Proof. unfold safeAmountOf. by intros ->. Qed.

Lemma safeAmountOf_positive a :
  Num.leb (safeAmountOf a) Num.zero = false ->
  Num.isFinite a = true /\ safeAmountOf a = a /\ Num.leb a Num.zero = false.
Proof. unfold safeAmountOf. destruct (Num.isFinite a); [done|]. by cbn. Qed.

(** An amount above a balance that is not negative is positive. *)
Lemma above_nonneg_positive b a :
  Num.nonneg b = true -> Num.ltb b a = true -> Num.leb a Num.zero = false.
Proof.
  intros Hb. destruct (nonneg_cases b Hb) as [[s ->]|[->|(mb & eb & ->)]];
    destruct a as [sa|[]| |[] ma ea]; cbn; try done.
Qed.

(** *** The states that are read *)

Lemma clamped_default : clamped defaultBankState.
Proof. reflexivity. Qed.

Lemma clamped_normalizeState x : clamped (normalizeState x).
Proof. apply normalizeState_wellFormed. Qed.

Lemma clamped_nonneg s : clamped s -> Num.nonneg (balance s) = true.
Proof.
  unfold clamped, wellFormed. intros H.
  apply andb_prop in H as [H _]. by apply andb_prop in H as [_ H].
Qed.

#[export] Hint Resolve clamped_default clamped_normalizeState : core.

Lemma Legacy_getBankState_clamped : returns clamped Legacy.getBankState.
Proof. unfold Legacy.getBankState. walk_returns; auto. Qed.

Lemma BillMate_getLocalBankState_clamped k : returns clamped (BillMate.getLocalBankState k).
Proof. unfold BillMate.getLocalBankState. walk_returns; auto. Qed.
#[export] Hint Resolve BillMate_getLocalBankState_clamped : returns.

Lemma BillMate_ensureCloudBankDoc_clamped u : returns clamped (BillMate.ensureCloudBankDoc u).
Proof.
  unfold BillMate.ensureCloudBankDoc. apply returns_bind. intros snap.
  destruct snap as [d|]; [destruct (BillMate.hasBankState (bankState d))|];
    walk_returns; auto.
Qed.

#[export] Hint Resolve BillMate_ensureCloudBankDoc_clamped : returns.

Lemma BillMate_getBankState_clamped : returns clamped BillMate.getBankState.
Proof. unfold BillMate.getBankState. walk_returns. Qed.

Lemma BankApp_getLocalBankState_clamped u : returns clamped (BankApp.getLocalBankState u).
Proof. unfold BankApp.getLocalBankState. walk_returns; auto. Qed.

Lemma BankApp_getBankState_clamped : returns clamped BankApp.getBankState.
Proof.
  unfold BankApp.getBankState. apply returns_bind. intros cu.
  destruct (negb (truthyOpt cu)); [walk_returns; auto|].
  apply returns_bind. intros ready. destruct (negb ready);
    [apply BankApp_getLocalBankState_clamped|].
  apply returns_tryCatch; [|intros; apply BankApp_getLocalBankState_clamped].
  apply returns_bind. intros snap.
  destruct snap as [d|]; [destruct (BankApp.hasBankState (bankState d))|];
    walk_returns; auto.
Qed.

(** *** Credit *)

Lemma Legacy_addVirtualMoney_credit w a n prev w1 :
  Legacy.getBankState w = Returned prev w1 ->
  Num.isFinite a = true -> Num.leb a Num.zero = false ->
  exists i c w',
    Legacy.addVirtualMoney a n w = Returned (creditedState prev a i n c) w'.
Proof.
  intros E F P. unfold Legacy.addVirtualMoney.
  rewrite (safeAmountOf_finite a F), P.
  rewrite (bind_returned _ _ _ _ _ E).
  eexists _, _, _. reflexivity.
Qed.

Lemma BillMate_addVirtualMoney_credit w a n ctx w1 prev w2 :
  BillMate.resolveBankOwnerContext w = Returned ctx w1 ->
  BillMate.getBankState w1 = Returned prev w2 ->
  Num.isFinite a = true -> Num.leb a Num.zero = false ->
  exists i c w',
    BillMate.addVirtualMoney a n w = Returned (creditedState prev a i n c) w'.
Proof.
  intros E1 E2 F P. unfold BillMate.addVirtualMoney.
  rewrite (safeAmountOf_finite a F), P.
  rewrite (bind_returned _ _ _ _ _ E1), (bind_returned _ _ _ _ _ E2).
  rewrite bind_dateNow, bind_newDateISO. cbv zeta.
  eexists _, _. apply bind_safe_ret, BillMate_persistStateForOwner_safe.
Qed.

Lemma BankApp_addVirtualMoney_credit w uid a n acct w1 prev w2 :
  firebaseConfigured w = true -> authUid w = Some uid -> Str.truthy uid = true ->
  BankApp.ensureBankAccountForUser uid w = Returned acct w1 ->
  BankApp.getBankState w1 = Returned prev w2 ->
  Num.isFinite a = true -> Num.leb a Num.zero = false ->
  exists i c p w',
    BankApp.addVirtualMoney a n w
    = Returned {| BankApp.am_state := creditedState prev a i n c;
                  BankApp.persistedToCloud := p |} w'.
Proof.
  intros C U T E1 E2 F P. unfold BankApp.addVirtualMoney.
  unfold bind at 1. unfold BankApp.currentUserUid. rewrite C, U. simpl. rewrite T. simpl.
  unfold bind at 1. unfold BankApp.isFirebaseReady. rewrite C.
  rewrite (safeAmountOf_finite a F), P.
  rewrite (bind_returned _ _ _ _ _ E1), (bind_returned _ _ _ _ _ E2).
  rewrite bind_dateNow, bind_newDateISO. cbv zeta.
  set (next := creditedState prev a _ n _).
  set (W := tickClock (tickClock w2)).
  unfold tryCatch.
  destruct (bind (FirestoreApi.setUserBankState uid (stateValue next)) _ W)
    as [res w3|e w3] eqn:E3.
  - apply bind_inv in E3 as (? & w4 & _ & E3).
    apply bind_inv in E3 as (? & w5 & _ & E3).
    injection E3 as <- <-. by eexists _, _, _, _.
  - by eexists _, _, _, _.
Qed.

(** *** Debit *)

Lemma Legacy_tryDeduct_answer w a n prev w1 :
  Legacy.getBankState w = Returned prev w1 ->
  exists r w', Legacy.tryDeductVirtualMoney a n w = Returned r w'
               /\ debitAnswer prev a n r.
Proof.
  intros E. unfold Legacy.tryDeductVirtualMoney, debitAnswer.
  rewrite (bind_returned _ _ _ _ _ E).
  destruct (Num.leb (safeAmountOf a) Num.zero) eqn:P.
  { eexists _, _. split; [reflexivity|]. by left. }
  destruct (Num.ltb (balance prev) (safeAmountOf a)) eqn:L.
  { eexists _, _. split; [reflexivity|]. right; left. done. }
  eexists _, _. split; [reflexivity|]. right; right. eauto.
Qed.

Lemma BillMate_tryDeduct_answer w a n ctx w1 prev w2 :
  BillMate.resolveBankOwnerContext w = Returned ctx w1 ->
  BillMate.getBankState w1 = Returned prev w2 ->
  exists r w', BillMate.tryDeductVirtualMoney a n w = Returned r w'
               /\ debitAnswer prev a n r.
Proof.
  intros E1 E2. unfold BillMate.tryDeductVirtualMoney, debitAnswer.
  rewrite (bind_returned _ _ _ _ _ E1), (bind_returned _ _ _ _ _ E2).
  destruct (Num.leb (safeAmountOf a) Num.zero) eqn:P.
  { eexists _, _. split; [reflexivity|]. by left. }
  destruct (Num.ltb (balance prev) (safeAmountOf a)) eqn:L.
  { eexists _, _. split; [reflexivity|]. right; left. done. }
  rewrite bind_dateNow, bind_newDateISO. cbv zeta.
  match goal with
  | |- context [bind (BillMate.persistStateForOwner ?c ?s) _ ?W] =>
      destruct (bind_safe_ret (BillMate.persistStateForOwner c s)
                  {| ok := true; state := s; message := None |} W
                  (BillMate_persistStateForOwner_safe c s)) as (w' & Ew)
  end.
  eexists _, _. split; [exact Ew|]. right; right. eauto.
Qed.

Lemma debitAnswer_guard prev a n r :
  clamped prev -> debitAnswer prev a n r -> debitGuard prev a r.
Proof.
  intros Hc H. pose proof (clamped_nonneg prev Hc) as Hn.
  unfold debitGuard.
  destruct H as [[P ->]|[(P & L & ->)|(P & L & i & c & ->)]]; simpl.
  - repeat split; try done.
    intros F L. rewrite (safeAmountOf_finite a F) in P.
    by rewrite (above_nonneg_positive _ _ Hn L) in P.
  - destruct (safeAmountOf_positive a P) as (F & Ea & _). rewrite Ea in L.
    repeat split; try done. intros F'. by rewrite F in F'.
  - destruct (safeAmountOf_positive a P) as (F & Ea & P'). rewrite Ea in *.
    repeat split; try done.
    + intros _ L'. by rewrite L in L'.
    + intros F'. by rewrite F in F'.
    + intros Va Vb. by apply sub_nonneg.
Qed.

(** *** Transfers *)

Ltac inv_bind H x w E := apply bind_inv in H as (x & w & E & H).

Lemma BankApp_transfer_inv target a n w r w' :
  BankApp.transferToAccountByNumber target a n w = Returned r w' ->
  (exists st, clamped st /\ ok r = false /\ state r = st)
  \/ exists senderUid acct receiverUid senderState receiverState senderNext receiverNext,
       transferCommitted target a n w r w'
         senderUid acct receiverUid senderState receiverState senderNext receiverNext.
Proof.
  intros H. unfold BankApp.transferToAccountByNumber in H.
  inv_bind H cu w0 Ecu. unfold BankApp.currentUserUid in Ecu.
  injection Ecu as <- <-.
  destruct (firebaseConfigured w) eqn:C; [|simpl in H; injection H as <- <-; left; by exists defaultBankState].
  destruct (authUid w) as [senderUid|] eqn:U;
    [|simpl in H; injection H as <- <-; left; by exists defaultBankState].
  simpl in H. destruct (Str.truthy senderUid) eqn:Tr;
    [|simpl in H; injection H as <- <-; left; by exists defaultBankState].
  simpl in H.
  destruct (Str.matchesAccountPattern (Str.toUpperCase (Str.trim target))) eqn:V; simpl in H.
  2:{ inv_bind H st w1 E1. injection H as <- <-. left. exists st.
      split; [by eapply BankApp_getBankState_clamped|done]. }
  inv_bind H acct w1 E1.
  destruct (truthyOpt acct && _)%bool eqn:Self.
  { inv_bind H st w2 E2. injection H as <- <-. left. exists st.
    split; [by eapply BankApp_getBankState_clamped|done]. }
  inv_bind H st w2 E2.
  pose proof (BankApp_getBankState_clamped _ _ _ E2) as Hc.
  destruct (Num.leb (safeAmountOf a) Num.zero) eqn:P.
  { injection H as <- <-. left. by exists st. }
  destruct (safeAmountOf_positive a P) as (F & Ea & P'). rewrite Ea in *.
  destruct (Num.ltb (balance st) a) eqn:L.
  { injection H as <- <-. left. by exists st. }
  inv_bind H ru w3 E3.
  destruct (truthyOpt ru) eqn:Tru; simpl in H.
  2:{ injection H as <- <-. left. by exists st. }
  destruct ru as [receiverUid|]; [|done]. simpl in Tru, H.
  inv_bind H snap w4 E4.
  rewrite bind_dateNow, bind_newDateISO, bind_dateNow, bind_newDateISO in H.
  right. exists senderUid, acct, receiverUid, st. eexists _, _, _.
  unfold transferCommitted. eexists w1, w2, w3, snap, w4, _, _, _, _.
  repeat split; try eassumption; try reflexivity.
Qed.

(** The cloud write of one side. *)
Lemma BankApp_saveCloudBankState_cases u st W b W' :
  BankApp.saveCloudBankState u st W = Returned b W' ->
  (b = true /\ firebaseConfigured W = true
   /\ outage W (requests W) (SetDoc (UserDoc u)) = false
   /\ firestore W' = FirestoreApi.mergeBankState u (stateValue st) (firestore W)
   /\ storage W' = storage W /\ firebaseConfigured W' = firebaseConfigured W
   /\ outage W' = outage W /\ requests W' = S (requests W))
  \/ (b = false /\ firestore W' = firestore W /\ storage W' = storage W
      /\ firebaseConfigured W' = firebaseConfigured W /\ outage W' = outage W
      /\ (firebaseConfigured W = true ->
          outage W (requests W) (SetDoc (UserDoc u)) = true
          /\ requests W' = S (requests W))).
Proof.
  unfold BankApp.saveCloudBankState, BankApp.isFirebaseReady.
  unfold bind at 1. destruct (firebaseConfigured W) eqn:C; simpl.
  2:{ intros [= <- <-]. right. by rewrite C. }
  unfold tryCatch, bind, FirestoreApi.setUserBankState, FirestoreApi.request, bind.
  destruct (outage W (requests W) (SetDoc (UserDoc u))) eqn:O; simpl.
  - intros [= <- <-]. right. simpl. by rewrite C.
  - intros [= <- <-]. left. simpl. by rewrite C.
Qed.

Lemma mergeBankState_lookup u v fs :
  bankState <$> users (FirestoreApi.mergeBankState u v fs) !! u = Some v.
Proof. unfold FirestoreApi.mergeBankState. simpl. by rewrite lookup_insert_eq. Qed.

Lemma mergeBankState_lookup_ne u u' v fs :
  u <> u' ->
  users (FirestoreApi.mergeBankState u v fs) !! u' = users fs !! u'.
Proof. intros H. unfold FirestoreApi.mergeBankState. simpl. by rewrite lookup_insert_ne. Qed.

Lemma append_inj_r (p a b : string) : (p ++ a)%string = (p ++ b)%string -> a = b.
Proof. induction p as [|c p IH]; simpl; [done|]. intros [= H]. by apply IH. Qed.

Lemma BankApp_localBankKey_inj u u' :
  BankApp.localBankKey u = BankApp.localBankKey u' -> u = u'.
Proof. apply append_inj_r. Qed.

(** What the persist step leaves behind. *)
Lemma BankApp_persistTransfer_inv s r sn rn a T W res W' :
  BankApp.persistTransfer s r sn rn a T W = Returned res W' ->
  state res = sn
  /\ jsons (storage W') !! BankApp.localBankKey r = Some (stateJSON rn)
  /\ (s <> r -> jsons (storage W') !! BankApp.localBankKey s = Some (stateJSON sn))
  /\ (ok res = true ->
      message res = Some (Paid a T)
      /\ bankState <$> users (firestore W') !! r = Some (stateValue rn)
      /\ (s <> r -> bankState <$> users (firestore W') !! s = Some (stateValue sn)))
  /\ (ok res = false -> message res = Some PartialFailure).
Proof.
  intros H. unfold BankApp.persistTransfer in H.
  inv_bind H b1 W1 E1. inv_bind H b2 W2 E2.
  unfold BankApp.saveLocalBankState, AsyncStorageApi.setJSON in H.
  unfold bind in H. simpl in H.
  assert (jsons (storage W') !! BankApp.localBankKey r = Some (stateJSON rn)
          /\ (s <> r -> jsons (storage W') !! BankApp.localBankKey s = Some (stateJSON sn))
          /\ firestore W' = firestore W2) as (J1 & J2 & Fs).
  { destruct (negb b1 || negb b2); injection H as <- <-; simpl;
      rewrite lookup_insert_eq; (split; [done|]); (split; [|done]);
      intros Hne; rewrite lookup_insert_ne, lookup_insert_eq;
      try done; intros K; apply BankApp_localBankKey_inj in K; congruence. }
  destruct (BankApp_saveCloudBankState_cases _ _ _ _ _ E1)
    as [(-> & C1 & O1 & F1 & _)|(-> & F1 & _)];
  destruct (BankApp_saveCloudBankState_cases _ _ _ _ _ E2)
    as [(-> & C2 & O2 & F2 & _)|(-> & F2 & _)];
  simpl in H; injection H as <- <-; simpl in *; repeat split; try done.
  - rewrite F2. apply mergeBankState_lookup.
  - intros Hne. rewrite F2, mergeBankState_lookup_ne, F1 by done.
    apply mergeBankState_lookup.
Qed.

(** The persist step when the sender's write succeeds and the receiver's
    fails. *)
Lemma BankApp_persistTransfer_partial s r sn rn a T W :
  firebaseConfigured W = true ->
  outage W (requests W) (SetDoc (UserDoc s)) = false ->
  outage W (S (requests W)) (SetDoc (UserDoc r)) = true ->
  exists W',
    BankApp.persistTransfer s r sn rn a T W
    = Returned {| ok := false; message := Some PartialFailure; state := sn |} W'
    /\ bankState <$> users (firestore W') !! s = Some (stateValue sn)
    /\ (s <> r -> users (firestore W') !! r = users (firestore W) !! r).
Proof.
  intros C O1 O2.
  destruct (BankApp_saveCloudBankState_safe s sn W) as (b1 & W1 & E1).
  destruct (BankApp_saveCloudBankState_cases _ _ _ _ _ E1)
    as [(-> & _ & _ & F1 & S1 & C1 & Og1 & R1)|(-> & _ & _ & _ & _ & Hf)];
    [|destruct (Hf C) as [Hf' _]; congruence].
  destruct (BankApp_saveCloudBankState_safe r rn W1) as (b2 & W2 & E2).
  destruct (BankApp_saveCloudBankState_cases _ _ _ _ _ E2)
    as [(-> & _ & O2' & _)|(-> & F2 & _)];
    [rewrite Og1, R1 in O2'; congruence|].
  eexists. unfold BankApp.persistTransfer.
  rewrite (bind_returned _ _ _ _ _ E1), (bind_returned _ _ _ _ _ E2).
  split; [reflexivity|]. simpl. rewrite F2, F1. split.
  - apply mergeBankState_lookup.
  - intros Hne. by apply mergeBankState_lookup_ne.
Qed.

(** *** BillMate: payment *)

Lemma BillMate_localBankStorageKey_inj k k' :
  BillMate.localBankStorageKey k = BillMate.localBankStorageKey k' -> k = k'.
Proof. apply append_inj_r. Qed.

Lemma BillMate_persistStateForOwner_inv ctx st W u W' :
  BillMate.persistStateForOwner ctx st W = Returned u W' ->
  persistedAt ctx st W'
  /\ forall ctx0 st0, distinctOwners ctx0 ctx -> persistedAt ctx0 st0 W ->
                      persistedAt ctx0 st0 W'.
Proof.
  unfold BillMate.persistStateForOwner, BillMate.saveCloudBankState,
    BillMate.saveLocalBankState, AsyncStorageApi.setJSON,
    FirestoreApi.setUserBankState, FirestoreApi.request, tryCatch, bind,
    persistedAt, distinctOwners.
  destruct (truthyOpt (BillMate.cloudOwnerUid ctx)) eqn:Tc.
  - destruct (outage W (requests W) _); intros [= <- <-];
      cbn [firestore storage setFirestore setStorage countRequest jsons texts].
    + split; [right; by rewrite lookup_insert_eq|].
      intros ctx0 st0 [_ Hk] [H|H]; [by left|right].
      rewrite lookup_insert_ne; [done|].
      intros K. apply BillMate_localBankStorageKey_inj in K. congruence.
    + split; [left; split; [done|apply mergeBankState_lookup]|].
      intros ctx0 st0 [Hu _] [[T0 H]|H]; [left|by right].
      split; [done|]. by rewrite mergeBankState_lookup_ne.
  - intros [= <- <-]; simpl.
    split; [right; by rewrite lookup_insert_eq|].
    intros ctx0 st0 [_ Hk] [H|H]; [by left|right].
    rewrite lookup_insert_ne; [done|].
    intros K. apply BillMate_localBankStorageKey_inj in K. congruence.
Qed.

Lemma BillMate_persistPayment_inv pc rc pn rn a T W res W' :
  BillMate.persistPayment pc rc pn rn a T W = Returned res W' ->
  res = {| ok := true; state := pn; message := Some (Paid a T) |}
  /\ persistedAt rc rn W'
  /\ (distinctOwners pc rc -> persistedAt pc pn W').
Proof.
  intros H. unfold BillMate.persistPayment in H.
  inv_bind H u1 W1 E1. inv_bind H u2 W2 E2. injection H as <- <-.
  destruct (BillMate_persistStateForOwner_inv _ _ _ _ _ E1) as [P1 _].
  destruct (BillMate_persistStateForOwner_inv _ _ _ _ _ E2) as [P2 Fr].
  repeat split; [done|]. intros D. by apply Fr.
Qed.

(** [persistPayment] always reports success. *)
Lemma BillMate_persistPayment_ok pc rc pn rn a T W :
  exists W',
    BillMate.persistPayment pc rc pn rn a T W
    = Returned {| ok := true; state := pn; message := Some (Paid a T) |} W'.
Proof.
  unfold BillMate.persistPayment.
  destruct (BillMate_persistStateForOwner_safe pc pn W) as (u1 & W1 & E1).
  destruct (BillMate_persistStateForOwner_safe rc rn W1) as (u2 & W2 & E2).
  exists W2. by rewrite (bind_returned _ _ _ _ _ E1), (bind_returned _ _ _ _ _ E2).
Qed.

Lemma BillMate_pay_inv account a n w r w' :
  BillMate.payToAccountByNumber account a n w = Returned r w' ->
  (exists st, clamped st /\ ok r = false /\ state r = st)
  \/ exists uid own recipient payerState recipientState payerCtx recipientCtx
            payerNext recipientNext,
       paymentCommitted account a n w r w' uid own recipient payerState recipientState
         payerCtx recipientCtx payerNext recipientNext.
Proof.
  intros H. unfold BillMate.payToAccountByNumber in H.
  inv_bind H cu w0 Ecu. unfold BillMate.currentUserUid in Ecu.
  injection Ecu as <- <-.
  inv_bind H st w1 E1.
  pose proof (BillMate_getBankState_clamped _ _ _ E1) as Hc.
  destruct (authUid w) as [uid|] eqn:U;
    [|simpl in H; injection H as <- <-; left; by exists st].
  simpl in H. destruct (Str.truthy uid) eqn:Tr;
    [|simpl in H; injection H as <- <-; left; by exists st].
  simpl in H.
  destruct (negb (Str.truthy (BillMate.normalizeAccountNumber account))
            || negb (BillMate.isValidAccountNumber (BillMate.normalizeAccountNumber account)))
    eqn:V.
  { injection H as <- <-. left. by exists st. }
  apply orb_false_elim in V as [_ V]. apply negb_false_iff in V.
  destruct (Num.leb (safeAmountOf a) Num.zero) eqn:P.
  { injection H as <- <-. left. by exists st. }
  destruct (safeAmountOf_positive a P) as (F & Ea & P'). rewrite Ea in *.
  inv_bind H own w2 E2.
  destruct (truthyOpt own && _)%bool eqn:Self.
  { injection H as <- <-. left. by exists st. }
  destruct (Num.ltb (balance st) a) eqn:L.
  { injection H as <- <-. left. by exists st. }
  inv_bind H ru w3 E3.
  destruct (truthyOpt ru) eqn:Tru; simpl in H.
  2:{ injection H as <- <-. left. by exists st. }
  destruct ru as [recipient|]; [|done]. simpl in Tru, H.
  inv_bind H pc w4 E4.
  rewrite bind_dateNow, bind_newDateISO in H. cbv zeta in H.
  inv_bind H cfg w4' Ecfg. unfold BillMate.isFirebaseConfigured in Ecfg.
  injection Ecfg as <- <-.
  inv_bind H rs w5 E5.
  rewrite bind_dateNow, bind_newDateISO in H.
  right. exists uid, own, recipient, st, rs, pc. eexists _, _, _.
  unfold paymentCommitted. eexists w1, w2, w3, w4, w5, _, _, _, _.
  repeat split; try eassumption; try reflexivity.
Qed.

(** ** Strings and account numbers *)

Lemma chars_str l : Str.chars (Str.str l) = l.
Proof. apply list_ascii_of_string_of_list_ascii. Qed.

Lemma str_chars s : Str.str (Str.chars s) = s.
Proof. apply string_of_list_ascii_of_string. Qed.

Lemma truthy_chars s : Str.truthy s = true <-> Str.chars s <> [].
Proof. destruct s; simpl; split; done. Qed.

Lemma truthy_str l : Str.truthy (Str.str l) = true <-> l <> [].
Proof. rewrite truthy_chars, chars_str. done. Qed.

Lemma chars_append s t : Str.chars (s ++ t) = Str.chars s ++ Str.chars t.
Proof. induction s as [|c s IH]; simpl; [done|]. by rewrite IH. Qed.

Lemma code_ascii_of_N n : (n < 256)%N -> Str.code (ascii_of_N n) = n.
Proof. intros H. unfold Str.code. by apply N_ascii_embedding. Qed.

Lemma code_bound a : (Str.code a < 256)%N.
Proof. apply N_ascii_bounded. Qed.

Lemma upperChar_plain a : plain a = true -> Str.upperChar a = a.
Proof.
  unfold plain, Str.upperChar. intros H. apply andb_prop in H as [_ H].
  apply negb_true_iff in H. by rewrite H.
Qed.

Lemma upperChar_code a :
  Str.code (Str.upperChar a)
  = if Str.isLower a then (Str.code a - 32)%N else Str.code a.
Proof.
  unfold Str.upperChar. destruct (Str.isLower a) eqn:L; [|done].
  apply code_ascii_of_N. pose proof (code_bound a). lia.
Qed.

Lemma isLower_bounds a :
  Str.isLower a = true <-> (97 <= Str.code a <= 122)%N.
Proof. unfold Str.isLower. rewrite andb_true_iff, !N.leb_le. done. Qed.

Lemma isSpace_bounds a :
  Str.isSpace a = true <-> (9 <= Str.code a <= 13)%N \/ Str.code a = 32%N.
Proof.
  unfold Str.isSpace. rewrite orb_true_iff, andb_true_iff, !N.leb_le, N.eqb_eq. done.
Qed.

Lemma isSpace_upperChar a : Str.isSpace (Str.upperChar a) = Str.isSpace a.
Proof.
  apply eq_true_iff_eq. rewrite !isSpace_bounds, upperChar_code.
  destruct (Str.isLower a) eqn:L; [|done].
  apply isLower_bounds in L. lia.
Qed.

Lemma isLower_upperChar a : Str.isLower (Str.upperChar a) = false.
Proof.
  apply not_true_iff_false. rewrite isLower_bounds, upperChar_code.
  destruct (Str.isLower a) eqn:L.
  - apply isLower_bounds in L. lia.
  - intros H. apply isLower_bounds in H. congruence.
Qed.

Lemma dropWhile_none p l :
  forallb (fun a => negb (p a)) l = true -> Str.dropWhile p l = l.
Proof.
  destruct l as [|a l]; [done|]. simpl. intros H. apply andb_prop in H as [H _].
  apply negb_true_iff in H. by rewrite H.
Qed.

Lemma forallb_rev {A} (p : A -> bool) l : forallb p (rev l) = forallb p l.
Proof.
  induction l as [|a l IH]; [done|]. simpl.
  rewrite forallb_app, IH. simpl. rewrite andb_true_r. apply andb_comm.
Qed.

Lemma filter_all {A} (p : A -> bool) l :
  forallb p l = true -> List.filter p l = l.
Proof.
  induction l as [|a l IH]; [done|]. simpl. intros H.
  apply andb_prop in H as [-> H]. by rewrite IH.
Qed.

Lemma forallb_impl {A} (p q : A -> bool) l :
  (forall a, p a = true -> q a = true) -> forallb p l = true -> forallb q l = true.
Proof.
  intros Hpq. induction l as [|a l IH]; [done|]. simpl. intros H.
  apply andb_prop in H as [Ha H]. by rewrite (Hpq a Ha), IH.
Qed.

Lemma forallb_filter {A} (p : A -> bool) l : forallb p (List.filter p l) = true.
Proof.
  induction l as [|a l IH]; [done|]. simpl.
  destruct (p a) eqn:E; [|done]. simpl. by rewrite E.
Qed.

(** *** Normal forms *)

Lemma trim_plain l :
  forallb plain l = true -> Str.trim (Str.str l) = Str.str l.
Proof.
  intros H. unfold Str.trim. rewrite chars_str.
  assert (forallb (fun a => negb (Str.isSpace a)) l = true) as Hs.
  { eapply forallb_impl; [|exact H]. intros a Ha.
    unfold plain in Ha. by apply andb_prop in Ha as [-> _]. }
  rewrite (dropWhile_none _ l Hs), dropWhile_none, rev_involutive; [done|].
  by rewrite forallb_rev.
Qed.

Lemma toUpperCase_plain l :
  forallb plain l = true -> Str.toUpperCase (Str.str l) = Str.str l.
Proof.
  intros H. unfold Str.toUpperCase. rewrite chars_str. f_equal.
  induction l as [|a l IH]; [done|]. simpl in *.
  apply andb_prop in H as [Ha H]. by rewrite (upperChar_plain a Ha), IH.
Qed.

Lemma removeSpaces_plain l :
  forallb plain l = true -> Str.removeSpaces (Str.str l) = Str.str l.
Proof.
  intros H. unfold Str.removeSpaces. rewrite chars_str, filter_all; [done|].
  eapply forallb_impl; [|exact H]. intros a Ha.
  unfold plain in Ha. by apply andb_prop in Ha as [-> _].
Qed.

Lemma normalizeAccountNumber_plain s :
  forallb plain (Str.chars s) = true -> BillMate.normalizeAccountNumber s = s.
Proof.
  intros H. unfold BillMate.normalizeAccountNumber.
  rewrite <- (str_chars s).
  by rewrite (trim_plain _ H), (toUpperCase_plain _ H), (removeSpaces_plain _ H).
Qed.

Lemma upperTrim_plain s :
  forallb plain (Str.chars s) = true -> Str.toUpperCase (Str.trim s) = s.
Proof.
  intros H. rewrite <- (str_chars s).
  by rewrite (trim_plain _ H), (toUpperCase_plain _ H).
Qed.

Lemma normalizeAccountNumber_chars_plain s :
  forallb plain (Str.chars (BillMate.normalizeAccountNumber s)) = true.
Proof.
  unfold BillMate.normalizeAccountNumber, Str.removeSpaces, Str.toUpperCase.
  rewrite !chars_str.
  generalize (Str.chars (Str.trim s)). intros l.
  induction l as [|a l IH]; [done|]. simpl.
  rewrite isSpace_upperChar. destruct (Str.isSpace a) eqn:E; simpl; [done|].
  unfold plain at 1. by rewrite isSpace_upperChar, E, isLower_upperChar, IH.
Qed.

Lemma normalizeAccountNumber_idempotent s :
  BillMate.normalizeAccountNumber (BillMate.normalizeAccountNumber s)
  = BillMate.normalizeAccountNumber s.
Proof. apply normalizeAccountNumber_plain, normalizeAccountNumber_chars_plain. Qed.

Lemma isUpperAlnum_plain a : Str.isUpperAlnum a = true -> plain a = true.
Proof.
  unfold Str.isUpperAlnum, Str.isUpper, Str.isDigit, plain, Str.isSpace, Str.isLower.
  rewrite orb_true_iff, !andb_true_iff, !negb_true_iff, orb_false_iff,
    !andb_false_iff, !N.leb_le, !N.leb_gt, N.eqb_neq.
  lia.
Qed.

Lemma matchesAccountPattern_plain s :
  Str.matchesAccountPattern s = true -> forallb plain (Str.chars s) = true.
Proof.
  unfold Str.matchesAccountPattern.
  destruct (Str.chars s) as [|b [|m rest]]; try done.
  rewrite !andb_true_iff, !N.eqb_eq. intros [[[Hb Hm] _] H]. simpl.
  unfold plain at 1 2, Str.isSpace, Str.isLower. rewrite Hb, Hm. simpl.
  eapply forallb_impl; [|exact H]. apply isUpperAlnum_plain.
Qed.

(** A well-formed account number is its own normal form. *)
Lemma matchesAccountPattern_normal s :
  Str.matchesAccountPattern s = true ->
  BillMate.normalizeAccountNumber s = s /\ Str.toUpperCase (Str.trim s) = s.
Proof.
  intros H. apply matchesAccountPattern_plain in H.
  split; [by apply normalizeAccountNumber_plain|by apply upperTrim_plain].
Qed.

Lemma matchesAccountPattern_truthy s :
  Str.matchesAccountPattern s = true -> Str.truthy s = true.
Proof.
  unfold Str.matchesAccountPattern. intros H. apply truthy_chars.
  by destruct (Str.chars s).
Qed.

(** A string with something left after [trim] has a non-empty normal
    form. *)
Lemma dropWhile_nonempty p l :
  Str.dropWhile p l <> [] -> exists a, In a l /\ p a = false.
Proof.
  induction l as [|a l IH]; [done|]. simpl.
  destruct (p a) eqn:E.
  - intros H. destruct (IH H) as (b & Hb & Pb). exists b. auto.
  - intros _. exists a. auto.
Qed.

Lemma dropWhile_incl p l a : In a (Str.dropWhile p l) -> In a l.
Proof.
  induction l as [|b l IH]; [done|]. simpl.
  destruct (p b); [right; auto|done].
Qed.

Lemma trim_truthy_normalize s :
  Str.truthy (Str.trim s) = true ->
  Str.truthy (BillMate.normalizeAccountNumber s) = true.
Proof.
  intros H. pose proof H as H0.
  unfold Str.trim in H. apply truthy_str in H.
  assert (Str.dropWhile Str.isSpace (rev (Str.dropWhile Str.isSpace (Str.chars s))) <> [])
    as H1 by (intros E; apply H; by rewrite E).
  destruct (dropWhile_nonempty _ _ H1) as (a & Ha & Sa).
  unfold BillMate.normalizeAccountNumber, Str.removeSpaces, Str.toUpperCase.
  apply truthy_str. rewrite chars_str.
  assert (In a (Str.chars (Str.trim s))) as Hin.
  { unfold Str.trim. rewrite chars_str. apply in_rev. rewrite rev_involutive.
    apply dropWhile_nonempty in H1.
    clear -Ha Sa. revert Ha. generalize (rev (Str.dropWhile Str.isSpace (Str.chars s))).
    intros l. induction l as [|b l IH]; [done|]. simpl.
    intros [->|Hl]; [by rewrite Sa; left|].
    destruct (Str.isSpace b); [auto|by right]. }
  intros E.
  assert (In (Str.upperChar a)
            (List.filter (fun a => negb (Str.isSpace a))
               (map Str.upperChar (Str.chars (Str.trim s))))) as Hf.
  { apply filter_In. split; [by apply in_map|]. by rewrite isSpace_upperChar, Sa. }
  by rewrite E in Hf.
Qed.

(** *** Decimal numerals and generated account numbers *)

Lemma isDigit_digit d : (d < 10)%N -> Str.isDigit (ascii_of_N (48 + d)) = true.
Proof.
  intros H. unfold Str.isDigit. rewrite code_ascii_of_N by lia.
  apply andb_true_intro. split; apply N.leb_le; lia.
Qed.

Lemma digitsRev_digits fuel n : forallb Str.isDigit (Str.digitsRev fuel n) = true.
Proof.
  revert n. induction fuel as [|fuel IH]; intros n; [done|]. simpl.
  rewrite isDigit_digit by (apply N.mod_lt; lia). simpl.
  destruct (n / 10 =? 0)%N; [done|apply IH].
Qed.

Lemma digitsRev_length k :
  forall fuel n, (10 ^ N.of_nat k <= n)%N -> (k < fuel)%nat ->
                 (S k <= List.length (Str.digitsRev fuel n))%nat.
Proof.
  induction k as [|k IH]; intros fuel n Hn Hf.
  - destruct fuel; [lia|]. simpl. lia.
  - destruct fuel as [|fuel]; [lia|]. simpl.
    rewrite Nat2N.inj_succ, N.pow_succ_r' in Hn.
    assert (10 ^ N.of_nat k <= n / 10)%N as Hq.
    { apply N.div_le_lower_bound; lia. }
    assert (0 < 10 ^ N.of_nat k)%N by (apply N.neq_0_lt_0, N.pow_nonzero; lia).
    destruct (n / 10 =? 0)%N eqn:E; [apply N.eqb_eq in E; lia|].
    simpl. apply le_n_S, IH; [done|lia].
Qed.

Lemma ofN_digits n : forallb Str.isDigit (Str.chars (Str.ofN n)) = true.
Proof.
  unfold Str.ofN. rewrite chars_str, forallb_rev. apply digitsRev_digits.
Qed.

Lemma ofN_length k n :
  (10 ^ N.of_nat k <= n)%N -> (S k <= List.length (Str.chars (Str.ofN n)))%nat.
Proof.
  intros H. unfold Str.ofN. rewrite chars_str, length_rev.
  apply digitsRev_length; [done|].
  assert (2 ^ N.of_nat k <= 10 ^ N.of_nat k)%N by (apply N.pow_le_mono_l; lia).
  assert (N.of_nat k <= N.log2 n)%N.
  { rewrite <- (N.log2_pow2 (N.of_nat k)) by lia. apply N.log2_le_mono. lia. }
  lia.
Qed.

Lemma isDigit_isUpperAlnum a : Str.isDigit a = true -> Str.isUpperAlnum a = true.
Proof. unfold Str.isUpperAlnum. intros ->. apply orb_true_r. Qed.

Lemma forallb_skipn {A} (p : A -> bool) n l :
  forallb p l = true -> forallb p (skipn n l) = true.
Proof.
  revert l. induction n as [|n IH]; intros l H; [done|].
  destruct l as [|a l]; [done|]. simpl in *.
  apply andb_prop in H as [_ H]. by apply IH.
Qed.

Lemma forallb_firstn {A} (p : A -> bool) n l :
  forallb p l = true -> forallb p (firstn n l) = true.
Proof.
  revert l. induction n as [|n IH]; intros l H; [done|].
  destruct l as [|a l]; [done|]. simpl in *.
  apply andb_prop in H as [-> H]. by apply IH.
Qed.

Lemma matches_BM (x : string) :
  Str.matchesAccountPattern ("BM" ++ x)
  = (6 <=? List.length (Str.chars x))%nat && forallb Str.isUpperAlnum (Str.chars x).
Proof. reflexivity. Qed.

(** The account number generated at time [now] with the draw [r]. *)
Lemma generated_matches now r :
  (10 <= now)%N -> (1000 <= r)%N ->
  Str.matchesAccountPattern ("BM" ++ Str.sliceLast 6 (Str.ofN now) ++ Str.ofN r) = true.
Proof.
  intros Hn Hr. rewrite matches_BM.
  rewrite chars_append. unfold Str.sliceLast. rewrite chars_str.
  pose proof (ofN_length 1 now Hn) as L1.
  pose proof (ofN_length 3 r Hr) as L2.
  apply andb_true_intro. split.
  - apply Nat.leb_le. rewrite length_app, length_skipn. lia.
  - rewrite forallb_app. apply andb_true_intro. split.
    + apply forallb_skipn. eapply forallb_impl; [apply isDigit_isUpperAlnum|].
      apply ofN_digits.
    + eapply forallb_impl; [apply isDigit_isUpperAlnum|]. apply ofN_digits.
Qed.

Lemma generateAccountNumber_matches w c w' :
  clockSane w -> generateAccountNumber w = Returned c w' ->
  Str.matchesAccountPattern c = true.
Proof.
  intros H [= <- _]. apply generated_matches; [apply H|].
  apply N.le_add_r.
Qed.

Lemma isAlnum_upperChar a :
  Str.isAlnum a = true -> Str.isUpperAlnum (Str.upperChar a) = true.
Proof.
  unfold Str.isAlnum, Str.isUpperAlnum, Str.isUpper, Str.isDigit.
  rewrite upperChar_code.
  destruct (Str.isLower a) eqn:L.
  - apply isLower_bounds in L. intros _.
    apply orb_true_iff. left. apply andb_true_intro. split; apply N.leb_le; lia.
  - simpl. done.
Qed.

Lemma fallback_matches uid :
  (6 <= alnumCount uid)%nat ->
  Str.matchesAccountPattern
    ("BM" ++ Str.toUpperCase (Str.sliceTo 10 (Str.keepAlnum uid))) = true.
Proof.
  intros H. rewrite matches_BM. unfold alnumCount in H.
  unfold Str.toUpperCase, Str.sliceTo, Str.keepAlnum. rewrite !chars_str.
  apply andb_true_intro. split.
  - apply Nat.leb_le. rewrite length_map, length_firstn. lia.
  - generalize (firstn 10 (List.filter Str.isAlnum (Str.chars uid))),
      (forallb_firstn Str.isAlnum 10 _ (forallb_filter Str.isAlnum (Str.chars uid))).
    intros l Hl. induction l as [|a l IH]; [done|]. simpl in *.
    apply andb_prop in Hl as [Ha Hl]. by rewrite (isAlnum_upperChar a Ha), IH.
Qed.

Arguments BillMate.pickLocalCandidate : simpl never.
Arguments BillMate.reserveLoop : simpl never.
Arguments BankApp.reserveLoop : simpl never.

(** ** Triples *)

(** Turns a goal about the outcome of a run into a triple for the
    function that is run. *)
Ltac as_triple P :=
  match goal with
  | |- satisfies ?Q ?E (?m ?w) =>
      let H := fresh in
      enough (triple P m Q E) as H by (apply H; try done); clear w
  end.

Ltac sat := unfold satisfies, ret; cbv beta iota.

(** Reduces the projections of a world that has been written. *)
Ltac proj :=
  cbn [texts jsons storage firestore setStorage setFirestore countRequest
       tickClock tickRandom authUid firebaseConfigured outage requests
       clock clockReads random randomDraws users bankAccounts legacyBank].
Tactic Notation "proj" "in" hyp(H) :=
  cbn [texts jsons storage firestore setStorage setFirestore countRequest
       tickClock tickRandom authUid firebaseConfigured outage requests
       clock clockReads random randomDraws users bankAccounts legacyBank] in H.

Lemma triple_ret {A} (P : World -> Prop) (a : A) (Q : A -> World -> Prop) E :
  (forall w, P w -> Q a w) -> triple P (ret a) Q E.
Proof. intros H w Hw. by apply H. Qed.

Lemma triple_bind {A B} P (m : M A) (k : A -> M B) Q1 Q E :
  triple P m Q1 E -> (forall a, triple (Q1 a) (k a) Q E) -> triple P (bind m k) Q E.
Proof.
  intros Hm Hk w Hw. specialize (Hm w Hw). unfold bind.
  destruct (m w) as [a w1|e w1]; [by apply Hk|exact Hm].
Qed.

Lemma triple_tryCatch {A} P (m : M A) h Q E1 E :
  triple P m Q E1 -> (forall e, triple E1 (h e) Q E) -> triple P (tryCatch m h) Q E.
Proof.
  intros Hm Hh w Hw. specialize (Hm w Hw). unfold tryCatch.
  destruct (m w) as [a w1|e w1]; [exact Hm|by apply Hh].
Qed.

Lemma triple_weaken {A} (P P' : World -> Prop) (m : M A)
    (Q Q' : A -> World -> Prop) (E E' : World -> Prop) :
  triple P m Q E ->
  (forall w, P' w -> P w) -> (forall a w, Q a w -> Q' a w) ->
  (forall w, E w -> E' w) -> triple P' m Q' E'.
Proof.
  intros H HP HQ HE w Hw. specialize (H w (HP w Hw)).
  destruct (m w); simpl in *; auto.
Qed.

Lemma triple_and {A} P (m : M A) Q1 Q2 E1 E2 :
  triple P m Q1 E1 -> triple P m Q2 E2 ->
  triple P m (fun a w => Q1 a w /\ Q2 a w) (fun w => E1 w /\ E2 w).
Proof.
  intros H1 H2 w Hw. specialize (H1 w Hw). specialize (H2 w Hw).
  by destruct (m w).
Qed.

Lemma triple_read {A} (f : World -> A) (P : World -> Prop) E :
  triple P (fun w => Returned (f w) w) (fun r w => P w /\ r = f w) E.
Proof. intros w Hw. by split. Qed.

Lemma triple_pre {A} (P : World -> Prop) (phi : Prop) (m : M A) Q E :
  (phi -> triple P m Q E) -> triple (fun w => P w /\ phi) m Q E.
Proof. intros H w [Hw Hphi]. by apply H. Qed.

Lemma triple_pure {A} (phi : Prop) (m : M A) Q E :
  (phi -> triple (fun _ => True) m Q E) -> triple (fun _ => phi) m Q E.
Proof. intros H w Hphi. by apply H. Qed.

Lemma triple_never {A} P (m : M A) Q E :
  triple P m Q (fun _ => False) -> triple P m Q E.
Proof. intros H. eapply triple_weaken; [exact H|done..]. Qed.

Lemma triple_drop {A} (P R : World -> Prop) (m : M A) Q E :
  triple P m Q E -> triple (fun w => P w /\ R w) m Q E.
Proof. intros H w [Hw _]. by apply H. Qed.

Lemma triple_safe {A} (m : M A) (P : World -> Prop) :
  safe m -> triple P m (fun _ _ => True) (fun _ => False).
Proof. intros H w _. by destruct (H w) as (a & w' & ->). Qed.

Lemma triple_returned {A} P (m : M A) Q E w a w' :
  triple P m Q E -> P w -> m w = Returned a w' -> Q a w'.
Proof. intros H Hw Em. specialize (H w Hw). by rewrite Em in H. Qed.

Lemma triple_total {A} P (m : M A) Q w :
  triple P m Q (fun _ => False) -> P w -> exists a w', m w = Returned a w' /\ Q a w'.
Proof.
  intros H Hw. specialize (H w Hw). destruct (m w) as [a w'|]; [eauto|].
  destruct H.
Qed.

Lemma unchanged_refl w : unchanged w w.
Proof. done. Qed.

Lemma unchanged_trans w1 w2 w3 : unchanged w1 w2 -> unchanged w2 w3 -> unchanged w1 w3.
Proof. intros (? & ? & ?) (? & ? & ?). repeat split; congruence. Qed.

Lemma triple_unchanged {A} (m : M A) I :
  preserves unchanged m -> settled I -> triple I m (fun _ => I) I.
Proof.
  intros Hm HI w Hw. specialize (Hm w).
  destruct (m w); simpl in *; by eapply HI.
Qed.

Lemma triple_unchanged_safe {A} (m : M A) I :
  preserves unchanged m -> safe m -> settled I ->
  triple I m (fun _ => I) (fun _ => False).
Proof.
  intros Hm Hs HI w Hw. specialize (Hm w).
  destruct (Hs w) as (a & w' & E). rewrite E in *. simpl in *. by eapply HI.
Qed.

Lemma settled_and I J : settled I -> settled J -> settled (fun w => I w /\ J w).
Proof. intros HI HJ w w' U [? ?]. split; [by eapply HI|by eapply HJ]. Qed.

Lemma settled_clockSane : settled clockSane.
Proof. intros w w' (C & _) H k. rewrite C. apply H. Qed.

Lemma settled_recordedNumbersValid uid : settled (recordedNumbersValid uid).
Proof.
  intros w w' (_ & F & T) [H1 H2]. split.
  - intros s. rewrite T. apply H1.
  - intros s. rewrite F. apply H2.
Qed.

Lemma settled_recordedNumbersValidRaw uid : settled (recordedNumbersValidRaw uid).
Proof.
  intros w w' (_ & F & T) [H1 H2]. split.
  - intros s. rewrite T. apply H1.
  - intros s. rewrite F. apply H2.
Qed.

(** *** What leaves the clock, the remote store and the texts alone *)

Ltac walk_unchanged := walk unchanged_refl unchanged_trans.

Lemma unchanged_getItem k : preserves unchanged (AsyncStorageApi.getItem k).
Proof. intros w. done. Qed.
Lemma unchanged_getJSON k : preserves unchanged (AsyncStorageApi.getJSON k).
Proof. intros w. done. Qed.
Lemma unchanged_setJSON k v : preserves unchanged (AsyncStorageApi.setJSON k v).
Proof. intros w. done. Qed.
Lemma unchanged_dateNow : preserves unchanged dateNow.
Proof. intros w. done. Qed.
Lemma unchanged_randomFourDigits : preserves unchanged randomFourDigits.
Proof. intros w. done. Qed.
Lemma unchanged_request op : preserves unchanged (FirestoreApi.request op).
Proof. intros w. unfold FirestoreApi.request. by destruct (outage w (requests w) op). Qed.
#[export] Hint Resolve unchanged_getItem unchanged_getJSON unchanged_setJSON
  unchanged_dateNow unchanged_randomFourDigits unchanged_request : preserve.

Lemma unchanged_generateAccountNumber : preserves unchanged generateAccountNumber.
Proof. unfold generateAccountNumber. walk_unchanged. Qed.
Lemma unchanged_getUser u : preserves unchanged (FirestoreApi.getUser u).
Proof. unfold FirestoreApi.getUser. walk_unchanged. Qed.
Lemma unchanged_getMapping a : preserves unchanged (FirestoreApi.getMapping a).
Proof. unfold FirestoreApi.getMapping. walk_unchanged. Qed.
Lemma unchanged_getLocalUidMap : preserves unchanged BillMate.getLocalUidMap.
Proof. unfold BillMate.getLocalUidMap. walk_unchanged. Qed.
Lemma unchanged_saveLocalUidMap m : preserves unchanged (BillMate.saveLocalUidMap m).
Proof. apply unchanged_setJSON. Qed.
#[export] Hint Resolve unchanged_generateAccountNumber unchanged_getUser
  unchanged_getMapping unchanged_getLocalUidMap unchanged_saveLocalUidMap : preserve.

(** *** The environment is never written *)

Lemma envFrame_refl w : envFrame w w.
Proof. done. Qed.

Lemma envFrame_trans w1 w2 w3 : envFrame w1 w2 -> envFrame w2 w3 -> envFrame w1 w3.
Proof. intros (?&?&?&?&?) (?&?&?&?&?). repeat split; congruence. Qed.

Ltac walk_env := walk envFrame_refl envFrame_trans.

Lemma env_getItem k : preserves envFrame (AsyncStorageApi.getItem k).
Proof. intros w. done. Qed.
Lemma env_setItem k v : preserves envFrame (AsyncStorageApi.setItem k v).
Proof. intros w. done. Qed.
Lemma env_removeItem k : preserves envFrame (AsyncStorageApi.removeItem k).
Proof. intros w. done. Qed.
Lemma env_getJSON k : preserves envFrame (AsyncStorageApi.getJSON k).
Proof. intros w. done. Qed.
Lemma env_setJSON k v : preserves envFrame (AsyncStorageApi.setJSON k v).
Proof. intros w. done. Qed.
Lemma env_dateNow : preserves envFrame dateNow.
Proof. intros w. done. Qed.
Lemma env_newDateISO : preserves envFrame newDateISO.
Proof. intros w. done. Qed.
Lemma env_randomFourDigits : preserves envFrame randomFourDigits.
Proof. intros w. done. Qed.
Lemma env_request op : preserves envFrame (FirestoreApi.request op).
Proof. intros w. unfold FirestoreApi.request. by destruct (outage w (requests w) op). Qed.
#[export] Hint Resolve env_getItem env_setItem env_removeItem env_getJSON env_setJSON
  env_dateNow env_newDateISO env_randomFourDigits env_request : preserve.

Lemma env_write (f : World -> Firestore) :
  preserves envFrame (fun w => Returned tt (setFirestore (f w) w)).
Proof. intros w. done. Qed.
#[export] Hint Resolve env_write : preserve.

Lemma env_generateAccountNumber : preserves envFrame generateAccountNumber.
Proof. unfold generateAccountNumber. walk_env. Qed.
Lemma env_getUser u : preserves envFrame (FirestoreApi.getUser u).
Proof. unfold FirestoreApi.getUser. walk_env. Qed.
Lemma env_getMapping a : preserves envFrame (FirestoreApi.getMapping a).
Proof. unfold FirestoreApi.getMapping. walk_env. Qed.
Lemma env_getLegacy u : preserves envFrame (FirestoreApi.getLegacy u).
Proof. unfold FirestoreApi.getLegacy. walk_env. Qed.
Lemma env_setUserAccountNumber u v : preserves envFrame (FirestoreApi.setUserAccountNumber u v).
Proof. unfold FirestoreApi.setUserAccountNumber. walk_env. Qed.
Lemma env_setUserBankState u v : preserves envFrame (FirestoreApi.setUserBankState u v).
Proof. unfold FirestoreApi.setUserBankState. walk_env. Qed.
Lemma env_setMapping a v : preserves envFrame (FirestoreApi.setMapping a v).
Proof. unfold FirestoreApi.setMapping. walk_env. Qed.
Lemma env_runTransaction {A} (body : Firestore -> Exn + (A * Firestore)) :
  preserves envFrame (FirestoreApi.runTransaction body).
Proof.
  unfold FirestoreApi.runTransaction.
  apply (preserves_bind _ envFrame_trans); [apply env_request|]. intros _ w.
  by destruct (body (firestore w)) as [e|[a fs]].
Qed.
#[export] Hint Resolve env_generateAccountNumber env_getUser env_getMapping
  env_getLegacy env_setUserAccountNumber env_setUserBankState env_setMapping
  env_runTransaction : preserve.

Lemma env_BankApp_syncAccountNumberToCloud u a :
  preserves envFrame (BankApp.syncAccountNumberToCloud u a).
Proof. unfold BankApp.syncAccountNumberToCloud, BankApp.isFirebaseReady. walk_env. Qed.
#[export] Hint Resolve env_BankApp_syncAccountNumberToCloud : preserve.

(** *** Stepping through the local cache *)

Lemma bind_setItem {B} k v (K : unit -> M B) w :
  bind (AsyncStorageApi.setItem k v) K w
  = K tt (setStorage {| texts := <[k := v]> (texts (storage w));
                        jsons := jsons (storage w) |} w).
Proof. reflexivity. Qed.

Lemma bind_getItem {B} k (K : option string -> M B) w :
  bind (AsyncStorageApi.getItem k) K w = K (texts (storage w) !! k) w.
Proof. reflexivity. Qed.

Lemma bind_setJSON {B} k v (K : unit -> M B) w :
  bind (AsyncStorageApi.setJSON k v) K w
  = K tt (setStorage {| texts := texts (storage w);
                        jsons := <[k := v]> (jsons (storage w)) |} w).
Proof. reflexivity. Qed.

(** *** The loops, one round at a time *)

Lemma BillMate_pickLocalCandidate_O uid m :
  BillMate.pickLocalCandidate 0 uid m
  = (let fallback :=
       ("BM" ++ Str.toUpperCase (Str.sliceTo 10 (Str.keepAlnum uid)))%string in
     AsyncStorageApi.setItem (BillMate.localAccountStorageKey uid) fallback ;;
     BillMate.saveLocalUidMap (<[fallback := uid]> m) ;;
     ret fallback).
Proof. reflexivity. Qed.

Lemma BillMate_pickLocalCandidate_S n uid m :
  BillMate.pickLocalCandidate (S n) uid m
  = (candidate <- generateAccountNumber ;;
     if negb (truthyOpt (m !! candidate))
     then
       AsyncStorageApi.setItem (BillMate.localAccountStorageKey uid) candidate ;;
       BillMate.saveLocalUidMap (<[candidate := uid]> m) ;;
       ret candidate
     else BillMate.pickLocalCandidate n uid m).
Proof. reflexivity. Qed.

Lemma BillMate_reserveLoop_O uid :
  BillMate.reserveLoop 0 uid
  = (a <- BillMate.getOrCreateLocalAccountNumber uid ;; ret (Some a)).
Proof. reflexivity. Qed.

Lemma BillMate_reserveLoop_S n uid :
  BillMate.reserveLoop (S n) uid
  = (candidate <- generateAccountNumber ;;
     tryCatch
       (accountNumber <- FirestoreApi.runTransaction (BillMate.reserveAccount uid candidate) ;;
        BillMate.registerLocalAccountMapping accountNumber uid ;;
        ret (Some accountNumber))
       (fun error =>
          match error with
          | BankAccountConflict => BillMate.reserveLoop n uid
          | _ => a <- BillMate.getOrCreateLocalAccountNumber uid ;; ret (Some a)
          end)).
Proof. reflexivity. Qed.

Lemma BankApp_reserveLoop_O uid :
  BankApp.reserveLoop 0 uid = BankApp.localFallback uid.
Proof. reflexivity. Qed.

Lemma BankApp_reserveLoop_S n uid :
  BankApp.reserveLoop (S n) uid
  = (candidate <- generateAccountNumber ;;
     tryCatch
       (accountNumber <- FirestoreApi.runTransaction (BankApp.reserveAccount uid candidate) ;;
        AsyncStorageApi.setItem (BankApp.localAccountKey uid) accountNumber ;;
        ret (Some accountNumber))
       (fun error =>
          match error with
          | BankAccountConflict => BankApp.reserveLoop n uid
          | _ => BankApp.localFallback uid
          end)).
Proof. reflexivity. Qed.

(** ** The allocator of BillMate returns well-formed account numbers *)

Section BillMateAllocator.
Variable uid : string.
Hypothesis uid_truthy : Str.truthy uid = true.
Hypothesis uid_alnum : (6 <= alnumCount uid)%nat.

#[local] Abbreviation valid a := (BillMate.isValidAccountNumber a = true).
#[local] Abbreviation Inv := (fun w : World => clockSane w /\ recordedNumbersValid uid w).
#[local] Abbreviation never := (fun _ : World => False).

Lemma settled_Inv : settled Inv.
Proof. apply settled_and; [apply settled_clockSane|apply settled_recordedNumbersValid]. Qed.

Lemma generate_triple :
  triple Inv generateAccountNumber (fun c w => valid c /\ Inv w) never.
Proof.
  intros w Hw. destruct (generateAccountNumber w) as [c w'|] eqn:E; [|done].
  split.
  - eapply generateAccountNumber_matches; [apply Hw|exact E].
  - eapply settled_Inv; [|exact Hw].
    by apply (preserves_returned _ _ _ _ _ unchanged_generateAccountNumber E).
Qed.

Lemma then_some {A} (m : M A) (a : string) (P : World -> Prop) :
  safe m -> valid a ->
  triple P (bind m (fun _ => ret (Some a)))
    (fun r _ => exists a, r = Some a /\ valid a) never.
Proof.
  intros Hm Ha w _. destruct (Hm w) as (x & w' & E).
  rewrite (bind_returned _ _ _ _ _ E). sat. eauto.
Qed.

Lemma pickLocalCandidate_valid n m :
  triple Inv (BillMate.pickLocalCandidate n uid m) (fun a _ => valid a) never.
Proof.
  induction n as [|n IH];
    [rewrite BillMate_pickLocalCandidate_O|rewrite BillMate_pickLocalCandidate_S].
  - intros w _. cbv zeta. unfold bind, AsyncStorageApi.setItem,
      BillMate.saveLocalUidMap, AsyncStorageApi.setJSON. sat.
    by apply fallback_matches.
  - eapply triple_bind; [apply generate_triple|]. intros c.
    destruct (negb (truthyOpt (m !! c))).
    + intros w [Hc _]. unfold bind, AsyncStorageApi.setItem,
        BillMate.saveLocalUidMap, AsyncStorageApi.setJSON. sat. exact Hc.
    + eapply triple_weaken; [apply IH| |done|done]. by intros w [_ ?].
Qed.

Lemma getOrCreateLocalAccountNumber_valid :
  triple Inv (BillMate.getOrCreateLocalAccountNumber uid) (fun a _ => valid a) never.
Proof.
  unfold BillMate.getOrCreateLocalAccountNumber.
  eapply triple_bind;
    [apply (triple_read (fun w => texts (storage w) !! BillMate.localAccountStorageKey uid))|].
  intros stored. destruct (truthyOpt stored) eqn:Ts.
  - intros w [Hw ->].
    destruct (texts (storage w) !! BillMate.localAccountStorageKey uid) as [s|] eqn:E;
      [|done]. cbn [truthyOpt from_option id] in Ts |- *.
    destruct (BillMate_registerLocalAccountMapping_safe
                (BillMate.normalizeAccountNumber s) uid w) as (x & w' & Er).
    rewrite (bind_returned _ _ _ _ _ Er). sat.
    destruct Hw as [_ [Hl _]]. by apply Hl.
  - apply triple_drop.
    apply (triple_bind Inv _ _ (fun _ => Inv)); [|intros m; apply pickLocalCandidate_valid].
    apply triple_unchanged_safe;
      [apply unchanged_getLocalUidMap|apply BillMate_getLocalUidMap_safe|apply settled_Inv].
Qed.

Lemma getOrCreate_some :
  triple Inv (a <- BillMate.getOrCreateLocalAccountNumber uid ;; ret (Some a))
    (fun r _ => exists a, r = Some a /\ valid a) never.
Proof.
  eapply triple_bind; [apply getOrCreateLocalAccountNumber_valid|].
  intros a w Ha. sat. eauto.
Qed.

Lemma reserve_triple c :
  triple (fun w => valid c /\ Inv w)
    (FirestoreApi.runTransaction (BillMate.reserveAccount uid c))
    (fun a _ => valid a) Inv.
Proof.
  intros w [Hc Hw]. unfold FirestoreApi.runTransaction, bind, FirestoreApi.request.
  assert (Inv (countRequest w)) as Hw'.
  { eapply settled_Inv; [|exact Hw]. done. }
  destruct (outage w (requests w) RunTransaction); [done|].
  unfold BillMate.reserveAccount, FirestoreApi.readUser.
  change (firestore (countRequest w)) with (firestore w).
  destruct (nonBlankString _) as [s|] eqn:E.
  - destruct Hw as [_ [_ Hcl]]. by apply Hcl.
  - destruct (bankAccounts (firestore w) !! c); [exact Hw'|exact Hc].
Qed.

Lemma reserveLoop_valid n :
  triple Inv (BillMate.reserveLoop n uid)
    (fun r _ => exists a, r = Some a /\ valid a) never.
Proof.
  induction n as [|n IH];
    [rewrite BillMate_reserveLoop_O; apply getOrCreate_some
    |rewrite BillMate_reserveLoop_S].
  eapply triple_bind; [apply generate_triple|]. intros c.
  eapply triple_tryCatch.
  - eapply triple_bind; [apply reserve_triple|]. intros a w Ha.
    destruct (BillMate_registerLocalAccountMapping_safe a uid w) as (x & w' & Er).
    rewrite (bind_returned _ _ _ _ _ Er). sat. eauto.
  - intros [| |]; [apply getOrCreate_some|apply IH|apply getOrCreate_some].
Qed.

Lemma getUser_triple :
  triple Inv (FirestoreApi.getUser uid)
    (fun snap w => Inv w /\ snap = users (firestore w) !! uid) Inv.
Proof.
  intros w Hw. unfold FirestoreApi.getUser, bind, FirestoreApi.request.
  assert (Inv (countRequest w)) as Hw'.
  { eapply settled_Inv; [|exact Hw]. done. }
  by destruct (outage w (requests w) _).
Qed.

(** Under the invariant, the allocator returns, and what it returns
    matches [BM[A-Z0-9]{6,}]. *)
Lemma BillMate_ensure_valid :
  triple Inv (BillMate.ensureBankAccountForUser uid)
    (fun r _ => exists a, r = Some a /\ valid a) never.
Proof.
  unfold BillMate.ensureBankAccountForUser. rewrite uid_truthy. cbn [negb].
  eapply triple_bind;
    [apply (triple_read (fun w => texts (storage w) !! BillMate.localAccountStorageKey uid))|].
  intros existing. destruct (truthyOpt existing) eqn:Te.
  { intros w [Hw ->].
    destruct (texts (storage w) !! BillMate.localAccountStorageKey uid) as [s|] eqn:E;
      [|done]. cbn [truthyOpt from_option id] in Te |- *.
    destruct (BillMate_registerLocalAccountMapping_safe
                (BillMate.normalizeAccountNumber s) uid w) as (x & w' & Er).
    rewrite (bind_returned _ _ _ _ _ Er). sat.
    destruct Hw as [_ [Hl _]]. eexists. split; [reflexivity|]. by apply Hl. }
  apply triple_drop.
  eapply triple_bind; [apply (triple_read firebaseConfigured)|].
  intros configured. apply triple_drop.
  destruct (negb configured); [apply getOrCreate_some|].
  eapply (triple_bind _ _ _
            (fun found w => match found with
                            | Some a => valid a
                            | None => Inv w
                            end)).
  - eapply triple_tryCatch; [|intros e; eapply triple_weaken;
                               [apply getOrCreate_some|done| |done]].
    + eapply triple_bind; [apply getUser_triple|]. intros snap.
      destruct (nonBlankString (from_option accountNumber JUndefined snap)) as [s|] eqn:E.
      * intros w [Hw ->].
        destruct (BillMate_registerLocalAccountMapping_safe
                    (BillMate.normalizeAccountNumber s) uid w) as (x & w' & Er).
        rewrite (bind_returned _ _ _ _ _ Er). sat.
        destruct Hw as [_ [_ Hc]]. by apply Hc.
      * intros w [Hw _]. exact Hw.
    + intros r w (a & -> & Ha). exact Ha.
  - intros [a|].
    + intros w Ha. sat. eauto.
    + apply reserveLoop_valid.
Qed.

End BillMateAllocator.

(** ** The allocator of BankApp *)

Lemma BankApp_localFallback_safe u : safe (BankApp.localFallback u).
Proof. unfold BankApp.localFallback. walk_safe. Qed.

Section BankAppAllocator.
Variable uid : string.
Hypothesis uid_truthy : Str.truthy uid = true.

#[local] Abbreviation valid a := (Str.matchesAccountPattern a = true).
#[local] Abbreviation Inv := (fun w : World => clockSane w /\ recordedNumbersValidRaw uid w).
#[local] Abbreviation never := (fun _ : World => False).
#[local] Abbreviation answer :=
  (fun (r : option string) (_ : World) => exists a, r = Some a /\ valid a).

Lemma settled_InvB : settled Inv.
Proof. apply settled_and; [apply settled_clockSane|apply settled_recordedNumbersValidRaw]. Qed.

Lemma BankApp_localFallback_valid :
  triple clockSane (BankApp.localFallback uid) answer never.
Proof.
  intros w Hw. unfold BankApp.localFallback.
  destruct (generateAccountNumber w) as [c w1|] eqn:E; [|done].
  rewrite (bind_returned _ _ _ _ _ E).
  unfold bind, AsyncStorageApi.setItem. sat. exists c. split; [done|].
  by eapply generateAccountNumber_matches.
Qed.

Lemma BankApp_generate_triple :
  triple Inv generateAccountNumber (fun c w => valid c /\ Inv w) never.
Proof.
  intros w Hw. destruct (generateAccountNumber w) as [c w'|] eqn:E; [|done].
  split.
  - eapply generateAccountNumber_matches; [apply Hw|exact E].
  - eapply settled_InvB; [|exact Hw].
    by apply (preserves_returned _ _ _ _ _ unchanged_generateAccountNumber E).
Qed.

Lemma BankApp_reserve_triple c :
  triple (fun w => valid c /\ Inv w)
    (FirestoreApi.runTransaction (BankApp.reserveAccount uid c))
    (fun a _ => valid a) Inv.
Proof.
  intros w [Hc Hw]. unfold FirestoreApi.runTransaction, bind, FirestoreApi.request.
  assert (Inv (countRequest w)) as Hw'.
  { eapply settled_InvB; [|exact Hw]. done. }
  destruct (outage w (requests w) RunTransaction); [done|].
  unfold BankApp.reserveAccount, FirestoreApi.readUser.
  change (firestore (countRequest w)) with (firestore w).
  destruct (nonBlankString _) as [s|] eqn:E.
  - destruct Hw as [_ [_ Hcl]]. by apply Hcl.
  - destruct (bankAccounts (firestore w) !! c); [exact Hw'|exact Hc].
Qed.

Lemma BankApp_reserveLoop_valid n :
  triple Inv (BankApp.reserveLoop n uid) answer never.
Proof.
  induction n as [|n IH];
    [rewrite BankApp_reserveLoop_O|rewrite BankApp_reserveLoop_S].
  { eapply triple_weaken; [apply BankApp_localFallback_valid| |done|done].
    by intros w [? _]. }
  eapply triple_bind; [apply BankApp_generate_triple|]. intros c.
  eapply triple_tryCatch.
  - eapply triple_bind; [apply BankApp_reserve_triple|]. intros a w Ha.
    unfold bind, AsyncStorageApi.setItem. sat. exists a. done.
  - intros [| |]; try apply IH;
      (eapply triple_weaken; [apply BankApp_localFallback_valid| |done|done];
       by intros w [? _]).
Qed.

Lemma BankApp_getUser_triple :
  triple Inv (FirestoreApi.getUser uid)
    (fun snap w => Inv w /\ snap = users (firestore w) !! uid) clockSane.
Proof.
  intros w Hw. unfold FirestoreApi.getUser, bind, FirestoreApi.request.
  assert (Inv (countRequest w)) as Hw'.
  { eapply settled_InvB; [|exact Hw]. done. }
  destruct (outage w (requests w) _); [apply Hw'|done].
Qed.

(** Exactly what [ensureBankAccountForUser] does when nothing is cached:
    it never rejects. *)
Lemma BankApp_ensure_uncached :
  triple Inv
    (ready <- BankApp.isFirebaseReady ;;
     if negb ready then BankApp.localFallback uid
     else
       found <-
         tryCatch
           (userSnapshot <- FirestoreApi.getUser uid ;;
            match nonBlankString (from_option accountNumber JUndefined userSnapshot) with
            | Some existingAccount =>
                AsyncStorageApi.setItem (BankApp.localAccountKey uid) existingAccount ;;
                BankApp.syncAccountNumberToCloud uid existingAccount ;;
                ret (Some (Some existingAccount))
            | None => ret None
            end)
           (fun _ => r <- BankApp.localFallback uid ;; ret (Some r)) ;;
       match found with
       | Some result => ret result
       | None => BankApp.reserveLoop 8 uid
       end)
    answer never.
Proof.
  eapply triple_bind; [apply (triple_read firebaseConfigured)|].
  intros ready. apply triple_drop.
  destruct (negb ready).
  { eapply triple_weaken; [apply BankApp_localFallback_valid| |done|done].
    by intros w [? _]. }
  eapply (triple_bind _ _ _
            (fun found w => match found with
                            | Some r => answer r w
                            | None => Inv w
                            end)).
  - eapply triple_tryCatch.
    + eapply triple_bind; [apply BankApp_getUser_triple|]. intros snap.
      destruct (nonBlankString (from_option accountNumber JUndefined snap)) as [s|] eqn:E.
      * intros w [Hw ->].
        assert (valid s) as Hs by (destruct Hw as [_ [_ Hc]]; by apply Hc).
        assert (clockSane w) as Hk by apply Hw.
        rewrite bind_setItem. cbv beta.
        match goal with
        | |- context [bind _ _ ?W] =>
            set (W0 := W);
            destruct (BankApp.syncAccountNumberToCloud uid s W0) as [x w1|e w1] eqn:Es
        end.
        -- rewrite (bind_returned _ _ _ _ _ Es). sat. exists s. done.
        -- rewrite (bind_thrown _ _ _ _ _ Es).
           apply (preserves_thrown envFrame) in Es as (_ & _ & _ & Ck & _);
             [|apply env_BankApp_syncAccountNumberToCloud].
           intros k. rewrite Ck. apply Hk.
      * intros w [Hw _]. exact Hw.
    + intros e. eapply triple_bind; [apply BankApp_localFallback_valid|].
      intros r w Hr. exact Hr.
  - intros [r|].
    + intros w Hr. exact Hr.
    + apply BankApp_reserveLoop_valid.
Qed.

End BankAppAllocator.

(** ** Provisioning twice *)

(** *** Account numbers that are their own normal form *)

Lemma isDigit_plain a : Str.isDigit a = true -> plain a = true.
Proof. intros H. apply isUpperAlnum_plain. by apply isDigit_isUpperAlnum. Qed.

Lemma BM_plain x :
  forallb plain (Str.chars x) = true -> normal ("BM" ++ x).
Proof.
  intros H. split; [done|]. apply normalizeAccountNumber_plain.
  change (Str.chars ("BM" ++ x)) with ("B"%char :: "M"%char :: Str.chars x).
  change (forallb plain ("B"%char :: "M"%char :: Str.chars x))
    with (forallb plain (Str.chars x)). exact H.
Qed.

Lemma generated_normal now r :
  normal ("BM" ++ Str.sliceLast 6 (Str.ofN now) ++ Str.ofN r).
Proof.
  apply BM_plain. rewrite chars_append, forallb_app.
  unfold Str.sliceLast. rewrite chars_str.
  apply andb_true_intro. split.
  - apply forallb_skipn. eapply forallb_impl; [apply isDigit_plain|apply ofN_digits].
  - eapply forallb_impl; [apply isDigit_plain|apply ofN_digits].
Qed.

Lemma fallback_normal uid :
  normal ("BM" ++ Str.toUpperCase (Str.sliceTo 10 (Str.keepAlnum uid))).
Proof.
  apply BM_plain. unfold Str.toUpperCase, Str.sliceTo, Str.keepAlnum.
  rewrite !chars_str.
  generalize (firstn 10 (List.filter Str.isAlnum (Str.chars uid))),
    (forallb_firstn Str.isAlnum 10 _ (forallb_filter Str.isAlnum (Str.chars uid))).
  intros l Hl. induction l as [|a l IH]; [done|]. simpl in *.
  apply andb_prop in Hl as [Ha Hl].
  by rewrite (isUpperAlnum_plain _ (isAlnum_upperChar a Ha)), IH.
Qed.

Lemma normalized_normal s :
  Str.truthy (Str.trim s) = true -> normal (BillMate.normalizeAccountNumber s).
Proof.
  intros H. split; [by apply trim_truthy_normalize|].
  apply normalizeAccountNumber_idempotent.
Qed.

Lemma nonBlankString_truthy v s :
  nonBlankString v = Some s -> Str.truthy (Str.trim s) = true /\ Str.truthy s = true.
Proof.
  destruct v as [| | | |t| |]; try done. simpl.
  destruct (Str.truthy (Str.trim t)) eqn:E; [|done]. intros [= <-].
  split; [done|]. destruct t; [done|done].
Qed.

Lemma generateAccountNumber_normal w c w' :
  generateAccountNumber w = Returned c w' -> normal c.
Proof. intros [= <- _]. apply generated_normal. Qed.

(** *** BillMate *)

Section BillMateTwice.
Variable uid : string.
Hypothesis uid_truthy : Str.truthy uid = true.

#[local] Abbreviation never := (fun _ : World => False).
#[local] Abbreviation always := (fun _ : World => True).

Lemma register_tail_unchanged n :
  preserves unchanged
    (map <- BillMate.getLocalUidMap ;; BillMate.saveLocalUidMap (<[n := uid]> map)).
Proof. walk_unchanged. Qed.

(** Registering a normal number caches it. *)
Lemma register_caches a :
  normal a ->
  triple always (BillMate.registerLocalAccountMapping a uid)
    (fun _ w => cachedAs uid a w) never.
Proof.
  intros [Ta Na] w _. unfold BillMate.registerLocalAccountMapping.
  rewrite Na, Ta, uid_truthy. cbn [negb orb].
  rewrite bind_setItem.
  match goal with |- context [bind _ _ ?W] => set (W0 := W) end.
  pose proof (register_tail_unchanged a W0) as U.
  destruct (safe_bind _ _ BillMate_getLocalUidMap_safe
              (fun m => BillMate_saveLocalUidMap_safe (<[a:=uid]> m)) W0)
    as (x & w' & E).
  rewrite E in *. sat. unfold after in U. destruct U as (_ & _ & T).
  exists a. rewrite T. unfold W0. proj. by rewrite lookup_insert_eq.
Qed.

(** Registering the normal form of what is cached keeps it cached. *)
Lemma register_keeps s :
  triple (fun w => texts (storage w) !! BillMate.localAccountStorageKey uid = Some s
                   /\ Str.truthy s = true)
    (BillMate.registerLocalAccountMapping (BillMate.normalizeAccountNumber s) uid)
    (fun _ w => cachedAs uid (BillMate.normalizeAccountNumber s) w) never.
Proof.
  intros w [Hs Ts].
  destruct (Str.truthy (BillMate.normalizeAccountNumber s)) eqn:Tn.
  - apply register_caches; [|done]. split; [done|].
    apply normalizeAccountNumber_idempotent.
  - unfold BillMate.registerLocalAccountMapping.
    rewrite normalizeAccountNumber_idempotent, Tn. cbn [negb orb].
    sat. by exists s.
Qed.

Lemma then_cached (a : string) (m : M unit) P :
  triple P m (fun _ w => cachedAs uid a w) never ->
  triple P (bind m (fun _ => ret (Some a)))
    (fun r w => exists a, r = Some a /\ cachedAs uid a w) never.
Proof.
  intros H. eapply triple_bind; [exact H|]. intros _ w Hw. sat. eauto.
Qed.

Lemma pickLocalCandidate_caches n m :
  triple always (BillMate.pickLocalCandidate n uid m)
    (fun a w => cachedAs uid a w) never.
Proof.
  induction n as [|n IH];
    [rewrite BillMate_pickLocalCandidate_O|rewrite BillMate_pickLocalCandidate_S].
  - intros w _. cbv zeta. rewrite bind_setItem.
    unfold bind, BillMate.saveLocalUidMap, AsyncStorageApi.setJSON. sat.
    destruct (fallback_normal uid) as [Tf Nf].
    eexists. proj. rewrite lookup_insert_eq. done.
  - intros w _. destruct (generateAccountNumber w) as [c w1|] eqn:E; [|done].
    rewrite (bind_returned _ _ _ _ _ E).
    destruct (generateAccountNumber_normal _ _ _ E) as [Tc Nc].
    destruct (negb (truthyOpt (m !! c))).
    + rewrite bind_setItem.
      unfold bind, BillMate.saveLocalUidMap, AsyncStorageApi.setJSON. sat.
      eexists. proj. rewrite lookup_insert_eq. done.
    + by apply IH.
Qed.

Lemma register_then (s : string) {B} (b : B) (Q : B -> World -> Prop) :
  (forall w, cachedAs uid (BillMate.normalizeAccountNumber s) w -> Q b w) ->
  triple (fun w => texts (storage w) !! BillMate.localAccountStorageKey uid = Some s
                   /\ Str.truthy s = true)
    (BillMate.registerLocalAccountMapping (BillMate.normalizeAccountNumber s) uid ;;
     ret b) Q never.
Proof.
  intros HQ. eapply triple_bind; [apply register_keeps|].
  intros _ w Hw. sat. by apply HQ.
Qed.

Lemma getOrCreate_caches :
  triple always (BillMate.getOrCreateLocalAccountNumber uid)
    (fun a w => cachedAs uid a w) never.
Proof.
  unfold BillMate.getOrCreateLocalAccountNumber.
  eapply triple_bind;
    [apply (triple_read (fun w => texts (storage w) !! BillMate.localAccountStorageKey uid))|].
  intros [s|]; cbn [truthyOpt from_option id].
  - destruct (Str.truthy s) eqn:Ts.
    + eapply triple_weaken; [apply (register_then s)| | |]; try done.
      intros w [_ H]. by split.
    + apply triple_drop.
      eapply triple_bind; [apply triple_safe, BillMate_getLocalUidMap_safe|].
      intros m. eapply triple_weaken; [apply pickLocalCandidate_caches|done..].
  - apply triple_drop.
    eapply triple_bind; [apply triple_safe, BillMate_getLocalUidMap_safe|].
    intros m. eapply triple_weaken; [apply pickLocalCandidate_caches|done..].
Qed.

Lemma getOrCreate_some_cached P :
  triple P (a <- BillMate.getOrCreateLocalAccountNumber uid ;; ret (Some a))
    (fun r w => exists a, r = Some a /\ cachedAs uid a w) never.
Proof.
  eapply triple_bind.
  - eapply triple_weaken; [apply getOrCreate_caches|done|..]; intros; eassumption.
  - intros a w Ha. sat. eauto.
Qed.

Lemma reserve_normal c :
  triple (fun _ => normal c)
    (FirestoreApi.runTransaction (BillMate.reserveAccount uid c))
    (fun a _ => normal a) always.
Proof.
  intros w Hc. unfold FirestoreApi.runTransaction, bind, FirestoreApi.request.
  destruct (outage w (requests w) RunTransaction); [done|].
  unfold BillMate.reserveAccount, FirestoreApi.readUser.
  destruct (nonBlankString _) as [s|] eqn:E.
  - apply normalized_normal. by apply (nonBlankString_truthy _ _ E).
  - destruct (bankAccounts _ !! c); [done|exact Hc].
Qed.

Lemma reserveLoop_caches n :
  triple always (BillMate.reserveLoop n uid)
    (fun r w => exists a, r = Some a /\ cachedAs uid a w) never.
Proof.
  induction n as [|n IH];
    [rewrite BillMate_reserveLoop_O; apply getOrCreate_some_cached
    |rewrite BillMate_reserveLoop_S].
  eapply (triple_bind _ _ _ (fun c _ => normal c)).
  { intros w _. destruct (generateAccountNumber w) as [c w1|] eqn:E; [|done].
    sat. by eapply generateAccountNumber_normal. }
  intros c. eapply triple_tryCatch.
  - eapply triple_bind; [apply (reserve_normal c)|].
    intros a. cbv beta. apply triple_pure. intros Ha.
    eapply triple_weaken; [by apply then_cached, register_caches|done..].
  - intros [| |]; [apply getOrCreate_some_cached|apply IH|apply getOrCreate_some_cached].
Qed.

(** The allocator when nothing is cached. *)
Lemma ensure_rest_caches :
  triple always
    (configured <- BillMate.isFirebaseConfigured ;;
     if negb configured
     then a <- BillMate.getOrCreateLocalAccountNumber uid ;; ret (Some a)
     else
       found <-
         tryCatch
           (userSnapshot <- FirestoreApi.getUser uid ;;
            match nonBlankString (from_option accountNumber JUndefined userSnapshot) with
            | Some existingAccountNumber =>
                let normalizedExisting :=
                  BillMate.normalizeAccountNumber existingAccountNumber in
                BillMate.registerLocalAccountMapping normalizedExisting uid ;;
                ret (Some normalizedExisting)
            | None => ret None
            end)
           (fun _ => a <- BillMate.getOrCreateLocalAccountNumber uid ;; ret (Some a)) ;;
       match found with
       | Some account => ret (Some account)
       | None => BillMate.reserveLoop 8 uid
       end)
    (fun r w => exists a, r = Some a /\ cachedAs uid a w) never.
Proof.
  eapply triple_bind; [apply (triple_read firebaseConfigured)|].
  intros configured. apply triple_drop.
  destruct (negb configured); [apply getOrCreate_some_cached|].
  eapply (triple_bind _ _ _
            (fun found w => match found with
                            | Some a => cachedAs uid a w
                            | None => True
                            end)).
  - eapply triple_tryCatch with (E1 := always).
    + eapply triple_bind with (Q1 := fun _ _ => True).
      { intros w _. by destruct (FirestoreApi.getUser uid w). }
      intros snap.
      destruct (nonBlankString (from_option accountNumber JUndefined snap)) as [s|] eqn:E.
      * cbv zeta. eapply triple_bind.
        -- apply triple_never, register_caches. apply normalized_normal.
           by apply (nonBlankString_truthy _ _ E).
        -- intros _ w Hw. sat. exact Hw.
      * intros w _. by sat.
    + intros e. eapply triple_weaken;
        [apply getOrCreate_some_cached|intros w H; exact H| |by cbv beta].
      intros r w (a & -> & Ha). exact Ha.
  - intros [a|].
    + intros w Ha. sat. eauto.
    + apply reserveLoop_caches.
Qed.

(** After the allocator has returned, the number it returned is cached. *)
Lemma BillMate_ensure_caches :
  triple always (BillMate.ensureBankAccountForUser uid)
    (fun r w => exists a, r = Some a /\ cachedAs uid a w) never.
Proof.
  unfold BillMate.ensureBankAccountForUser. rewrite uid_truthy. cbn [negb].
  eapply triple_bind;
    [apply (triple_read (fun w => texts (storage w) !! BillMate.localAccountStorageKey uid))|].
  intros [s|]; cbn [truthyOpt from_option id].
  2:{ apply triple_drop. apply ensure_rest_caches. }
  destruct (Str.truthy s) eqn:Ts; [|apply triple_drop; apply ensure_rest_caches].
  eapply triple_weaken;
    [apply (register_then s (Some (BillMate.normalizeAccountNumber s))
              (fun r w => exists a, r = Some a /\ cachedAs uid a w));
     intros w H; eexists; split; [reflexivity|exact H]
    | | |]; try done.
  intros w [_ H]. by split.
Qed.

End BillMateTwice.

(** A cached number is what the allocator of BillMate returns. *)
Lemma BillMate_ensure_cached uid a w :
  Str.truthy uid = true -> cachedAs uid a w ->
  exists w', BillMate.ensureBankAccountForUser uid w = Returned (Some a) w'
             /\ cachedAs uid a w'.
Proof.
  intros Tu (s & Hs & Ts & <-).
  unfold BillMate.ensureBankAccountForUser. rewrite Tu. cbn [negb].
  rewrite bind_getItem, Hs. cbn [truthyOpt from_option id]. rewrite Ts. cbv iota.
  pose proof (register_then uid Tu s (Some (BillMate.normalizeAccountNumber s))
                (fun r w => r = Some (BillMate.normalizeAccountNumber s)
                            /\ cachedAs uid (BillMate.normalizeAccountNumber s) w)) as H.
  destruct (triple_total _ _ _ w (H (fun w Hc => conj eq_refl Hc)) (conj Hs Ts))
    as (r & w' & E & -> & Hc).
  exists w'. split; [exact E|exact Hc].
Qed.

(** *** BankApp *)

Lemma storageFrame_refl w : storageFrame w w.
Proof. done. Qed.

Lemma storageFrame_trans w1 w2 w3 :
  storageFrame w1 w2 -> storageFrame w2 w3 -> storageFrame w1 w3.
Proof. unfold storageFrame. congruence. Qed.

Ltac walk_storage := walk storageFrame_refl storageFrame_trans.

Lemma storage_request op : preserves storageFrame (FirestoreApi.request op).
Proof. intros w. unfold FirestoreApi.request. by destruct (outage w (requests w) op). Qed.
Lemma storage_write (f : World -> Firestore) :
  preserves storageFrame (fun w => Returned tt (setFirestore (f w) w)).
Proof. intros w. done. Qed.
#[export] Hint Resolve storage_request storage_write : preserve.

Lemma storage_getMapping a : preserves storageFrame (FirestoreApi.getMapping a).
Proof. unfold FirestoreApi.getMapping. walk_storage. Qed.
Lemma storage_setMapping a v : preserves storageFrame (FirestoreApi.setMapping a v).
Proof. unfold FirestoreApi.setMapping. walk_storage. Qed.
Lemma storage_setUserAccountNumber u v :
  preserves storageFrame (FirestoreApi.setUserAccountNumber u v).
Proof. unfold FirestoreApi.setUserAccountNumber. walk_storage. Qed.
#[export] Hint Resolve storage_getMapping storage_setMapping
  storage_setUserAccountNumber : preserve.

Lemma storage_BankApp_sync u a : preserves storageFrame (BankApp.syncAccountNumberToCloud u a).
Proof. unfold BankApp.syncAccountNumberToCloud, BankApp.isFirebaseReady. walk_storage. Qed.

Section BankAppTwice.
Variable uid : string.
Hypothesis uid_truthy : Str.truthy uid = true.

#[local] Abbreviation always := (fun _ : World => True).
#[local] Abbreviation answer :=
  (fun (r : option string) (w : World) => exists a, r = Some a /\ cachedRaw uid a w).

Lemma sync_keeps a s :
  triple (cachedRaw uid a) (BankApp.syncAccountNumberToCloud uid s)
    (fun _ => cachedRaw uid a) always.
Proof.
  intros w Hw. pose proof (storage_BankApp_sync uid s w) as H.
  destruct (BankApp.syncAccountNumberToCloud uid s w); [|done].
  unfold after, storageFrame in H. unfold satisfies, cachedRaw. by rewrite H.
Qed.

Lemma setItem_caches a (P : World -> Prop) :
  Str.truthy a = true ->
  triple P (AsyncStorageApi.setItem (BankApp.localAccountKey uid) a)
    (fun _ => cachedRaw uid a) always.
Proof.
  intros Ta w _. unfold AsyncStorageApi.setItem, satisfies, cachedRaw. proj.
  by rewrite lookup_insert_eq.
Qed.

Lemma localFallback_caches (P : World -> Prop) :
  triple P (BankApp.localFallback uid) answer always.
Proof.
  intros w _. unfold BankApp.localFallback.
  destruct (generateAccountNumber w) as [c w1|] eqn:E; [|done].
  rewrite (bind_returned _ _ _ _ _ E), bind_setItem. sat.
  destruct (generateAccountNumber_normal _ _ _ E) as [Tc _].
  exists c. split; [done|]. split; [|done]. proj. by rewrite lookup_insert_eq.
Qed.

Lemma BankApp_reserve_truthy c :
  triple (fun _ => Str.truthy c = true)
    (FirestoreApi.runTransaction (BankApp.reserveAccount uid c))
    (fun a _ => Str.truthy a = true) always.
Proof.
  intros w Hc. unfold FirestoreApi.runTransaction, bind, FirestoreApi.request.
  destruct (outage w (requests w) RunTransaction); [done|].
  unfold BankApp.reserveAccount, FirestoreApi.readUser.
  destruct (nonBlankString _) as [s|] eqn:E.
  - by apply (nonBlankString_truthy _ _ E).
  - destruct (bankAccounts _ !! c); [done|exact Hc].
Qed.

Lemma BankApp_reserveLoop_caches n :
  triple always (BankApp.reserveLoop n uid) answer always.
Proof.
  induction n as [|n IH];
    [rewrite BankApp_reserveLoop_O; apply localFallback_caches
    |rewrite BankApp_reserveLoop_S].
  eapply (triple_bind _ _ _ (fun c _ => Str.truthy c = true)).
  { intros w _. destruct (generateAccountNumber w) as [c w1|] eqn:E; [|done].
    sat. by eapply generateAccountNumber_normal. }
  intros c. eapply triple_tryCatch.
  - eapply triple_bind; [apply (BankApp_reserve_truthy c)|].
    intros a. cbv beta. apply triple_pure. intros Ha.
    eapply triple_bind; [by apply setItem_caches|].
    intros _ w Hw. sat. by exists a.
  - intros [| |]; [apply localFallback_caches|apply IH|apply localFallback_caches].
Qed.

(** After the allocator has returned, the number it returned is cached. *)
Lemma BankApp_ensure_caches :
  triple always (BankApp.ensureBankAccountForUser uid) answer always.
Proof.
  unfold BankApp.ensureBankAccountForUser. rewrite uid_truthy. cbn [negb].
  eapply triple_bind;
    [apply (triple_read (fun w => texts (storage w) !! BankApp.localAccountKey uid))|].
  intros stored. destruct (truthyOpt stored) eqn:Ts.
  { destruct stored as [s|]; [|done]. cbn [truthyOpt from_option id] in *.
    eapply triple_bind.
    - eapply triple_weaken; [apply (sync_keeps s s)| |done..].
      intros w [_ H]. by split.
    - intros _ w Hw. sat. by exists s. }
  apply triple_drop.
  eapply triple_bind; [apply (triple_read firebaseConfigured)|].
  intros ready. apply triple_drop.
  destruct (negb ready); [apply localFallback_caches|].
  eapply (triple_bind _ _ _
            (fun found w => match found with
                            | Some r => answer r w
                            | None => True
                            end)).
  - eapply triple_tryCatch with (E1 := always).
    + eapply triple_bind with (Q1 := fun _ _ => True).
      { intros w _. by destruct (FirestoreApi.getUser uid w). }
      intros snap.
      destruct (nonBlankString (from_option accountNumber JUndefined snap)) as [s|] eqn:E.
      * destruct (nonBlankString_truthy _ _ E) as [_ Tsn].
        eapply triple_bind; [by apply setItem_caches|]. intros u.
        eapply triple_bind; [apply sync_keeps|]. intros u' w Hw. sat. by exists s.
      * intros w _. by sat.
    + intros e. eapply triple_bind; [apply localFallback_caches|].
      intros r w Hr. sat. exact Hr.
  - intros [r|].
    + intros w Hr. sat. exact Hr.
    + apply BankApp_reserveLoop_caches.
Qed.

(** With a cached number, the allocator re-syncs it and returns it. *)
Lemma BankApp_ensure_cached a w :
  cachedRaw uid a w ->
  BankApp.ensureBankAccountForUser uid w
  = (BankApp.syncAccountNumberToCloud uid a ;; ret (Some a)) w.
Proof.
  intros [Ha Ta]. unfold BankApp.ensureBankAccountForUser.
  rewrite uid_truthy. cbn [negb]. rewrite bind_getItem, Ha.
  cbn [truthyOpt from_option id]. by rewrite Ta.
Qed.

End BankAppTwice.

(** ** Ledgers that are left alone *)

Lemma cloudFrame_refl w : cloudFrame w w.
Proof. done. Qed.

Lemma cloudFrame_trans w1 w2 w3 : cloudFrame w1 w2 -> cloudFrame w2 w3 -> cloudFrame w1 w3.
Proof. intros H1 H2 u. by rewrite H2, H1. Qed.

Lemma cloudFrame_same w w' : firestore w' = firestore w -> cloudFrame w w'.
Proof. intros H u. by rewrite H. Qed.

Ltac walk_cloud := walk cloudFrame_refl cloudFrame_trans.

Lemma cloudLedger_writeMapping a v fs u :
  cloudLedger (FirestoreApi.writeMapping a v fs) u = cloudLedger fs u.
Proof. reflexivity. Qed.

Lemma cloudLedger_mergeAccountNumber u0 v fs u :
  cloudLedger (FirestoreApi.mergeAccountNumber u0 v fs) u = cloudLedger fs u.
Proof.
  unfold cloudLedger, FirestoreApi.mergeAccountNumber. proj.
  destruct (decide (u0 = u)) as [->|Hne].
  - rewrite lookup_insert_eq. cbn [bankState].
    by destruct (users fs !! u).
  - by rewrite lookup_insert_ne.
Qed.

Lemma cloudLedger_mergeBankState_ne u0 v fs u :
  u0 <> u -> cloudLedger (FirestoreApi.mergeBankState u0 v fs) u = cloudLedger fs u.
Proof.
  intros Hne. unfold cloudLedger, FirestoreApi.mergeBankState. proj.
  by rewrite lookup_insert_ne.
Qed.

Lemma hasBankState_stateValue s : BankApp.hasBankState (stateValue s) = true.
Proof. reflexivity. Qed.

(** Writing back the ledger that is read changes no ledger. *)
Lemma cloudLedger_mergeBankState_same u0 s fs u :
  cloudLedger fs u0 = s -> wellFormed s = true ->
  Num.max Num.zero (balance s) = balance s ->
  cloudLedger (FirestoreApi.mergeBankState u0 (stateValue s) fs) u = cloudLedger fs u.
Proof.
  intros Hs Hw Hm. destruct (decide (u0 = u)) as [->|Hne];
    [|by apply cloudLedger_mergeBankState_ne].
  rewrite Hs. unfold cloudLedger, FirestoreApi.mergeBankState. proj.
  rewrite lookup_insert_eq. cbn [bankState]. rewrite hasBankState_stateValue.
  by apply normalizeState_stateValue.
Qed.

Lemma cloud_getItem k : preserves cloudFrame (AsyncStorageApi.getItem k).
Proof. intros w. done. Qed.
Lemma cloud_setItem k v : preserves cloudFrame (AsyncStorageApi.setItem k v).
Proof. intros w. done. Qed.
Lemma cloud_removeItem k : preserves cloudFrame (AsyncStorageApi.removeItem k).
Proof. intros w. done. Qed.
Lemma cloud_getJSON k : preserves cloudFrame (AsyncStorageApi.getJSON k).
Proof. intros w. done. Qed.
Lemma cloud_setJSON k v : preserves cloudFrame (AsyncStorageApi.setJSON k v).
Proof. intros w. done. Qed.
Lemma cloud_dateNow : preserves cloudFrame dateNow.
Proof. intros w. done. Qed.
Lemma cloud_randomFourDigits : preserves cloudFrame randomFourDigits.
Proof. intros w. done. Qed.
Lemma cloud_request op : preserves cloudFrame (FirestoreApi.request op).
Proof. intros w. unfold FirestoreApi.request. by destruct (outage w (requests w) op). Qed.
#[export] Hint Resolve cloud_getItem cloud_setItem cloud_removeItem cloud_getJSON
  cloud_setJSON cloud_dateNow cloud_randomFourDigits cloud_request : preserve.

Lemma cloud_getUser u : preserves cloudFrame (FirestoreApi.getUser u).
Proof. unfold FirestoreApi.getUser. walk_cloud. Qed.
Lemma cloud_getMapping a : preserves cloudFrame (FirestoreApi.getMapping a).
Proof. unfold FirestoreApi.getMapping. walk_cloud. Qed.
Lemma cloud_getLegacy u : preserves cloudFrame (FirestoreApi.getLegacy u).
Proof. unfold FirestoreApi.getLegacy. walk_cloud. Qed.
Lemma cloud_setMapping a v : preserves cloudFrame (FirestoreApi.setMapping a v).
Proof.
  unfold FirestoreApi.setMapping.
  apply (preserves_bind _ cloudFrame_trans); [apply cloud_request|].
  intros _ w u. done.
Qed.
Lemma cloud_setUserAccountNumber u0 v :
  preserves cloudFrame (FirestoreApi.setUserAccountNumber u0 v).
Proof.
  unfold FirestoreApi.setUserAccountNumber.
  apply (preserves_bind _ cloudFrame_trans); [apply cloud_request|].
  intros _ w u. unfold after. proj. apply cloudLedger_mergeAccountNumber.
Qed.
#[export] Hint Resolve cloud_getUser cloud_getMapping cloud_getLegacy cloud_setMapping
  cloud_setUserAccountNumber : preserve.

Lemma cloud_BankApp_sync u a : preserves cloudFrame (BankApp.syncAccountNumberToCloud u a).
Proof. unfold BankApp.syncAccountNumberToCloud, BankApp.isFirebaseReady. walk_cloud. Qed.

Lemma cloud_BankApp_getLocalBankState u : preserves cloudFrame (BankApp.getLocalBankState u).
Proof. unfold BankApp.getLocalBankState. walk_cloud. Qed.
#[export] Hint Resolve cloud_BankApp_sync cloud_BankApp_getLocalBankState : preserve.

(** Reading the ledger of [u], and writing it where it belongs, changes
    no ledger: the part of [getBankState] and of [ensureCloudBankDoc] that
    talks to Firestore. *)
Lemma cloudLedger_read fs u :
  cloudLedger fs u
  = match (match users fs !! u with
           | Some userData =>
               if BankApp.hasBankState (bankState userData)
               then Some (normalizeState (bankState userData))
               else None
           | None => None
           end) with
    | Some s => s
    | None => match legacyBank fs !! u with
              | Some data => normalizeState data
              | None => defaultBankState
              end
    end.
Proof.
  unfold cloudLedger. destruct (users fs !! u) as [d|]; [|done].
  by destruct (BankApp.hasBankState (bankState d)).
Qed.

Lemma cloud_BankApp_getBankState : preserves cloudFrame BankApp.getBankState.
Proof.
  intros w. unfold BankApp.getBankState, BankApp.currentUserUid, BankApp.isFirebaseReady.
  unfold bind at 1. cbv beta iota.
  destruct (negb (truthyOpt _)); [done|].
  unfold bind at 1. cbv beta iota.
  destruct (negb (firebaseConfigured w)); [apply cloud_BankApp_getLocalBankState|].
  set (u := default "" _).
  unfold tryCatch.
  match goal with |- cloudFrame w (after match ?body w with _ => _ end) =>
    assert (cloudFrame w (after (body w))) as Hbody end.
  { unfold bind at 1. unfold FirestoreApi.getUser at 1, bind at 1, FirestoreApi.request.
    destruct (outage w (requests w) _); [done|]. cbv beta iota. proj.
    unfold FirestoreApi.readUser.
    pose proof (cloudLedger_read (firestore w) u) as Hread.
    destruct (match users (firestore w) !! u with
              | Some userData => _ | None => None end) as [s|].
    { unfold bind, BankApp.saveLocalBankState, AsyncStorageApi.setJSON. done. }
    unfold bind at 1. unfold FirestoreApi.getLegacy at 1, bind at 1, FirestoreApi.request.
    proj. destruct (outage w (S (requests w)) _); [done|]. cbv beta iota. proj.
    destruct (legacyBank (firestore w) !! u) as [data|].
    - unfold bind at 1. unfold FirestoreApi.setUserBankState at 1, bind at 1,
        FirestoreApi.request. proj.
      destruct (outage w (S (S (requests w))) _); [done|]. cbv beta iota.
      unfold bind, BankApp.saveLocalBankState, AsyncStorageApi.setJSON, ret, after.
      cbv beta iota. proj. intros u'.
      apply cloudLedger_mergeBankState_same;
        [done|apply normalizeState_wellFormed|apply normalizeState_clamped].
    - unfold bind at 1. unfold FirestoreApi.setUserBankState at 1, bind at 1,
        FirestoreApi.request. proj.
      destruct (outage w (S (S (requests w))) _); [done|]. cbv beta iota.
      unfold ret, after. proj. intros u'.
      by apply cloudLedger_mergeBankState_same. }
  match type of Hbody with
  | cloudFrame _ (after ?o) => destruct o as [s w1|e w1]
  end; [exact Hbody|].
  eapply cloudFrame_trans; [exact Hbody|]. apply cloud_BankApp_getLocalBankState.
Qed.

(** *** BankApp: the transfers that are refused *)

Lemma BankApp_transfer_start target a n w uid :
  firebaseConfigured w = true -> authUid w = Some uid -> Str.truthy uid = true ->
  BankApp.transferToAccountByNumber target a n w
  = (let normalizedTarget := Str.toUpperCase (Str.trim target) in
     if negb (Str.matchesAccountPattern normalizedTarget)
     then
       senderState <- BankApp.getBankState ;;
       ret {| ok := false; message := Some InvalidAccount; state := senderState |}
     else
       senderAccountNumber <- BankApp.ensureBankAccountForUser uid ;;
       if truthyOpt senderAccountNumber
          && String.eqb (Str.toUpperCase (Str.trim (default "" senderAccountNumber)))
                        normalizedTarget
       then
         senderState <- BankApp.getBankState ;;
         ret {| ok := false; message := Some SelfTransfer; state := senderState |}
       else
         let safeAmount := safeAmountOf a in
         senderState <- BankApp.getBankState ;;
         if Num.leb safeAmount Num.zero
         then ret {| ok := false; message := Some InvalidAmount; state := senderState |}
         else if Num.ltb (balance senderState) safeAmount
         then ret {| ok := false;
                     message := Some (InsufficientBalance (balance senderState));
                     state := senderState |}
         else
           receiverUidOpt <- BankApp.getUidByAccountNumber normalizedTarget ;;
           if negb (truthyOpt receiverUidOpt)
           then ret {| ok := false; message := Some AccountNotFound; state := senderState |}
           else
             let receiverUid := default "" receiverUidOpt in
             receiverSnapshot <- FirestoreApi.getUser receiverUid ;;
             let receiverState :=
               normalizeState (from_option bankState JUndefined receiverSnapshot) in
             debitNow <- dateNow ;;
             debitCreated <- newDateISO ;;
             let senderNextState :=
               debitedState senderState safeAmount
                 ("tx-" ++ Str.ofN debitNow ++ "-debit")
                 (n ++ " to " ++ normalizedTarget) debitCreated in
             creditNow <- dateNow ;;
             creditCreated <- newDateISO ;;
             let receiverNextState :=
               creditedState receiverState safeAmount
                 ("tx-" ++ Str.ofN creditNow ++ "-credit")
                 (n ++ " from " ++ default uid senderAccountNumber)
                 creditCreated in
             BankApp.persistTransfer uid receiverUid senderNextState receiverNextState
               safeAmount normalizedTarget) w.
Proof.
  intros C U T. unfold BankApp.transferToAccountByNumber.
  unfold bind at 1. unfold BankApp.currentUserUid. rewrite C, U.
  cbn [truthyOpt from_option id]. rewrite T. reflexivity.
Qed.

(** The steps of a transfer to a malformed account number. *)
Lemma BankApp_transfer_invalid target a n w uid :
  firebaseConfigured w = true -> authUid w = Some uid -> Str.truthy uid = true ->
  Str.matchesAccountPattern (Str.toUpperCase (Str.trim target)) = false ->
  exists st w',
    BankApp.getBankState w = Returned st w'
    /\ BankApp.transferToAccountByNumber target a n w
       = Returned {| ok := false; message := Some InvalidAccount; state := st |} w'
    /\ cloudFrame w w'.
Proof.
  intros C U T V. rewrite (BankApp_transfer_start _ _ _ _ _ C U T). cbv zeta.
  rewrite V. cbn [negb].
  destruct (BankApp_getBankState_safe w) as (st & w' & E).
  exists st, w'. rewrite (bind_returned _ _ _ _ _ E).
  repeat split; [exact E|].
  apply (preserves_returned _ _ _ _ _ cloud_BankApp_getBankState E).
Qed.

(** The steps of a transfer to the caller's own account number. *)
Lemma BankApp_transfer_self target a n w uid s w1 :
  firebaseConfigured w = true -> authUid w = Some uid -> Str.truthy uid = true ->
  cachedRaw uid s w ->
  Str.matchesAccountPattern (Str.toUpperCase (Str.trim target)) = true ->
  Str.toUpperCase (Str.trim s) = Str.toUpperCase (Str.trim target) ->
  BankApp.syncAccountNumberToCloud uid s w = Returned tt w1 ->
  exists st w',
    BankApp.getBankState w1 = Returned st w'
    /\ BankApp.transferToAccountByNumber target a n w
       = Returned {| ok := false; message := Some SelfTransfer; state := st |} w'
    /\ cloudFrame w w'.
Proof.
  intros C U T Hc V Hs Es. rewrite (BankApp_transfer_start _ _ _ _ _ C U T). cbv zeta.
  rewrite V. cbn [negb].
  assert (BankApp.ensureBankAccountForUser uid w = Returned (Some s) w1) as Ee.
  { rewrite (BankApp_ensure_cached uid T s w Hc).
    by rewrite (bind_returned _ _ _ _ _ Es). }
  rewrite (bind_returned _ _ _ _ _ Ee). cbn [truthyOpt from_option id].
  destruct Hc as [_ Ts]. rewrite Ts, Hs, String.eqb_refl. cbn [andb].
  destruct (BankApp_getBankState_safe w1) as (st & w' & E).
  exists st, w'. rewrite (bind_returned _ _ _ _ _ E).
  repeat split; [exact E|].
  eapply cloudFrame_trans.
  - apply (preserves_returned _ _ _ _ _ (cloud_BankApp_sync uid s) Es).
  - apply (preserves_returned _ _ _ _ _ cloud_BankApp_getBankState E).
Qed.

(** *** BillMate: what a provisioned user leaves alone *)

Lemma linked_key_ne u u' :
  BillMate.linkedAccountStorageKey u <> BillMate.localAccountStorageKey u'.
Proof. unfold BillMate.linkedAccountStorageKey, BillMate.localAccountStorageKey. done. Qed.

Lemma uid_map_key_ne k :
  BillMate.LOCAL_ACCOUNT_UID_MAP_KEY <> BillMate.localBankStorageKey k.
Proof. unfold BillMate.localBankStorageKey. done. Qed.

Lemma localLedgerFrame_refl w : localLedgerFrame w w.
Proof. done. Qed.

Lemma localLedgerFrame_trans w1 w2 w3 :
  localLedgerFrame w1 w2 -> localLedgerFrame w2 w3 -> localLedgerFrame w1 w3.
Proof. intros H1 H2 k. by rewrite H2, H1. Qed.

Lemma storage_getUser u : preserves storageFrame (FirestoreApi.getUser u).
Proof. unfold FirestoreApi.getUser. walk_storage. Qed.
Lemma storage_getLegacy u : preserves storageFrame (FirestoreApi.getLegacy u).
Proof. unfold FirestoreApi.getLegacy. walk_storage. Qed.
Lemma storage_setUserBankState u v : preserves storageFrame (FirestoreApi.setUserBankState u v).
Proof. unfold FirestoreApi.setUserBankState. walk_storage. Qed.
#[export] Hint Resolve storage_getUser storage_getLegacy storage_setUserBankState : preserve.

Lemma storage_BillMate_ensureCloudBankDoc u :
  preserves storageFrame (BillMate.ensureCloudBankDoc u).
Proof. unfold BillMate.ensureCloudBankDoc, BillMate.saveCloudBankState. walk_storage. Qed.

Lemma env_BillMate_ensureCloudBankDoc u :
  preserves envFrame (BillMate.ensureCloudBankDoc u).
Proof. unfold BillMate.ensureCloudBankDoc, BillMate.saveCloudBankState. walk_env. Qed.

Lemma cloud_BillMate_ensureCloudBankDoc u :
  preserves cloudFrame (BillMate.ensureCloudBankDoc u).
Proof.
  intros w. unfold BillMate.ensureCloudBankDoc.
  unfold bind at 1. unfold FirestoreApi.getUser at 1, bind at 1, FirestoreApi.request.
  destruct (outage w (requests w) _); [done|]. cbv beta iota. proj.
  unfold FirestoreApi.readUser.
  pose proof (cloudLedger_read (firestore w) u) as Hread.
  change BillMate.hasBankState with BankApp.hasBankState.
  destruct (match users (firestore w) !! u with
            | Some userData => _ | None => None end) as [s|]; [done|].
  unfold bind at 1. unfold FirestoreApi.getLegacy at 1, bind at 1, FirestoreApi.request.
  proj. destruct (outage w (S (requests w)) _); [done|]. cbv beta iota. proj.
  destruct (legacyBank (firestore w) !! u) as [data|].
  - unfold bind at 1. unfold BillMate.saveCloudBankState.
    unfold FirestoreApi.setUserBankState at 1, bind at 1, FirestoreApi.request. proj.
    destruct (outage w (S (S (requests w))) _); [done|]. cbv beta iota.
    unfold ret, after. cbv beta iota. proj. intros u'.
    apply cloudLedger_mergeBankState_same;
      [done|apply normalizeState_wellFormed|apply normalizeState_clamped].
  - unfold bind at 1.
    unfold FirestoreApi.setUserBankState at 1, bind at 1, FirestoreApi.request. proj.
    destruct (outage w (S (S (requests w))) _); [done|]. cbv beta iota.
    unfold ret, after. proj. intros u'.
    by apply cloudLedger_mergeBankState_same.
Qed.

Section Hush.
Variable uid : string.

Lemma hush_refl w : hush uid w w.
Proof. intros _ Hp. repeat split; done. Qed.

Lemma hush_trans w1 w2 w3 : hush uid w1 w2 -> hush uid w2 w3 -> hush uid w1 w3.
Proof.
  intros H1 H2 Ha Hp. destruct (H1 Ha Hp) as (Hp2 & He & Hc & Hl).
  assert (authUid w2 = Some uid) as Ha2 by (destruct He as [-> _]; done).
  destruct (H2 Ha2 Hp2) as (Hp3 & He' & Hc' & Hl').
  split; [done|]. split; [eapply envFrame_trans; eassumption|].
  split; [eapply cloudFrame_trans; eassumption|].
  eapply localLedgerFrame_trans; eassumption.
Qed.

(** A step that keeps the plain-text entry of [uid] and writes no
    ledger. *)
Lemma hush_intro w w' :
  (provisioned uid w -> provisioned uid w') -> envFrame w w' ->
  cloudFrame w w' -> localLedgerFrame w w' -> hush uid w w'.
Proof. intros Hp He Hc Hl _ H. auto. Qed.

Ltac walk_hush := walk hush_refl hush_trans.

Lemma hush_getItem k : preserves (hush uid) (AsyncStorageApi.getItem k).
Proof. intros w. apply hush_refl. Qed.
Lemma hush_getJSON k : preserves (hush uid) (AsyncStorageApi.getJSON k).
Proof. intros w. apply hush_refl. Qed.
Lemma hush_dateNow : preserves (hush uid) dateNow.
Proof. intros w. by apply hush_intro. Qed.
Lemma hush_randomFourDigits : preserves (hush uid) randomFourDigits.
Proof. intros w. by apply hush_intro. Qed.
Lemma hush_request op : preserves (hush uid) (FirestoreApi.request op).
Proof.
  intros w. unfold FirestoreApi.request.
  destruct (outage w (requests w) op); by apply hush_intro.
Qed.
Lemma hush_removeLinked u :
  preserves (hush uid) (AsyncStorageApi.removeItem (BillMate.linkedAccountStorageKey u)).
Proof.
  intros w. apply hush_intro; try done.
  intros (s & Hs & Ts). exists s. split; [|done]. unfold after. cbn -[delete].
  rewrite lookup_delete_ne; [done|apply linked_key_ne].
Qed.
Lemma hush_saveLocalUidMap m : preserves (hush uid) (BillMate.saveLocalUidMap m).
Proof.
  intros w. apply hush_intro; try done.
  intros k. unfold after, BillMate.saveLocalUidMap, AsyncStorageApi.setJSON. proj.
  rewrite lookup_insert_ne; [done|apply uid_map_key_ne].
Qed.

Hint Resolve hush_getItem hush_getJSON hush_dateNow hush_randomFourDigits hush_request
  hush_removeLinked hush_saveLocalUidMap : preserve.

Lemma hush_getLocalUidMap : preserves (hush uid) BillMate.getLocalUidMap.
Proof. unfold BillMate.getLocalUidMap. walk_hush. Qed.
Hint Resolve hush_getLocalUidMap : preserve.

Lemma hush_setAccount u v :
  Str.truthy v = true ->
  preserves (hush uid) (AsyncStorageApi.setItem (BillMate.localAccountStorageKey u) v).
Proof.
  intros Tv w. apply hush_intro; try done.
  intros (s & Hs & Ts). unfold provisioned, after, AsyncStorageApi.setItem. proj.
  destruct (decide (BillMate.localAccountStorageKey u = BillMate.localAccountStorageKey uid))
    as [->|Hne].
  - exists v. by rewrite lookup_insert_eq.
  - exists s. by rewrite lookup_insert_ne.
Qed.

Lemma hush_register a u : preserves (hush uid) (BillMate.registerLocalAccountMapping a u).
Proof.
  unfold BillMate.registerLocalAccountMapping.
  destruct (Str.truthy (BillMate.normalizeAccountNumber a)) eqn:Ta; cbn [negb orb].
  - destruct (negb (Str.truthy u)); [apply (preserves_ret _ hush_refl)|].
    apply (preserves_bind _ hush_trans); [by apply hush_setAccount|]. intros _.
    walk_hush.
  - apply (preserves_ret _ hush_refl).
Qed.
Hint Resolve hush_register : preserve.

Lemma hush_getLocalUidByAccountNumber a :
  preserves (hush uid) (BillMate.getLocalUidByAccountNumber a).
Proof. unfold BillMate.getLocalUidByAccountNumber. walk_hush. Qed.
Hint Resolve hush_getLocalUidByAccountNumber : preserve.

Lemma hush_getMapping a : preserves (hush uid) (FirestoreApi.getMapping a).
Proof. unfold FirestoreApi.getMapping. walk_hush. Qed.
Hint Resolve hush_getMapping : preserve.

Lemma hush_getUidByAccountNumber a :
  preserves (hush uid) (BillMate.getUidByAccountNumber a).
Proof.
  unfold BillMate.getUidByAccountNumber, BillMate.isFirebaseConfigured. walk_hush.
Qed.
Hint Resolve hush_getUidByAccountNumber : preserve.

Lemma hush_getLocalBankState k : preserves (hush uid) (BillMate.getLocalBankState k).
Proof. unfold BillMate.getLocalBankState. walk_hush. Qed.
Hint Resolve hush_getLocalBankState : preserve.

(** The remote read of a ledger writes it back where it belongs and
    nothing else. *)
Lemma hush_ensureCloudBankDoc u : preserves (hush uid) (BillMate.ensureCloudBankDoc u).
Proof.
  intros w. apply hush_intro.
  - intros Hp.
    pose proof (storage_BillMate_ensureCloudBankDoc u w) as Hs.
    unfold storageFrame in Hs. unfold provisioned. by rewrite Hs.
  - apply env_BillMate_ensureCloudBankDoc.
  - apply cloud_BillMate_ensureCloudBankDoc.
  - intros k. pose proof (storage_BillMate_ensureCloudBankDoc u w) as Hs.
    unfold storageFrame in Hs. by rewrite Hs.
Qed.
Hint Resolve hush_ensureCloudBankDoc : preserve.

Lemma hush_ensure : preserves (hush uid) (BillMate.ensureBankAccountForUser uid).
Proof.
  intros w Ha Hp. pose proof Hp as (s & Hs & Ts).
  assert (preserves (hush uid)
    (BillMate.registerLocalAccountMapping (BillMate.normalizeAccountNumber s) uid ;;
      ret (Some (BillMate.normalizeAccountNumber s)))%async) as H by walk_hush.
  specialize (H w Ha Hp). revert H.
  unfold BillMate.ensureBankAccountForUser.
  destruct (negb (Str.truthy uid)); [intros _; exact (hush_refl w Ha Hp)|].
  rewrite bind_getItem, Hs. cbn [truthyOpt from_option id]. rewrite Ts.
  cbv zeta. intros H. exact H.
Qed.

Lemma BillMate_resolve_start w :
  authUid w = Some uid ->
  BillMate.resolveBankOwnerContext w
  = (if negb (Str.truthy uid)
     then ret {| BillMate.cloudOwnerUid := None; BillMate.localOwnerKey := "guest" |}
     else
    (ownAccountNumber <- BillMate.ensureBankAccountForUser uid ;;
     configured <- BillMate.isFirebaseConfigured ;;
     linkedAccountNumber <- AsyncStorageApi.getItem (BillMate.linkedAccountStorageKey uid) ;;
     linked <-
      (if truthyOpt linkedAccountNumber
       then
         linkedUid <- BillMate.getUidByAccountNumber (default "" linkedAccountNumber) ;;
         if truthyOpt linkedUid
         then ret (Some {| BillMate.cloudOwnerUid := if configured then linkedUid else None;
                           BillMate.localOwnerKey :=
                             ("acc:" ++ BillMate.normalizeAccountNumber
                                          (default "" linkedAccountNumber))%string |})
         else AsyncStorageApi.removeItem (BillMate.linkedAccountStorageKey uid) ;; ret None
       else ret None) ;;
    match linked with
    | Some context => ret context
    | None =>
        ret {| BillMate.cloudOwnerUid := if configured then Some uid else None;
               BillMate.localOwnerKey :=
                 if truthyOpt ownAccountNumber
                 then ("acc:" ++ default "" ownAccountNumber)%string
                 else ("uid:" ++ uid)%string |}
    end)%async) w.
Proof.
  intros Ha. unfold BillMate.resolveBankOwnerContext, BillMate.currentUserUid.
  unfold bind at 1. cbv beta iota. rewrite Ha. reflexivity.
Qed.

Lemma hush_resolve : preserves (hush uid) BillMate.resolveBankOwnerContext.
Proof.
  intros w Ha. rewrite (BillMate_resolve_start w Ha). revert w Ha.
  assert (preserves (hush uid)
    (if negb (Str.truthy uid)
     then ret {| BillMate.cloudOwnerUid := None; BillMate.localOwnerKey := "guest" |}
     else
    (ownAccountNumber <- BillMate.ensureBankAccountForUser uid ;;
     configured <- BillMate.isFirebaseConfigured ;;
     linkedAccountNumber <- AsyncStorageApi.getItem (BillMate.linkedAccountStorageKey uid) ;;
     linked <-
      (if truthyOpt linkedAccountNumber
       then
         linkedUid <- BillMate.getUidByAccountNumber (default "" linkedAccountNumber) ;;
         if truthyOpt linkedUid
         then ret (Some {| BillMate.cloudOwnerUid := if configured then linkedUid else None;
                           BillMate.localOwnerKey :=
                             ("acc:" ++ BillMate.normalizeAccountNumber
                                          (default "" linkedAccountNumber))%string |})
         else AsyncStorageApi.removeItem (BillMate.linkedAccountStorageKey uid) ;; ret None
       else ret None) ;;
    match linked with
    | Some context => ret context
    | None =>
        ret {| BillMate.cloudOwnerUid := if configured then Some uid else None;
               BillMate.localOwnerKey :=
                 if truthyOpt ownAccountNumber
                 then ("acc:" ++ default "" ownAccountNumber)%string
                 else ("uid:" ++ uid)%string |}
    end)%async)) as H.
  { destruct (negb (Str.truthy uid)); [apply (preserves_ret _ hush_refl)|].
    apply (preserves_bind _ hush_trans); [apply hush_ensure|]. intros own.
    unfold BillMate.isFirebaseConfigured. walk_hush. }
  intros w Ha. by apply H.
Qed.
Hint Resolve hush_resolve : preserve.

Lemma hush_getBankState : preserves (hush uid) BillMate.getBankState.
Proof. unfold BillMate.getBankState. walk_hush. Qed.

Variable account : string.
Variable a : Num.number.
Variable n : string.
#[local] Abbreviation T := (BillMate.normalizeAccountNumber account).

(** A payment by the signed-in user goes on from the state that is
    read. *)
Lemma BillMate_pay_start w st w1 :
  authUid w = Some uid -> Str.truthy uid = true ->
  BillMate.getBankState w = Returned st w1 ->
  BillMate.payToAccountByNumber account a n w
  = (if negb (Str.truthy T) || negb (BillMate.isValidAccountNumber T)
     then ret {| ok := false; state := st; message := Some InvalidAccount |}
     else
       if Num.leb (safeAmountOf a) Num.zero
       then ret {| ok := false; state := st; message := Some InvalidAmount |}
       else
         ownAccountNumber <- BillMate.ensureBankAccountForUser uid ;;
         if truthyOpt ownAccountNumber
            && String.eqb (BillMate.normalizeAccountNumber (default "" ownAccountNumber)) T
         then ret {| ok := false; state := st; message := Some SelfTransfer |}
         else if Num.ltb (balance st) (safeAmountOf a)
         then ret {| ok := false; state := st;
                     message := Some (InsufficientBalance (balance st)) |}
         else
           recipientUid <- BillMate.getUidByAccountNumber T ;;
           if negb (truthyOpt recipientUid)
           then ret {| ok := false; state := st; message := Some AccountNotFound |}
           else
             let recipient := default "" recipientUid in
             payerOwnerContext <- BillMate.resolveBankOwnerContext ;;
             debitNow <- dateNow ;;
             debitCreated <- newDateISO ;;
             let payerNextState :=
               debitedState st (safeAmountOf a)
                 ("tx-" ++ Str.ofN debitNow ++ "-debit")
                 (n ++ " to " ++ T) debitCreated in
             configured <- BillMate.isFirebaseConfigured ;;
             let recipientOwnerContext :=
               {| BillMate.cloudOwnerUid := if configured then Some recipient else None;
                  BillMate.localOwnerKey := ("acc:" ++ T)%string |} in
             recipientPreviousState <-
               (if truthyOpt (BillMate.cloudOwnerUid recipientOwnerContext)
                then BillMate.ensureCloudBankDoc recipient
                else BillMate.getLocalBankState
                       (BillMate.localOwnerKey recipientOwnerContext)) ;;
             creditNow <- dateNow ;;
             creditCreated <- newDateISO ;;
             let recipientNextState :=
               creditedState recipientPreviousState (safeAmountOf a)
                 ("tx-" ++ Str.ofN creditNow ++ "-credit")
                 (n ++ " from " ++ default uid ownAccountNumber) creditCreated in
             BillMate.persistPayment payerOwnerContext recipientOwnerContext
               payerNextState recipientNextState (safeAmountOf a) T) w1.
Proof.
  intros U Tr E. unfold BillMate.payToAccountByNumber.
  unfold bind at 1. unfold BillMate.currentUserUid. cbv beta iota.
  rewrite (bind_returned _ _ _ _ _ E), U. cbn [truthyOpt from_option id].
  rewrite Tr. reflexivity.
Qed.

(** The steps of a payment to the caller's own account number: the
    amount is looked at first. *)
Lemma BillMate_pay_self w :
  authUid w = Some uid -> Str.truthy uid = true -> provisioned uid w ->
  BillMate.isValidAccountNumber T = true ->
  exists st w1 own w2,
    BillMate.getBankState w = Returned st w1
    /\ BillMate.ensureBankAccountForUser uid w1 = Returned (Some own) w2
    /\ (BillMate.normalizeAccountNumber own = T ->
        exists w',
          BillMate.payToAccountByNumber account a n w
          = Returned {| ok := false; state := st;
                        message := Some (if Num.leb (safeAmountOf a) Num.zero
                                         then InvalidAmount else SelfTransfer) |} w'
          /\ cloudFrame w w' /\ localLedgerFrame w w').
Proof.
  intros U Tr Hp V.
  destruct (BillMate_getBankState_safe w) as (st & w1 & E).
  pose proof (preserves_returned _ _ _ _ _ hush_getBankState E U Hp)
    as (Hp1 & He1 & Hc1 & Hl1).
  assert (authUid w1 = Some uid) as U1 by (destruct He1 as [-> _]; done).
  destruct (BillMate_ensureBankAccountForUser_safe uid w1) as (own & w2 & Ee).
  pose proof (preserves_returned _ _ _ _ _ hush_ensure Ee U1 Hp1)
    as (Hp2 & He2 & Hc2 & Hl2).
  assert (exists o, own = Some o) as [o ->].
  { revert Ee. unfold BillMate.ensureBankAccountForUser. rewrite Tr. cbn [negb].
    destruct Hp1 as (s & Hs & Ts). rewrite bind_getItem, Hs.
    cbn [truthyOpt from_option id]. rewrite Ts. cbv zeta. intros Ee.
    apply bind_inv in Ee as (? & ? & _ & Er). injection Er as <- _. by eexists. }
  exists st, w1, o, w2. split; [exact E|]. split; [exact Ee|]. intros Ho.
  rewrite (BillMate_pay_start _ _ _ U Tr E), V.
  assert (Str.truthy T = true) as TT.
  { by apply matchesAccountPattern_truthy. }
  rewrite TT. cbn [negb orb].
  destruct (Num.leb (safeAmountOf a) Num.zero).
  - exists w1. by repeat split.
  - rewrite (bind_returned _ _ _ _ _ Ee). cbn [truthyOpt from_option id].
    rewrite Ho, String.eqb_refl.
    assert (Str.truthy o = true) as To.
    { destruct (Str.truthy o) eqn:X; [done|]. exfalso.
      assert (o = "") as -> by (by destruct o).
      rewrite <- Ho in TT. done. }
    rewrite To. cbn [andb]. exists w2. split; [reflexivity|].
    split; [eapply cloudFrame_trans|eapply localLedgerFrame_trans]; eassumption.
Qed.

End Hush.

(** *** BankApp: what reading the ledger writes *)

Section CacheRefresh.
Variable uid : string.

Lemma cacheRefresh_refl w : cacheRefresh uid w w.
Proof. by split. Qed.

Lemma cacheRefresh_trans w1 w2 w3 :
  cacheRefresh uid w1 w2 -> cacheRefresh uid w2 w3 -> cacheRefresh uid w1 w3.
Proof.
  intros [T1 J1] [T2 J2]. split; [by rewrite T2|].
  intros k Hk. by rewrite J2, J1.
Qed.

Lemma cacheRefresh_storage {A} (m : M A) :
  preserves storageFrame m -> preserves (cacheRefresh uid) m.
Proof. intros H w. specialize (H w). unfold storageFrame in H. split; by rewrite H. Qed.

Ltac walk_refresh := walk cacheRefresh_refl cacheRefresh_trans.

Lemma refresh_getUser u : preserves (cacheRefresh uid) (FirestoreApi.getUser u).
Proof. apply cacheRefresh_storage, storage_getUser. Qed.
Lemma refresh_getLegacy u : preserves (cacheRefresh uid) (FirestoreApi.getLegacy u).
Proof. apply cacheRefresh_storage, storage_getLegacy. Qed.
Lemma refresh_setUserBankState u v :
  preserves (cacheRefresh uid) (FirestoreApi.setUserBankState u v).
Proof. apply cacheRefresh_storage, storage_setUserBankState. Qed.
Lemma refresh_getJSON k : preserves (cacheRefresh uid) (AsyncStorageApi.getJSON k).
Proof. intros w. apply cacheRefresh_refl. Qed.
Lemma refresh_saveLocalBankState st :
  preserves (cacheRefresh uid) (BankApp.saveLocalBankState uid st).
Proof.
  intros w. split; [done|]. intros k Hk.
  unfold after, BankApp.saveLocalBankState, AsyncStorageApi.setJSON. proj.
  by rewrite lookup_insert_ne.
Qed.
Hint Resolve refresh_getUser refresh_getLegacy refresh_setUserBankState
  refresh_getJSON refresh_saveLocalBankState : preserve.

Lemma refresh_getLocalBankState : preserves (cacheRefresh uid) (BankApp.getLocalBankState uid).
Proof. unfold BankApp.getLocalBankState. walk_refresh. Qed.

(** Reading the ledger of the signed-in user writes, in the local
    cache, the cached ledger of that user and nothing else. *)
Lemma refresh_getBankState w :
  authUid w = Some uid -> cacheRefresh uid w (after (BankApp.getBankState w)).
Proof.
  intros U.
  assert (BankApp.getBankState w
          = (if negb (truthyOpt (if firebaseConfigured w then Some uid else None))
             then ret defaultBankState
             else
               tryCatch
                 (userSnapshot <- FirestoreApi.getUser uid ;;
                  match (match userSnapshot with
                         | Some userData =>
                             if BankApp.hasBankState (bankState userData)
                             then Some (normalizeState (bankState userData))
                             else None
                         | None => None
                         end) with
                  | Some normalizedUserBankState =>
                      BankApp.saveLocalBankState uid normalizedUserBankState ;;
                      ret normalizedUserBankState
                  | None =>
                      legacyBankSnapshot <- FirestoreApi.getLegacy uid ;;
                      match legacyBankSnapshot with
                      | Some data =>
                          FirestoreApi.setUserBankState uid
                            (stateValue (normalizeState data)) ;;
                          BankApp.saveLocalBankState uid (normalizeState data) ;;
                          ret (normalizeState data)
                      | None =>
                          FirestoreApi.setUserBankState uid (stateValue defaultBankState) ;;
                          ret defaultBankState
                      end
                  end)
                 (fun _ => BankApp.getLocalBankState uid)) w) as ->.
  { unfold BankApp.getBankState, BankApp.currentUserUid, BankApp.isFirebaseReady.
    unfold bind at 1. cbv beta iota. rewrite U.
    destruct (firebaseConfigured w) eqn:C; [|reflexivity].
    cbn [truthyOpt from_option id]. destruct (Str.truthy uid); [|reflexivity].
    cbn [negb]. unfold bind at 1. cbv beta iota. rewrite C. reflexivity. }
  revert w U.
  assert (forall b : bool, preserves (cacheRefresh uid)
    (if b then ret defaultBankState
     else
               tryCatch
                 (userSnapshot <- FirestoreApi.getUser uid ;;
                  match (match userSnapshot with
                         | Some userData =>
                             if BankApp.hasBankState (bankState userData)
                             then Some (normalizeState (bankState userData))
                             else None
                         | None => None
                         end) with
                  | Some normalizedUserBankState =>
                      BankApp.saveLocalBankState uid normalizedUserBankState ;;
                      ret normalizedUserBankState
                  | None =>
                      legacyBankSnapshot <- FirestoreApi.getLegacy uid ;;
                      match legacyBankSnapshot with
                      | Some data =>
                          FirestoreApi.setUserBankState uid
                            (stateValue (normalizeState data)) ;;
                          BankApp.saveLocalBankState uid (normalizeState data) ;;
                          ret (normalizeState data)
                      | None =>
                          FirestoreApi.setUserBankState uid (stateValue defaultBankState) ;;
                          ret defaultBankState
                      end
                  end)
                 (fun _ => BankApp.getLocalBankState uid))) as H.
  { intros b. destruct b; [apply (preserves_ret _ cacheRefresh_refl)|].
    apply (preserves_tryCatch _ cacheRefresh_trans);
      [|intros _; apply refresh_getLocalBankState].
    apply (preserves_bind _ cacheRefresh_trans); [apply refresh_getUser|].
    intros snap.
    destruct (match snap with
              | Some userData => _ | None => None end) as [s|]; walk_refresh. }
  intros w _. apply H.
Qed.

End CacheRefresh.

(** *** BankApp: the allocator, cached or not *)

Lemma BankApp_ensure_valid uid w r w' :
  Str.truthy uid = true -> clockSane w -> recordedNumbersValidRaw uid w ->
  BankApp.ensureBankAccountForUser uid w = Returned r w' ->
  exists a, r = Some a /\ Str.matchesAccountPattern a = true.
Proof.
  intros Tu Hk Hr. unfold BankApp.ensureBankAccountForUser. rewrite Tu. cbn [negb].
  rewrite bind_getItem.
  destruct (texts (storage w) !! BankApp.localAccountKey uid) as [s|] eqn:Es.
  - cbn [truthyOpt from_option id]. destruct (Str.truthy s) eqn:Ts.
    + intros E. apply bind_inv in E as (? & ? & _ & E). injection E as <- _.
      exists s. split; [done|]. destruct Hr as [Hl _]. by apply Hl.
    + intros E. pose proof (BankApp_ensure_uncached uid w (conj Hk Hr)) as H.
      rewrite E in H. exact H.
  - cbn [truthyOpt]. intros E.
    pose proof (BankApp_ensure_uncached uid w (conj Hk Hr)) as H.
    rewrite E in H. exact H.
Qed.

(** Without a cached number the allocator of BankApp never rejects. *)
Lemma BankApp_ensure_fresh uid w :
  Str.truthy uid = true -> clockSane w -> recordedNumbersValidRaw uid w ->
  texts (storage w) !! BankApp.localAccountKey uid = None ->
  exists a w', BankApp.ensureBankAccountForUser uid w = Returned (Some a) w'
               /\ Str.matchesAccountPattern a = true.
Proof.
  intros Tu Hk Hr Es.
  pose proof (BankApp_ensure_uncached uid w (conj Hk Hr)) as H. revert H.
  unfold BankApp.ensureBankAccountForUser. rewrite Tu. cbn [negb].
  rewrite bind_getItem, Es. cbn [truthyOpt].
  match goal with |- satisfies _ _ ?o -> _ => destruct o as [r w'|e w'] end; [|done].
  intros (a & -> & Ha). by exists a, w'.
Qed.

(** ** The properties of the ledger *)

Lemma creditOf_creditedState prev a i n c : creditOf prev a n (creditedState prev a i n c).
Proof. split; [done|]. by exists i, c. Qed.

Lemma debitOf_debitedState prev a i n c : debitOf prev a n (debitedState prev a i n c).
Proof. split; [done|]. by exists i, c. Qed.

(** Evaluates a run on a scenario. *)
Ltac run := vm_compute; reflexivity.

(** Where one write of [persistStateForOwner] goes, and what it leaves
    alone. *)
Lemma BillMate_persistStateForOwner_cases ctx st W :
  exists W',
    BillMate.persistStateForOwner ctx st W = Returned tt W'
    /\ storedFor ctx st (acceptedRemotely ctx W (requests W)) W'
    /\ outage W' = outage W
    /\ requests W'
       = (if truthyOpt (BillMate.cloudOwnerUid ctx) then S (requests W) else requests W)
    /\ (acceptedRemotely ctx W (requests W) = true ->
        storage W' = storage W
        /\ firestore W'
           = FirestoreApi.mergeBankState (default "" (BillMate.cloudOwnerUid ctx))
               (stateValue st) (firestore W))
    /\ (acceptedRemotely ctx W (requests W) = false ->
        firestore W' = firestore W
        /\ texts (storage W') = texts (storage W)
        /\ jsons (storage W')
           = <[BillMate.localBankStorageKey (BillMate.localOwnerKey ctx) := stateJSON st]>
               (jsons (storage W))).
Proof.
  unfold BillMate.persistStateForOwner, BillMate.saveCloudBankState,
    BillMate.saveLocalBankState, AsyncStorageApi.setJSON,
    FirestoreApi.setUserBankState, FirestoreApi.request, tryCatch, bind,
    storedFor, acceptedRemotely.
  destruct (truthyOpt (BillMate.cloudOwnerUid ctx)) eqn:Tc; cbn [andb].
  - destruct (outage W (requests W) _); cbn [negb]; eexists;
      (split; [reflexivity|]);
      cbn [firestore storage setFirestore setStorage countRequest jsons texts outage
           requests].
    + split; [by rewrite lookup_insert_eq|]. by repeat split.
    + split; [apply mergeBankState_lookup|]. by repeat split.
  - eexists. split; [reflexivity|].
    cbn [firestore storage setFirestore setStorage countRequest jsons texts outage
         requests].
    split; [by rewrite lookup_insert_eq|]. by repeat split.
Qed.

(** Where the two writes of the persist step of a payment go. *)
Lemma BillMate_persistPayment_stored pc rc pn rn a T W res W' :
  BillMate.persistPayment pc rc pn rn a T W = Returned res W' ->
  paymentStored pc rc pn rn W W'.
Proof.
  intros H. unfold BillMate.persistPayment in H.
  destruct (BillMate_persistStateForOwner_cases pc pn W)
    as (W1 & E1 & S1 & O1 & R1 & Y1 & N1).
  rewrite (bind_returned _ _ _ _ _ E1) in H.
  destruct (BillMate_persistStateForOwner_cases rc rn W1)
    as (W2 & E2 & S2 & O2 & R2 & Y2 & N2).
  rewrite (bind_returned _ _ _ _ _ E2) in H. injection H as _ <-.
  unfold paymentStored. cbv zeta.
  unfold acceptedRemotely in S2, Y2, N2. rewrite O1, R1 in S2, Y2, N2.
  fold (acceptedRemotely rc W
          (if truthyOpt (BillMate.cloudOwnerUid pc) then S (requests W) else requests W))
    in S2, Y2, N2.
  split; [exact S2|]. intros Hslot.
  unfold storedFor in S1 |- *. unfold sameSlot in Hslot.
  destruct (acceptedRemotely pc W (requests W)) eqn:P;
    destruct (acceptedRemotely rc W _) eqn:Q.
  - destruct (Y2 eq_refl) as [_ ->]. rewrite mergeBankState_lookup_ne; [exact S1|].
    intros K. apply Hslot. by split.
  - destruct (N2 eq_refl) as [-> _]. exact S1.
  - destruct (Y2 eq_refl) as [-> _]. exact S1.
  - destruct (N2 eq_refl) as (_ & _ & ->). rewrite lookup_insert_ne; [exact S1|].
    intros K. apply BillMate_localBankStorageKey_inj in K. apply Hslot. by split.
Qed.






Lemma debitAnswer_verdict prev a n r :
  clamped prev -> debitAnswer prev a n r -> debitVerdict prev a r.
Proof.
  intros Hc H. split; [by apply (debitAnswer_guard prev a n)|].
  intros F P. destruct H as [[_ ->]|[(P' & _)|(P' & _)]]; [done| |];
    rewrite (safeAmountOf_finite a F) in P'; congruence.
Qed.

(** The debit leg of a transfer to another account. *)
Lemma BankApp_transfer_leg target a n w uid acct w1 st w2 :
  firebaseConfigured w = true -> authUid w = Some uid -> Str.truthy uid = true ->
  Str.matchesAccountPattern (Str.toUpperCase (Str.trim target)) = true ->
  BankApp.ensureBankAccountForUser uid w = Returned acct w1 ->
  truthyOpt acct
  && String.eqb (Str.toUpperCase (Str.trim (default "" acct)))
                (Str.toUpperCase (Str.trim target)) = false ->
  BankApp.getBankState w1 = Returned st w2 ->
  legVerdict st a (BankApp.transferToAccountByNumber target a n w).
Proof.
  intros C U T V Ee Hself Eg.
  pose proof (BankApp_getBankState_clamped _ _ _ Eg) as Hc.
  pose proof (clamped_nonneg _ Hc) as Hn.
  rewrite (BankApp_transfer_start _ _ _ _ _ C U T).
  cbv zeta. rewrite V. cbn [negb].
  rewrite (bind_returned _ _ _ _ _ Ee), Hself, (bind_returned _ _ _ _ _ Eg).
  destruct (Num.leb (safeAmountOf a) Num.zero) eqn:P.
  { split; [|split].
    - intros F L. rewrite (safeAmountOf_finite a F) in P.
      by rewrite (above_nonneg_positive _ _ Hn L) in P.
    - intros _. by eexists.
    - unfold ret. intros r w' [= <- <-]. cbn. split; [done|]. intros [?|?]; done. }
  destruct (safeAmountOf_positive a P) as (F & Ea & P'). rewrite Ea in *.
  destruct (Num.ltb (balance st) a) eqn:L.
  { split; [|split].
    - intros _ _. by eexists.
    - intros [F'|P'']; congruence.
    - unfold ret. intros r w' [= <- <-]. cbn. split; [done|]. intros [?|?]; done. }
  split; [intros _ ?; congruence|]. split; [intros [?|?]; congruence|].
  intros r w' H.
  inv_bind H ru w3 E3.
  destruct (truthyOpt ru) eqn:Tru; cbn [negb] in H.
  2:{ unfold ret in H. injection H as <- <-. cbn. split; [done|]. intros [?|?]; done. }
  inv_bind H snap w4 E4.
  rewrite bind_dateNow, bind_newDateISO, bind_dateNow, bind_newDateISO in H.
  cbv zeta in H.
  destruct (BankApp_persistTransfer_inv _ _ _ _ _ _ _ _ _ H)
    as (Hs & _ & _ & Hyes & Hno).
  split.
  - intros Hok Hm. by destruct (Hm (Hno Hok)).
  - intros _. split; [done|]. rewrite Hs. cbn. split; [done|].
    intros Va Vb. by apply sub_nonneg.
Qed.

(** The debit leg of a payment to another account. *)
Lemma BillMate_pay_leg account a n w uid st w1 own w2 :
  authUid w = Some uid -> Str.truthy uid = true ->
  BillMate.isValidAccountNumber (BillMate.normalizeAccountNumber account) = true ->
  BillMate.getBankState w = Returned st w1 ->
  BillMate.ensureBankAccountForUser uid w1 = Returned own w2 ->
  truthyOpt own
  && String.eqb (BillMate.normalizeAccountNumber (default "" own))
                (BillMate.normalizeAccountNumber account) = false ->
  legVerdict st a (BillMate.payToAccountByNumber account a n w).
Proof.
  intros U Tr V E Ee Hself.
  pose proof (BillMate_getBankState_clamped _ _ _ E) as Hc.
  pose proof (clamped_nonneg _ Hc) as Hn.
  rewrite (BillMate_pay_start uid account a n _ _ _ U Tr E), V.
  rewrite (matchesAccountPattern_truthy _ V). cbn [negb orb].
  destruct (Num.leb (safeAmountOf a) Num.zero) eqn:P.
  { split; [|split].
    - intros F L. rewrite (safeAmountOf_finite a F) in P.
      by rewrite (above_nonneg_positive _ _ Hn L) in P.
    - intros _. by eexists.
    - unfold ret. intros r w' [= <- <-]. cbn. split; [done|]. intros [?|?]; done. }
  destruct (safeAmountOf_positive a P) as (F & Ea & P'). rewrite Ea in *.
  rewrite (bind_returned _ _ _ _ _ Ee), Hself.
  destruct (Num.ltb (balance st) a) eqn:L.
  { split; [|split].
    - intros _ _. by eexists.
    - intros [F'|P'']; congruence.
    - unfold ret. intros r w' [= <- <-]. cbn. split; [done|]. intros [?|?]; done. }
  split; [intros _ ?; congruence|]. split; [intros [?|?]; congruence|].
  intros r w' H.
  inv_bind H ru w3 E3.
  destruct (truthyOpt ru) eqn:Tru; cbn [negb] in H.
  2:{ unfold ret in H. injection H as <- <-. cbn. split; [done|]. intros [?|?]; done. }
  inv_bind H pc w4 E4.
  rewrite bind_dateNow, bind_newDateISO in H. cbv zeta in H.
  inv_bind H cfg w4' Ecfg.
  inv_bind H rs w5 E5.
  rewrite bind_dateNow, bind_newDateISO in H.
  destruct (BillMate_persistPayment_inv _ _ _ _ _ _ _ _ _ H) as (-> & _).
  cbn. split; [done|]. intros _. split; [done|]. split; [done|].
  intros Va Vb. by apply sub_nonneg.
Qed.

(** C3, as the code has it: a debit of a finite amount that exceeds the
    balance is answered [InsufficientBalance]; an amount that is not
    finite (the infinite amount too, which exceeds every balance) or that
    is not above 0 is answered [InvalidAmount]; an answer that is not
    [ok] carries the state that was read; an answer that is [ok] carries
    the balance minus the amount, which is not negative. The same holds
    for the debit leg of a transfer and of a payment to another account,
    where a transfer of BankApp whose debit went through may still report
    a partial failure, and then carries the debited state. *)
Theorem debit_guard (a : Num.number) (n : string) :
  (forall w prev w1,
     Legacy.getBankState w = Returned prev w1 ->
     exists r w', Legacy.tryDeductVirtualMoney a n w = Returned r w'
                  /\ debitVerdict prev a r)
  /\ (forall w ctx w1 prev w2,
        BillMate.resolveBankOwnerContext w = Returned ctx w1 ->
        BillMate.getBankState w1 = Returned prev w2 ->
        exists r w', BillMate.tryDeductVirtualMoney a n w = Returned r w'
                     /\ debitVerdict prev a r)
  /\ (forall target w uid acct w1 st w2,
        firebaseConfigured w = true -> authUid w = Some uid -> Str.truthy uid = true ->
        Str.matchesAccountPattern (Str.toUpperCase (Str.trim target)) = true ->
        BankApp.ensureBankAccountForUser uid w = Returned acct w1 ->
        truthyOpt acct
        && String.eqb (Str.toUpperCase (Str.trim (default "" acct)))
                      (Str.toUpperCase (Str.trim target)) = false ->
        BankApp.getBankState w1 = Returned st w2 ->
        legVerdict st a (BankApp.transferToAccountByNumber target a n w))
  /\ (forall account w uid st w1 own w2,
        authUid w = Some uid -> Str.truthy uid = true ->
        BillMate.isValidAccountNumber (BillMate.normalizeAccountNumber account) = true ->
        BillMate.getBankState w = Returned st w1 ->
        BillMate.ensureBankAccountForUser uid w1 = Returned own w2 ->
        truthyOpt own
        && String.eqb (BillMate.normalizeAccountNumber (default "" own))
                      (BillMate.normalizeAccountNumber account) = false ->
        legVerdict st a (BillMate.payToAccountByNumber account a n w)).
Proof.
  split; [|split; [|split]].
  - intros w prev w1 E.
    destruct (Legacy_tryDeduct_answer w a n prev w1 E) as (r & w' & H & Ha).
    exists r, w'. split; [exact H|].
    eapply debitAnswer_verdict; [|exact Ha]. by eapply Legacy_getBankState_clamped.
  - intros w ctx w1 prev w2 E1 E2.
    destruct (BillMate_tryDeduct_answer w a n ctx w1 prev w2 E1 E2) as (r & w' & H & Ha).
    exists r, w'. split; [exact H|].
    eapply debitAnswer_verdict; [|exact Ha]. by eapply BillMate_getBankState_clamped.
  - intros target w uid acct w1 st w2 C U T V Ee Hs Eg.
    by apply (BankApp_transfer_leg target a n w uid acct w1 st w2).
  - intros account w uid st w1 own w2 U T V Eg Ee Hs.
    by apply (BillMate_pay_leg account a n w uid st w1 own w2).
Qed.

Lemma debit_guard_witness :
  (exists r w',
     Legacy.tryDeductVirtualMoney (Num.ofZ 130) "Bill" Scenario.wallet = Returned r w'
     /\ debitVerdict (Scenario.ledger 100) (Num.ofZ 130) r)
  /\ legVerdict (Scenario.ledger 100) (Num.ofZ 130)
       (BankApp.transferToAccountByNumber "BM22222222" (Num.ofZ 130) "QR payment"
          Scenario.online)
  /\ legVerdict (Scenario.ledger 100) (Num.ofZ 130)
       (BillMate.payToAccountByNumber "BM22222222" (Num.ofZ 130) "QR payment"
          Scenario.online).
Proof.
  pose proof (debit_guard (Num.ofZ 130) "Bill") as (HL & _).
  pose proof (debit_guard (Num.ofZ 130) "QR payment") as (_ & _ & HA & HM).
  split; [|split].
  - apply (HL Scenario.wallet (Scenario.ledger 100) Scenario.wallet). run.
  - apply (HA "BM22222222" Scenario.online "alice" (Some "BM11111111")
             (after (BankApp.ensureBankAccountForUser "alice" Scenario.online))
             (Scenario.ledger 100)
             (after (BankApp.getBankState
                       (after (BankApp.ensureBankAccountForUser "alice"
                                 Scenario.online))))); run.
  - apply (HM "BM22222222" Scenario.online "alice" (Scenario.ledger 100)
             (after (BillMate.getBankState Scenario.online)) (Some "BM11111111")
             (after (BillMate.ensureBankAccountForUser "alice"
                       (after (BillMate.getBankState Scenario.online))))); run.
Defined.

(** The answer to an infinite amount has the message of an invalid
    amount although the amount exceeds the balance. *)
Lemma debit_infinite_counterexample :
  exists prev w1 r w',
    Legacy.getBankState Scenario.wallet = Returned prev w1
    /\ Num.ltb (balance prev) Num.Infinity = true
    /\ Legacy.tryDeductVirtualMoney Num.Infinity "Bill" Scenario.wallet = Returned r w'
    /\ message r = Some InvalidAmount
    /\ message r <> Some (InsufficientBalance (balance prev)).
Proof.
  exists (Scenario.ledger 100), Scenario.wallet,
    (Scenario.refused InvalidAmount), Scenario.wallet.
  split; [run|]. split; [run|]. split; [run|]. split; [reflexivity|discriminate].
Qed.

(** *** Balances that are not negative *)

Lemma returns_bind_post {A B} (Q : A -> Prop) (P : B -> Prop) (m : M A) (k : A -> M B) :
  returns Q m -> (forall a, Q a -> returns P (k a)) -> returns P (bind m k).
Proof.
  intros Hm Hk w b w' E. apply bind_inv in E as (a & w1 & E1 & E2).
  eapply Hk; [|exact E2]. by eapply Hm.
Qed.

Lemma clamped_solvent s : clamped s -> solvent s.
Proof. apply clamped_nonneg. Qed.

Lemma solvent_credited prev a i n c :
  solvent prev -> Num.leb (safeAmountOf a) Num.zero = false ->
  solvent (creditedState prev (safeAmountOf a) i n c).
Proof.
  intros Hp P. destruct (safeAmountOf_positive a P) as (F & -> & P').
  by apply add_nonneg.
Qed.

Lemma Legacy_addVirtualMoney_solvent a n : returns solvent (Legacy.addVirtualMoney a n).
Proof.
  unfold Legacy.addVirtualMoney. cbv zeta.
  destruct (Num.leb (safeAmountOf a) Num.zero) eqn:P.
  { intros w s w' E. apply clamped_solvent. by eapply Legacy_getBankState_clamped. }
  eapply returns_bind_post; [apply Legacy_getBankState_clamped|]. intros prev Hc.
  intros w s w' E. rewrite bind_dateNow, bind_newDateISO in E.
  apply bind_inv in E as (? & ? & _ & E). injection E as <- _.
  apply solvent_credited; [by apply clamped_solvent|done].
Qed.

Lemma BillMate_addVirtualMoney_solvent a n : returns solvent (BillMate.addVirtualMoney a n).
Proof.
  unfold BillMate.addVirtualMoney. cbv zeta.
  destruct (Num.leb (safeAmountOf a) Num.zero) eqn:P.
  { intros w s w' E. apply clamped_solvent. by eapply BillMate_getBankState_clamped. }
  apply returns_bind. intros ctx.
  eapply returns_bind_post; [apply BillMate_getBankState_clamped|]. intros prev Hc.
  intros w s w' E. rewrite bind_dateNow, bind_newDateISO in E.
  apply bind_inv in E as (? & ? & _ & E). injection E as <- _.
  apply solvent_credited; [by apply clamped_solvent|done].
Qed.

Lemma BankApp_addVirtualMoney_solvent a n :
  returns (fun res => solvent (BankApp.am_state res)) (BankApp.addVirtualMoney a n).
Proof.
  unfold BankApp.addVirtualMoney.
  apply returns_bind. intros cu. destruct (negb (truthyOpt cu)); [done|]. cbv zeta.
  apply returns_bind. intros ready.
  destruct (Num.leb (safeAmountOf a) Num.zero) eqn:P.
  { eapply returns_bind_post; [apply BankApp_getBankState_clamped|]. intros s Hc.
    apply returns_ret. by apply clamped_solvent. }
  apply returns_bind. intros _.
  eapply returns_bind_post; [apply BankApp_getBankState_clamped|]. intros prev Hc.
  intros w s w' E. rewrite bind_dateNow, bind_newDateISO in E.
  assert (solvent (creditedState prev (safeAmountOf a)
                     ("tx-" ++ Str.ofN (clock w (clockReads w))) n
                     (JSDate.toISOString (clock (tickClock w) (clockReads (tickClock w))))))
    as Hs by (apply solvent_credited; [by apply clamped_solvent|done]).
  revert E. cbv zeta. destruct ready.
  - apply (returns_tryCatch (fun res => solvent (BankApp.am_state res))).
    + apply returns_bind. intros _. apply returns_bind. intros _. by apply returns_ret.
    + intros _. apply returns_bind. intros _. by apply returns_ret.
  - apply (returns_bind (fun res => solvent (BankApp.am_state res))).
    intros _. by apply returns_ret.
Qed.

Lemma debitGuard_solvent prev a r :
  clamped prev -> Num.valid a = true -> Num.valid (balance prev) = true ->
  debitGuard prev a r -> solvent (state r).
Proof.
  intros Hc Va Vp (_ & _ & Hno & Hyes). destruct (ok r) eqn:Hok.
  - destruct (Hyes eq_refl) as (_ & _ & H). by apply H.
  - rewrite (Hno eq_refl). by apply clamped_solvent.
Qed.

(** The two sides of a transfer that has reached its persist step. *)
Lemma transferCommitted_solvent target a n w r w' sU acct rU sS rS sN rN :
  transferCommitted target a n w r w' sU acct rU sS rS sN rN ->
  state r = sN /\ solvent rN
  /\ (Num.valid a = true -> Num.valid (balance sS) = true -> solvent sN).
Proof.
  intros (w1 & w2 & w3 & snap & w4 & i1 & c1 & i2 & c2 & _ & _ & _ & _ & _
          & Eg & F & P & L & _ & _ & _ & -> & -> & -> & Hp).
  destruct (BankApp_persistTransfer_inv _ _ _ _ _ _ _ _ _ Hp) as (Hs & _).
  pose proof (BankApp_getBankState_clamped _ _ _ Eg) as Hc.
  split; [exact Hs|]. split.
  - apply add_nonneg; [|done..]. apply clamped_nonneg, clamped_normalizeState.
  - intros Va Vs. apply sub_nonneg; try done. by apply clamped_nonneg.
Qed.

Lemma paymentCommitted_solvent account a n w r w' uid own rc pS rS pC rC pN rN :
  paymentCommitted account a n w r w' uid own rc pS rS pC rC pN rN ->
  state r = pN /\ solvent rN
  /\ (Num.valid a = true -> Num.valid (balance pS) = true -> solvent pN).
Proof.
  intros (w1 & w2 & w3 & w4 & w5 & i1 & c1 & i2 & c2 & _ & _ & Eg & _ & F & P
          & _ & L & _ & _ & _ & -> & Er & -> & -> & Hp).
  destruct (BillMate_persistPayment_inv _ _ _ _ _ _ _ _ _ Hp) as (-> & _).
  pose proof (BillMate_getBankState_clamped _ _ _ Eg) as Hc.
  split; [done|]. split.
  - apply add_nonneg; [|done..]. apply clamped_nonneg.
    revert Er. cbn [BillMate.cloudOwnerUid BillMate.localOwnerKey].
    destruct (truthyOpt _).
    + apply BillMate_ensureCloudBankDoc_clamped.
    + apply BillMate_getLocalBankState_clamped.
  - intros Va Vs. apply sub_nonneg; try done. by apply clamped_nonneg.
Qed.

(** C4: the balance is never negative. Normalization clamps it; every
    state that [getBankState] returns, every state that a credit returns
    and every state in the answer of a debit has a balance that is not
    negative; and so have the two sides of a transfer and of a payment.
    The subtraction is that of binary64 numbers, whence the two
    hypotheses that the amount and the balance are such numbers. *)
Theorem balance_never_negative :
  (forall x, solvent (normalizeState x))
  /\ (forall w s w',
        Legacy.getBankState w = Returned s w'
        \/ BillMate.getBankState w = Returned s w'
        \/ BankApp.getBankState w = Returned s w' ->
        solvent s)
  /\ (forall a n w s w',
        Legacy.addVirtualMoney a n w = Returned s w'
        \/ BillMate.addVirtualMoney a n w = Returned s w'
        \/ (exists p, BankApp.addVirtualMoney a n w
                      = Returned {| BankApp.am_state := s;
                                    BankApp.persistedToCloud := p |} w') ->
        solvent s)
  /\ (forall a n w prev w1 r w',
        Num.valid a = true -> Num.valid (balance prev) = true ->
        (Legacy.getBankState w = Returned prev w1
         /\ Legacy.tryDeductVirtualMoney a n w = Returned r w')
        \/ (exists ctx w0,
              BillMate.resolveBankOwnerContext w = Returned ctx w0
              /\ BillMate.getBankState w0 = Returned prev w1
              /\ BillMate.tryDeductVirtualMoney a n w = Returned r w') ->
        solvent (state r))
  /\ (forall target a n w r w',
        BankApp.transferToAccountByNumber target a n w = Returned r w' ->
        solvent (state r)
        \/ exists sU acct rU sS rS sN rN,
             transferCommitted target a n w r w' sU acct rU sS rS sN rN
             /\ state r = sN /\ solvent rN
             /\ (Num.valid a = true -> Num.valid (balance sS) = true -> solvent sN))
  /\ (forall account a n w r w',
        BillMate.payToAccountByNumber account a n w = Returned r w' ->
        solvent (state r)
        \/ exists uid own rc pS rS pC rC pN rN,
             paymentCommitted account a n w r w' uid own rc pS rS pC rC pN rN
             /\ state r = pN /\ solvent rN
             /\ (Num.valid a = true -> Num.valid (balance pS) = true -> solvent pN)).
Proof.
  split; [|split; [|split; [|split; [|split]]]].
  - intros x. apply clamped_solvent, clamped_normalizeState.
  - intros w s w' [E|[E|E]]; apply clamped_solvent.
    + by eapply Legacy_getBankState_clamped.
    + by eapply BillMate_getBankState_clamped.
    + by eapply BankApp_getBankState_clamped.
  - intros a n w s w' [E|[E|[p E]]].
    + by eapply Legacy_addVirtualMoney_solvent.
    + by eapply BillMate_addVirtualMoney_solvent.
    + apply (BankApp_addVirtualMoney_solvent a n _ _ _ E).
  - intros a n w prev w1 r w' Va Vp [[Eg Ed]|(ctx & w0 & Er & Eg & Ed)].
    + destruct (Legacy_tryDeduct_answer w a n prev w1 Eg) as (r0 & w0 & H & Ha).
      rewrite Ed in H. injection H as <- <-.
      pose proof (Legacy_getBankState_clamped _ _ _ Eg) as Hc.
      apply (debitGuard_solvent prev a _ Hc Va Vp).
      by apply (debitAnswer_guard prev a n).
    + destruct (BillMate_tryDeduct_answer w a n ctx w0 prev w1 Er Eg)
        as (r0 & w2 & H & Ha).
      rewrite Ed in H. injection H as <- <-.
      pose proof (BillMate_getBankState_clamped _ _ _ Eg) as Hc.
      apply (debitGuard_solvent prev a _ Hc Va Vp).
      by apply (debitAnswer_guard prev a n).
  - intros target a n w r w' E.
    destruct (BankApp_transfer_inv _ _ _ _ _ _ E)
      as [(st & Hc & _ & ->)|(sU & acct & rU & sS & rS & sN & rN & Hc)].
    + left. by apply clamped_solvent.
    + right. exists sU, acct, rU, sS, rS, sN, rN. split; [exact Hc|].
      by eapply transferCommitted_solvent.
  - intros account a n w r w' E.
    destruct (BillMate_pay_inv _ _ _ _ _ _ E)
      as [(st & Hc & _ & ->)|(u & own & rc & pS & rS & pC & rC & pN & rN & Hc)].
    + left. by apply clamped_solvent.
    + right. exists u, own, rc, pS, rS, pC, rC, pN, rN. split; [exact Hc|].
      by eapply paymentCommitted_solvent.
Qed.

Lemma balance_never_negative_witness :
  solvent (creditedState (Scenario.ledger 100) (Num.ofZ 30) "tx-1700000000000"
             "Added money" "2023-11-14T22:13:20.001Z")
  /\ solvent (debitedState (Scenario.ledger 100) (Num.ofZ 30) "tx-1700000000000"
                "Bill" "2023-11-14T22:13:20.001Z").
Proof.
  pose proof balance_never_negative as (_ & _ & Hcredit & Hdebit & _).
  split.
  - apply (Hcredit (Num.ofZ 30) "Added money" Scenario.wallet _
             (after (Legacy.addVirtualMoney (Num.ofZ 30) "Added money" Scenario.wallet))).
    left. run.
  - apply (Hdebit (Num.ofZ 30) "Bill" Scenario.wallet (Scenario.ledger 100)
             Scenario.wallet
             {| ok := true;
                state := debitedState (Scenario.ledger 100) (Num.ofZ 30)
                           "tx-1700000000000" "Bill" "2023-11-14T22:13:20.001Z";
                message := None |}
             (after (Legacy.tryDeductVirtualMoney (Num.ofZ 30) "Bill" Scenario.wallet)));
      [run|run|].
    left. split; run.
Defined.

(** *** Transfers that are refused *)







(** *** The allocator *)

(** C6, where the code departs from it: in BankApp a second call of the
    allocator rejects when the re-sync of the cached account number
    fails. [carolyn] signs in on a new device, the first call reserves
    [BM0000001000] and caches it, Firestore stops answering, and the
    second call rejects with the error of Firestore instead of returning
    the cached number. *)
Theorem provisioning_twice_rejects :
  let first := BankApp.ensureBankAccountForUser "carolyn" Scenario.signup in
  let second := BankApp.ensureBankAccountForUser "carolyn" (after first) in
  first = Returned (Some "BM0000001000") (after first)
  /\ texts (storage (after first)) !! BankApp.localAccountKey "carolyn"
     = Some "BM0000001000"
  /\ second = Thrown FirestoreError (after second).
Proof. cbv zeta. split; [run|]. split; run. Qed.

(** C10, as the code has it: the allocator returns a number that matches
    [BM[A-Z0-9]{6,}], and caches it, when the clock reads a time of at
    least two digits, the numbers already recorded for the user match,
    and, in BillMate, the user id has six letters or digits, which the
    deterministic fallback [BM] + the first ten of them needs. Under
    these hypotheses BillMate always returns; BankApp returns when no
    number is cached, and may reject on the re-sync of a cached one. *)
Theorem allocated_number_matches uid w :
  Str.truthy uid = true -> clockSane w ->
  ((6 <= alnumCount uid)%nat -> recordedNumbersValid uid w ->
   exists a w',
     BillMate.ensureBankAccountForUser uid w = Returned (Some a) w'
     /\ Str.matchesAccountPattern a = true /\ cachedAs uid a w')
  /\ (recordedNumbersValidRaw uid w ->
      (forall r w',
         BankApp.ensureBankAccountForUser uid w = Returned r w' ->
         exists a, r = Some a /\ Str.matchesAccountPattern a = true
                   /\ cachedRaw uid a w')
      /\ (texts (storage w) !! BankApp.localAccountKey uid = None ->
          exists a w',
            BankApp.ensureBankAccountForUser uid w = Returned (Some a) w'
            /\ Str.matchesAccountPattern a = true)).
Proof.
  intros Tu Hk. split.
  - intros Hn Hr.
    destruct (triple_total _ _ _ w (BillMate_ensure_valid uid Tu Hn) (conj Hk Hr))
      as (r & w' & E & a & -> & Ha).
    exists a, w'. split; [exact E|]. split; [exact Ha|].
    pose proof (BillMate_ensure_caches uid Tu w I) as Hc. rewrite E in Hc.
    destruct Hc as (a' & Ea & Hc). by injection Ea as <-.
  - intros Hr. split.
    + intros r w' E.
      destruct (BankApp_ensure_valid uid w r w' Tu Hk Hr E) as (a & -> & Ha).
      exists a. split; [done|]. split; [exact Ha|].
      pose proof (BankApp_ensure_caches uid Tu w I) as Hc. rewrite E in Hc.
      destruct Hc as (a' & Ea & Hc). by injection Ea as <-.
    + intros Hnone. by apply BankApp_ensure_fresh.
Qed.

Lemma allocated_number_matches_witness :
  (exists a w',
     BillMate.ensureBankAccountForUser "carolyn" Scenario.signup = Returned (Some a) w'
     /\ Str.matchesAccountPattern a = true /\ cachedAs "carolyn" a w')
  /\ (exists a w',
        BankApp.ensureBankAccountForUser "carolyn" Scenario.signup
        = Returned (Some a) w'
        /\ Str.matchesAccountPattern a = true).
Proof.
  assert (clockSane Scenario.signup) as Hk.
  { intros k. change (10 <= N.of_nat k + 1700000000000)%N. lia. }
  pose proof (allocated_number_matches "carolyn" Scenario.signup eq_refl Hk)
    as (HM & HA).
  split.
  - apply HM; [vm_compute; lia|]. split.
    + intros s Hs. vm_compute in Hs. discriminate.
    + intros s Hs. vm_compute in Hs. discriminate.
  - apply HA; [|run]. split.
    + intros s Hs. vm_compute in Hs. discriminate.
    + intros s Hs. vm_compute in Hs. discriminate.
Defined.

(** The deterministic fallback of BillMate for the user [ab]: two
    characters after [BM]. *)
Lemma short_uid_counterexample :
  Str.truthy "ab" = true
  /\ BillMate.ensureBankAccountForUser "ab" Scenario.crowded
     = Returned (Some "BMAB")
         (after (BillMate.ensureBankAccountForUser "ab" Scenario.crowded))
  /\ Str.matchesAccountPattern "BMAB" = false.
Proof. split; [run|]. split; run. Qed.

(** X1: the allocator of BillMate is idempotent: called again after it
    has returned, it returns the same account number. *)
Theorem BillMate_provisioning_idempotent uid w r w1 :
  BillMate.ensureBankAccountForUser uid w = Returned r w1 ->
  exists w2, BillMate.ensureBankAccountForUser uid w1 = Returned r w2.
Proof.
  intros E. destruct (Str.truthy uid) eqn:Tu.
  - pose proof (BillMate_ensure_caches uid Tu w I) as H. rewrite E in H.
    destruct H as (a & -> & Hc).
    destruct (BillMate_ensure_cached uid a w1 Tu Hc) as (w2 & E2 & _). by exists w2.
  - unfold BillMate.ensureBankAccountForUser in *. rewrite Tu in *. cbn [negb] in *.
    injection E as <- <-. by exists w.
Qed.

Lemma BillMate_provisioning_idempotent_witness :
  exists w2,
    BillMate.ensureBankAccountForUser "carolyn"
      (after (BillMate.ensureBankAccountForUser "carolyn" Scenario.signup))
    = Returned (Some "BM0000001000") w2.
Proof.
  apply (BillMate_provisioning_idempotent "carolyn" Scenario.signup). run.
Defined.

(** X2: the allocator of BankApp, called again after it has returned a
    number, re-syncs that number and returns it: the second call returns
    what the first returned whenever the re-sync does not reject. *)
Theorem BankApp_provisioning_resync uid w r w1 :
  Str.truthy uid = true ->
  BankApp.ensureBankAccountForUser uid w = Returned r w1 ->
  exists a,
    r = Some a
    /\ BankApp.ensureBankAccountForUser uid w1
       = (BankApp.syncAccountNumberToCloud uid a ;; ret (Some a))%async w1
    /\ forall w2,
         BankApp.syncAccountNumberToCloud uid a w1 = Returned tt w2 ->
         BankApp.ensureBankAccountForUser uid w1 = Returned r w2.
Proof.
  intros Tu E. pose proof (BankApp_ensure_caches uid Tu w I) as H. rewrite E in H.
  destruct H as (a & -> & Hc). exists a. split; [done|].
  rewrite (BankApp_ensure_cached uid Tu a w1 Hc). split; [done|].
  intros w2 Es. by rewrite (bind_returned _ _ _ _ _ Es).
Qed.

Lemma BankApp_provisioning_resync_witness :
  exists a,
    Some "BM11111111" = Some a
    /\ BankApp.ensureBankAccountForUser "alice"
         (after (BankApp.ensureBankAccountForUser "alice" Scenario.online))
       = (BankApp.syncAccountNumberToCloud "alice" a ;; ret (Some a))%async
           (after (BankApp.ensureBankAccountForUser "alice" Scenario.online))
    /\ forall w2,
         BankApp.syncAccountNumberToCloud "alice" a
           (after (BankApp.ensureBankAccountForUser "alice" Scenario.online))
         = Returned tt w2 ->
         BankApp.ensureBankAccountForUser "alice"
           (after (BankApp.ensureBankAccountForUser "alice" Scenario.online))
         = Returned (Some "BM11111111") w2.
Proof.
  apply (BankApp_provisioning_resync "alice" Scenario.online (Some "BM11111111"));
    run.
Defined.

(** *** The persist step *)

(** C8, as the code has it: in BankApp, when the write of the sender's
    document succeeds and the write of the receiver's document fails, the
    persist step answers [PartialFailure] with the debited state of the
    sender, which stays in the sender's document, and a transfer that has
    reached this step and is not [ok] has that answer. In BillMate the
    persist step answers [ok] whatever happens to the remote writes: a
    write that fails is replaced by a write to the local cache. *)
Theorem partial_failure_reported :
  (forall s r sn rn a T W,
     firebaseConfigured W = true ->
     outage W (requests W) (SetDoc (UserDoc s)) = false ->
     outage W (S (requests W)) (SetDoc (UserDoc r)) = true ->
     exists W',
       BankApp.persistTransfer s r sn rn a T W
       = Returned {| ok := false; state := sn; message := Some PartialFailure |} W'
       /\ bankState <$> users (firestore W') !! s = Some (stateValue sn)
       /\ (s <> r -> users (firestore W') !! r = users (firestore W) !! r))
  /\ (forall target a n w r w' sU acct rU sS rS sN rN,
        transferCommitted target a n w r w' sU acct rU sS rS sN rN ->
        ok r = false ->
        r = {| ok := false; state := sN; message := Some PartialFailure |})
  /\ (forall pc rc pn rn a T W,
        exists W',
          BillMate.persistPayment pc rc pn rn a T W
          = Returned {| ok := true; state := pn; message := Some (Paid a T) |} W').
Proof.
  split; [|split].
  - intros s r sn rn a T W C Hs Hr.
    destruct (BankApp_persistTransfer_partial s r sn rn a T W C Hs Hr) as (W' & H).
    by exists W'.
  - intros target a n w r w' sU acct rU sS rS sN rN
      (w1 & w2 & w3 & snap & w4 & i1 & c1 & i2 & c2 & _ & _ & _ & _ & _
       & _ & _ & _ & _ & _ & _ & _ & _ & _ & _ & Hp) Hno.
    destruct (BankApp_persistTransfer_inv _ _ _ _ _ _ _ _ _ Hp)
      as (Hs & _ & _ & _ & Hm).
    specialize (Hm Hno). destruct r; cbn in *. congruence.
  - intros pc rc pn rn a T W. apply BillMate_persistPayment_ok.
Qed.

Lemma partial_failure_reported_witness :
  exists W',
    BankApp.persistTransfer "alice" "bob" (state Scenario.paid) (Scenario.ledger 40)
      (Num.ofZ 40) "BM22222222" Scenario.bobUnreachable
    = Returned {| ok := false; state := state Scenario.paid;
                  message := Some PartialFailure |} W'
    /\ bankState <$> users (firestore W') !! "alice"
       = Some (stateValue (state Scenario.paid))
    /\ ("alice" <> "bob" ->
        users (firestore W') !! "bob"
        = users (firestore Scenario.bobUnreachable) !! "bob").
Proof.
  apply (proj1 partial_failure_reported "alice" "bob" (state Scenario.paid)
           (Scenario.ledger 40) (Num.ofZ 40) "BM22222222" Scenario.bobUnreachable);
    run.
Defined.

(** The payment of BillMate when the document of [bob] cannot be
    written: the answer is [ok], and the remote ledger of [bob] is what
    it was. *)
Lemma unreachable_receiver_counterexample :
  let paying := BillMate.payToAccountByNumber "BM22222222" (Num.ofZ 40) "QR payment"
                  Scenario.bobUnreachable in
  paying = Returned Scenario.paid (after paying)
  /\ ok Scenario.paid = true
  /\ cloudLedger (firestore (after paying)) "alice" = state Scenario.paid
  /\ cloudLedger (firestore (after paying)) "bob" = Scenario.ledger 0.
Proof. cbv zeta. split; [run|]. split; [run|]. split; run. Qed.

(** ** Further properties of the code *)

(** *** Account numbers *)

(** *** Strings of ASCII characters *)

Lemma isAscii_chars s :
  Str.isAscii s = true <-> forall a, In a (Str.chars s) -> (Str.code a < 128)%N.
Proof.
  unfold Str.isAscii. rewrite forallb_forall.
  split; intros H a Ha; [apply N.ltb_lt|apply N.ltb_lt]; by apply H.
Qed.

Lemma isAscii_trim s : Str.isAscii s = true -> Str.isAscii (Str.trim s) = true.
Proof.
  rewrite !isAscii_chars. intros H a. unfold Str.trim. rewrite chars_str.
  rewrite <- in_rev. intros Ha. apply dropWhile_incl in Ha.
  rewrite <- in_rev in Ha. apply dropWhile_incl in Ha. by apply H.
Qed.

Lemma isAscii_toUpperCase s :
  Str.isAscii s = true -> Str.isAscii (Str.toUpperCase s) = true.
Proof.
  rewrite !isAscii_chars. intros H a. unfold Str.toUpperCase. rewrite chars_str.
  rewrite in_map_iff. intros (b & <- & Hb). specialize (H b Hb).
  rewrite upperChar_code. destruct (Str.isLower b); lia.
Qed.

Lemma isAscii_removeSpaces s :
  Str.isAscii s = true -> Str.isAscii (Str.removeSpaces s) = true.
Proof.
  rewrite !isAscii_chars. intros H a. unfold Str.removeSpaces. rewrite chars_str.
  rewrite filter_In. intros [Ha _]. by apply H.
Qed.

Lemma isAscii_normalizeAccountNumber s :
  Str.isAscii s = true -> Str.isAscii (BillMate.normalizeAccountNumber s) = true.
Proof.
  intros H. unfold BillMate.normalizeAccountNumber.
  by apply isAscii_removeSpaces, isAscii_toUpperCase, isAscii_trim.
Qed.

(** The account numbers that the code accepts are strings of ASCII
    characters. *)
Lemma matchesAccountPattern_isAscii s :
  Str.matchesAccountPattern s = true -> Str.isAscii s = true.
Proof.
  unfold Str.matchesAccountPattern, Str.isAscii.
  destruct (Str.chars s) as [|b [|m rest]]; try done.
  rewrite !andb_true_iff, !N.eqb_eq. intros [[[Hb Hm] _] H].
  cbn [forallb]. rewrite Hb, Hm. cbn [N.ltb N.compare Pos.compare Pos.compare_cont andb].
  eapply forallb_impl; [|exact H]. intros a.
  unfold Str.isUpperAlnum, Str.isUpper, Str.isDigit.
  rewrite orb_true_iff, !andb_true_iff, !N.leb_le, N.ltb_lt. lia.
Qed.

(** X3: on a string of ASCII characters [normalizeAccountNumber] gives a
    string of ASCII characters that has neither white space nor a
    lower-case letter and that it leaves as it is (it is idempotent); and
    it leaves a well-formed account number as it is. *)
Theorem normalizeAccountNumber_normal_form s :
  Str.isAscii s = true ->
  Str.isAscii (BillMate.normalizeAccountNumber s) = true
  /\ BillMate.normalizeAccountNumber (BillMate.normalizeAccountNumber s)
     = BillMate.normalizeAccountNumber s
  /\ forallb plain (Str.chars (BillMate.normalizeAccountNumber s)) = true
  /\ (BillMate.isValidAccountNumber s = true -> BillMate.normalizeAccountNumber s = s).
Proof.
  intros A. split; [by apply isAscii_normalizeAccountNumber|].
  split; [apply normalizeAccountNumber_idempotent|].
  split; [apply normalizeAccountNumber_chars_plain|].
  intros V. by apply matchesAccountPattern_normal.
Qed.

Lemma normalizeAccountNumber_normal_form_witness :
  Str.isAscii (BillMate.normalizeAccountNumber " bm1234 5678") = true
  /\ BillMate.normalizeAccountNumber (BillMate.normalizeAccountNumber " bm1234 5678")
     = BillMate.normalizeAccountNumber " bm1234 5678"
  /\ forallb plain (Str.chars (BillMate.normalizeAccountNumber " bm1234 5678")) = true
  /\ (BillMate.isValidAccountNumber " bm1234 5678" = true ->
      BillMate.normalizeAccountNumber " bm1234 5678" = " bm1234 5678").
Proof. apply (normalizeAccountNumber_normal_form " bm1234 5678"). reflexivity. Defined.

(** *** Reading the ledger *)

(** X4: [getBankState] never rejects, whatever requests Firestore
    rejects: in the wallet of the first version, in BillMate and in
    BankApp every failure is caught and answered from the local cache. *)
Theorem getBankState_never_rejects :
  safe Legacy.getBankState /\ safe BillMate.getBankState /\ safe BankApp.getBankState.
Proof.
  split; [apply Legacy_getBankState_safe|].
  split; [apply BillMate_getBankState_safe|apply BankApp_getBankState_safe].
Qed.

(** *** The local cache *)

Lemma lookupField_snoc k fields k' v :
  JS.lookupField k (fields ++ [(k', v)])
  = if String.eqb k' k then Some v else JS.lookupField k fields.
Proof. unfold JS.lookupField. by rewrite fold_left_app. Qed.

Lemma jsonNumber_safe x : jsonSafe x = true -> JS.jsonNumber x = JNum x.
Proof. by destruct x as [[]| | |]. Qed.

Lemma jsonSafe_finite x : jsonSafe x = true -> Num.isFinite x = true.
Proof. by destruct x as [[]| | |]. Qed.

Lemma jsonSafe_clamp x :
  jsonSafe x = true -> Num.nonneg x = true -> Num.max Num.zero x = x.
Proof. by destruct x as [[]|[]| |[] m e]. Qed.

Lemma normalizeTransaction_json t :
  jsonSafe (tx_amount t) = true -> normalizeTransaction (transactionJSON t) = Some t.
Proof.
  intros F. destruct t as [i ty a n c]. simpl in F.
  unfold normalizeTransaction, transactionJSON. cbn [tx_id tx_type tx_amount tx_note tx_createdAt].
  rewrite (jsonNumber_safe a F). cbn -[parseType typeName].
  rewrite parseType_typeName. cbn. by rewrite (jsonSafe_finite a F).
Qed.

Lemma normalizeTransactions_json txs :
  forallb (fun t => jsonSafe (tx_amount t)) txs = true ->
  omap normalizeTransaction (map transactionJSON txs) = txs.
Proof.
  induction txs as [|t txs IH]; [done|]. intros H.
  apply andb_prop in H as [F H].
  change (match normalizeTransaction (transactionJSON t) with
          | Some y => y :: omap normalizeTransaction (map transactionJSON txs)
          | None => omap normalizeTransaction (map transactionJSON txs)
          end = t :: txs).
  by rewrite (normalizeTransaction_json t F), (IH H).
Qed.

(** What the local cache keeps of a storable state is read back as the
    state. *)
Lemma normalizeState_stateJSON s :
  storable s = true -> normalizeState (stateJSON s) = s.
Proof.
  unfold storable. intros H.
  apply andb_prop in H as [H Ftx]. apply andb_prop in H as [F N].
  destruct s as [b txs]. cbn [balance transactions] in *.
  unfold normalizeState, stateJSON. cbn [balance transactions].
  rewrite (jsonNumber_safe b F). cbn.
  by rewrite (jsonSafe_finite b F), (jsonSafe_clamp b F N),
    (normalizeTransactions_json txs Ftx).
Qed.

(** X5: the local cache gives back what is saved: after
    [saveLocalBankState] of a state whose numbers are finite and not the
    negative zero, and whose balance is not negative, [getLocalBankState]
    returns that state, in BankApp and in BillMate; and a key that holds
    nothing reads as the empty ledger. *)
Theorem local_cache_round_trip key w :
  (forall s, storable s = true ->
     exists w',
       (BankApp.saveLocalBankState key s ;; BankApp.getLocalBankState key)%async w
       = Returned s w')
  /\ (forall s, storable s = true ->
        exists w',
          (BillMate.saveLocalBankState key s ;; BillMate.getLocalBankState key)%async w
          = Returned s w')
  /\ (jsons (storage w) !! BankApp.localBankKey key = None ->
      BankApp.getLocalBankState key w = Returned defaultBankState w)
  /\ (jsons (storage w) !! BillMate.localBankStorageKey key = None ->
      BillMate.getLocalBankState key w = Returned defaultBankState w).
Proof.
  split; [|split; [|split]].
  - intros s Hs. eexists.
    unfold bind, BankApp.saveLocalBankState, BankApp.getLocalBankState,
      AsyncStorageApi.setJSON, AsyncStorageApi.getJSON, tryCatch, bind.
    proj. rewrite lookup_insert_eq. unfold ret. by rewrite (normalizeState_stateJSON s Hs).
  - intros s Hs. eexists.
    unfold bind, BillMate.saveLocalBankState, BillMate.getLocalBankState,
      AsyncStorageApi.setJSON, AsyncStorageApi.getJSON, tryCatch, bind.
    proj. rewrite lookup_insert_eq. unfold ret. by rewrite (normalizeState_stateJSON s Hs).
  - intros H. unfold BankApp.getLocalBankState, AsyncStorageApi.getJSON, tryCatch, bind.
    by rewrite H.
  - intros H. unfold BillMate.getLocalBankState, AsyncStorageApi.getJSON, tryCatch, bind.
    by rewrite H.
Qed.

Lemma local_cache_round_trip_witness :
  (exists w',
     (BankApp.saveLocalBankState "alice" (state Scenario.paid) ;;
      BankApp.getLocalBankState "alice")%async Scenario.online
     = Returned (state Scenario.paid) w')
  /\ BillMate.getLocalBankState "guest" Scenario.online
     = Returned defaultBankState Scenario.online.
Proof.
  pose proof (local_cache_round_trip "alice" Scenario.online) as (HA & _).
  pose proof (local_cache_round_trip "guest" Scenario.online) as (_ & _ & _ & HM).
  split.
  - apply HA. reflexivity.
  - apply HM. vm_compute. reflexivity.
Defined.

(** *** The savings summary *)

Lemma summary_fold_credits txs acc :
  Savings.totalCredits
    (fold_left
       (fun summary transaction =>
          match tx_type transaction with
          | credit =>
              {| Savings.totalCredits :=
                   Num.add (Savings.totalCredits summary) (tx_amount transaction);
                 Savings.totalDebits := Savings.totalDebits summary |}
          | debit =>
              {| Savings.totalCredits := Savings.totalCredits summary;
                 Savings.totalDebits :=
                   Num.add (Savings.totalDebits summary) (tx_amount transaction) |}
          end) txs acc)
  = fold_left (fun total t => Num.add total (tx_amount t))
      (List.filter (fun t => match tx_type t with credit => true | debit => false end) txs)
      (Savings.totalCredits acc).
Proof.
  revert acc. induction txs as [|t txs IH]; intros acc; [done|].
  cbn [fold_left List.filter]. rewrite IH. by destruct (tx_type t).
Qed.

Lemma summary_fold_debits txs acc :
  Savings.totalDebits
    (fold_left
       (fun summary transaction =>
          match tx_type transaction with
          | credit =>
              {| Savings.totalCredits :=
                   Num.add (Savings.totalCredits summary) (tx_amount transaction);
                 Savings.totalDebits := Savings.totalDebits summary |}
          | debit =>
              {| Savings.totalCredits := Savings.totalCredits summary;
                 Savings.totalDebits :=
                   Num.add (Savings.totalDebits summary) (tx_amount transaction) |}
          end) txs acc)
  = fold_left (fun total t => Num.add total (tx_amount t))
      (List.filter (fun t => match tx_type t with credit => false | debit => true end) txs)
      (Savings.totalDebits acc).
Proof.
  revert acc. induction txs as [|t txs IH]; intros acc; [done|].
  cbn [fold_left List.filter]. rewrite IH. by destruct (tx_type t).
Qed.

(** The sum of two numbers that are not negative is not negative. *)
Lemma add_nonneg_nonneg b a :
  Num.nonneg b = true -> Num.nonneg a = true -> Num.nonneg (Num.add b a) = true.
Proof.
  intros Hb Ha.
  destruct (nonneg_cases a Ha) as [[sa ->]|[->|(ma & ea & ->)]].
  - destruct (nonneg_cases b Hb) as [[sb ->]|[->|(mb & eb & ->)]]; try done.
    by destruct sa, sb.
  - by destruct (nonneg_cases b Hb) as [[sb ->]|[->|(mb & eb & ->)]].
  - by apply add_nonneg.
Qed.

Lemma sum_nonneg txs total :
  Num.nonneg total = true ->
  forallb (fun t => Num.nonneg (tx_amount t)) txs = true ->
  Num.nonneg (fold_left (fun total t => Num.add total (tx_amount t)) txs total) = true.
Proof.
  revert total. induction txs as [|t txs IH]; intros total Ht H; [done|].
  apply andb_prop in H as [Ha H]. cbn [fold_left].
  apply IH; [by apply add_nonneg_nonneg|done].
Qed.

(** X6: [getSavingsSummary] adds up, from the first entry of the log to
    the last, the amounts of the credit entries in one total and those of
    the debit entries in the other: an entry of one kind never changes
    the total of the other kind, and both totals are not negative when no
    amount is. *)
Theorem getSavingsSummary_totals st :
  Savings.totalCredits (Savings.getSavingsSummary st)
  = fold_left (fun total t => Num.add total (tx_amount t))
      (List.filter (fun t => match tx_type t with credit => true | debit => false end)
         (transactions st)) Num.zero
  /\ Savings.totalDebits (Savings.getSavingsSummary st)
     = fold_left (fun total t => Num.add total (tx_amount t))
         (List.filter (fun t => match tx_type t with credit => false | debit => true end)
            (transactions st)) Num.zero
  /\ (forallb (fun t => Num.nonneg (tx_amount t)) (transactions st) = true ->
      Num.nonneg (Savings.totalCredits (Savings.getSavingsSummary st)) = true
      /\ Num.nonneg (Savings.totalDebits (Savings.getSavingsSummary st)) = true).
Proof.
  unfold Savings.getSavingsSummary.
  rewrite summary_fold_credits, summary_fold_debits. cbn [Savings.totalCredits Savings.totalDebits].
  split; [done|]. split; [done|]. intros H.
  split; (apply sum_nonneg; [done|]).
  - clear -H. induction (transactions st) as [|t txs IH]; [done|].
    apply andb_prop in H as [Ha H]. cbn [List.filter].
    destruct (tx_type t); [cbn [forallb]; rewrite Ha|]; by apply IH.
  - clear -H. induction (transactions st) as [|t txs IH]; [done|].
    apply andb_prop in H as [Ha H]. cbn [List.filter].
    destruct (tx_type t); [|cbn [forallb]; rewrite Ha]; by apply IH.
Qed.

Lemma getSavingsSummary_totals_witness :
  Num.nonneg (Savings.totalCredits (Savings.getSavingsSummary (state Scenario.paid))) = true
  /\ Num.nonneg (Savings.totalDebits (Savings.getSavingsSummary (state Scenario.paid)))
     = true.
Proof.
  apply (proj2 (proj2 (getSavingsSummary_totals (state Scenario.paid)))).
  reflexivity.
Defined.

(** *** The remote store *)

(** X7: [saveCloudBankState] of BankApp never rejects: it returns [true]
    exactly when Firebase is configured and Firestore accepts the write,
    and then the document of the user holds the state and no other
    document has changed; when it returns [false], Firestore is as it
    was. The local cache is not touched. *)
Theorem saveCloudBankState_reports u st W :
  exists b W',
    BankApp.saveCloudBankState u st W = Returned b W'
    /\ storage W' = storage W
    /\ b = (firebaseConfigured W && negb (outage W (requests W) (SetDoc (UserDoc u))))
    /\ (b = true ->
        bankState <$> users (firestore W') !! u = Some (stateValue st)
        /\ bankAccounts (firestore W') = bankAccounts (firestore W)
        /\ forall u', u <> u' -> users (firestore W') !! u' = users (firestore W) !! u')
    /\ (b = false -> firestore W' = firestore W).
Proof.
  destruct (BankApp_saveCloudBankState_safe u st W) as (b & W' & E).
  exists b, W'. split; [exact E|].
  destruct (BankApp_saveCloudBankState_cases u st W b W' E)
    as [(-> & C & O & Hf & Hs & _)|(-> & Hf & Hs & _ & _ & Hno)].
  - split; [exact Hs|]. split; [by rewrite C, O|]. split; [|done].
    intros _. rewrite Hf. split; [apply mergeBankState_lookup|]. split; [done|].
    intros u' Hne. by apply mergeBankState_lookup_ne.
  - split; [exact Hs|]. split.
    + destruct (firebaseConfigured W); [|done]. by destruct (Hno eq_refl) as [-> _].
    + split; [done|]. by intros _.
Qed.

(** X8: [syncAccountNumberToCloud] never takes an account number that is
    mapped to another user: when the mapping of the number names another
    uid, the call changes nothing in Firestore, whatever else happens;
    and when the number is free or mapped to the caller and Firestore
    answers, the call maps the number to the caller and records it in the
    caller's document. *)
Theorem syncAccountNumberToCloud_respects_owner uid a w :
  (forall other,
     bankAccounts (firestore w) !! Str.toUpperCase (Str.trim a) = Some (JStr other) ->
     Str.truthy (Str.trim other) = true -> other <> uid ->
     firestore (after (BankApp.syncAccountNumberToCloud uid a w)) = firestore w)
  /\ (firebaseConfigured w = true ->
      Str.truthy (Str.toUpperCase (Str.trim a)) = true ->
      (forall other,
         nonBlankString
           (default JUndefined (bankAccounts (firestore w) !! Str.toUpperCase (Str.trim a)))
         = Some other -> other = uid) ->
      (forall k op, outage w k op = false) ->
      exists w',
        BankApp.syncAccountNumberToCloud uid a w = Returned tt w'
        /\ bankAccounts (firestore w') !! Str.toUpperCase (Str.trim a) = Some (JStr uid)
        /\ accountNumber <$> users (firestore w') !! uid
           = Some (JStr (Str.toUpperCase (Str.trim a)))).
Proof.
  split.
  - intros other Hm Ht Hne.
    unfold BankApp.syncAccountNumberToCloud, BankApp.isFirebaseReady.
    unfold bind at 1. cbv beta iota.
    destruct (negb (firebaseConfigured w)); [done|]. cbv zeta.
    destruct (negb (Str.truthy (Str.toUpperCase (Str.trim a)))); [done|].
    unfold bind at 1. unfold FirestoreApi.getMapping at 1, bind at 1, FirestoreApi.request.
    destruct (outage w (requests w) _); [done|]. cbv beta iota. proj.
    rewrite Hm. cbn [from_option id nonBlankString]. rewrite Ht.
    destruct (String.eqb other uid) eqn:E; [|done].
    apply String.eqb_eq in E. contradiction.
  - intros C Tn Hown Hout.
    unfold BankApp.syncAccountNumberToCloud, BankApp.isFirebaseReady.
    unfold bind at 1. cbv beta iota. rewrite C. cbn [negb]. cbv zeta.
    rewrite Tn. cbn [negb].
    assert (forall W, outage W = outage w -> firebaseConfigured W = true ->
            exists w',
              (FirestoreApi.setMapping (Str.toUpperCase (Str.trim a)) (JStr uid) ;;
               FirestoreApi.setUserAccountNumber uid
                 (JStr (Str.toUpperCase (Str.trim a))))%async W = Returned tt w'
              /\ bankAccounts (firestore w') !! Str.toUpperCase (Str.trim a)
                 = Some (JStr uid)
              /\ accountNumber <$> users (firestore w') !! uid
                 = Some (JStr (Str.toUpperCase (Str.trim a)))) as Hwrite.
    { intros W HW _.
      unfold bind, FirestoreApi.setMapping, FirestoreApi.setUserAccountNumber,
        bind, FirestoreApi.request. rewrite HW, Hout. proj. rewrite HW, Hout.
      eexists. split; [reflexivity|]. proj.
      unfold FirestoreApi.mergeAccountNumber, FirestoreApi.writeMapping. proj.
      by rewrite !lookup_insert_eq. }
    unfold bind at 1. unfold FirestoreApi.getMapping at 1, bind at 1, FirestoreApi.request.
    rewrite Hout. cbv beta iota. proj.
    destruct (nonBlankString _) as [other|] eqn:En.
    + rewrite (Hown other eq_refl), String.eqb_refl. cbn [negb].
      by apply Hwrite.
    + by apply Hwrite.
Qed.

Lemma syncAccountNumberToCloud_respects_owner_witness :
  firestore (after (BankApp.syncAccountNumberToCloud "alice" " bm22222222" Scenario.online))
  = firestore Scenario.online.
Proof.
  apply (proj1 (syncAccountNumberToCloud_respects_owner "alice" " bm22222222"
                  Scenario.online) "bob");
    [vm_compute; reflexivity|reflexivity|discriminate].
Defined.

(** X9: the reservation transaction never takes a number that is already
    mapped and never changes another mapping: it returns the number the
    user already has and writes nothing; or it throws the conflict when
    the candidate is mapped; or the candidate was free, and afterwards
    the candidate is mapped to the user, the user's document records it,
    and every other mapping and every other user's document is as it
    was. The same holds in BillMate, which returns the number the user
    already has in its normal form. *)
Theorem reserveAccount_cases uid candidate fs :
  (match BankApp.reserveAccount uid candidate fs with
   | inl e =>
       e = BankAccountConflict /\ bankAccounts fs !! candidate <> None
   | inr (a, fs') =>
       (nonBlankString (from_option accountNumber JUndefined (users fs !! uid)) = Some a
        /\ fs' = fs)
       \/ (a = candidate /\ bankAccounts fs !! candidate = None
           /\ bankAccounts fs' !! candidate = Some (JStr uid)
           /\ accountNumber <$> users fs' !! uid = Some (JStr candidate)
           /\ (forall c, c <> candidate -> bankAccounts fs' !! c = bankAccounts fs !! c)
           /\ (forall u, u <> uid -> users fs' !! u = users fs !! u))
   end)
  /\ BillMate.reserveAccount uid candidate fs
     = match BankApp.reserveAccount uid candidate fs with
       | inl e => inl e
       | inr (a, fs') =>
           inr (match nonBlankString
                        (from_option accountNumber JUndefined (users fs !! uid)) with
                | Some _ => BillMate.normalizeAccountNumber a
                | None => a
                end, fs')
       end.
Proof.
  unfold BankApp.reserveAccount, BillMate.reserveAccount, FirestoreApi.readUser.
  destruct (nonBlankString _) as [s|] eqn:E.
  { split; [by left|done]. }
  destruct (bankAccounts fs !! candidate) eqn:Ec.
  { split; [|done]. split; [done|congruence]. }
  split; [|done]. right. split; [done|]. split; [done|].
  unfold FirestoreApi.mergeBankState, FirestoreApi.mergeAccountNumber,
    FirestoreApi.writeMapping. proj.
  rewrite !lookup_insert_eq. cbn [from_option accountNumber].
  split; [done|]. split; [done|]. split.
  - intros c Hc. by rewrite lookup_insert_ne.
  - intros u Hu. by rewrite !lookup_insert_ne.
Qed.

(** X10: the remote store gives back what is saved: in BillMate, after
    [saveCloudBankState] of a well-formed state whose balance is not the
    negative zero, [ensureCloudBankDoc] returns that state when Firestore
    accepts the write and the read. *)
Theorem cloud_round_trip u s w :
  wellFormed s = true -> Num.max Num.zero (balance s) = balance s ->
  outage w (requests w) (SetDoc (UserDoc u)) = false ->
  outage w (S (requests w)) (GetDoc (UserDoc u)) = false ->
  exists w',
    (BillMate.saveCloudBankState u s ;; BillMate.ensureCloudBankDoc u)%async w
    = Returned s w'.
Proof.
  intros Hw Hm O1 O2.
  unfold bind at 1. unfold BillMate.saveCloudBankState, FirestoreApi.setUserBankState.
  unfold bind at 1. unfold FirestoreApi.request at 1. rewrite O1. cbv beta iota.
  unfold BillMate.ensureCloudBankDoc.
  unfold bind at 1. unfold FirestoreApi.getUser at 1, bind at 1, FirestoreApi.request.
  proj. rewrite O2. cbv beta iota. proj.
  unfold FirestoreApi.readUser, FirestoreApi.mergeBankState. proj.
  rewrite lookup_insert_eq. cbn [bankState].
  change (BillMate.hasBankState (stateValue s)) with true. cbv iota.
  rewrite (normalizeState_stateValue s Hw Hm). by eexists.
Qed.

Lemma cloud_round_trip_witness :
  exists w',
    (BillMate.saveCloudBankState "bob" (state Scenario.paid) ;;
     BillMate.ensureCloudBankDoc "bob")%async Scenario.online
    = Returned (state Scenario.paid) w'.
Proof.
  apply (cloud_round_trip "bob" (state Scenario.paid) Scenario.online); reflexivity.
Defined.

(** *** The local map from account numbers to users *)

#[local] Abbreviation uidMapStep :=
  (fun (result : gmap string string) (kv : string * JSValue) =>
     match nonBlankString (snd kv) with
     | Some value => <[BillMate.normalizeAccountNumber (fst kv) := value]> result
     | None => result
     end).

Lemma nonBlankString_again v s : nonBlankString v = Some s -> nonBlankString (JStr s) = Some s.
Proof.
  destruct v as [| | | |x| |]; try done. cbn.
  destruct (Str.truthy (Str.trim x)) eqn:E; [|done]. intros [= <-]. by rewrite E.
Qed.

Lemma uidMapNormal_empty : uidMapNormal ∅.
Proof. intros k v H. by rewrite lookup_empty in H. Qed.

Lemma uidMapNormal_insert k v m :
  BillMate.normalizeAccountNumber k = k -> nonBlankString (JStr v) = Some v ->
  uidMapNormal m -> uidMapNormal (<[k := v]> m).
Proof.
  intros Hk Hv Hm k' v' H. destruct (decide (k = k')) as [<-|Hne].
  - rewrite lookup_insert_eq in H. by injection H as <-.
  - rewrite lookup_insert_ne in H by done. by apply Hm.
Qed.

Lemma uidMapStep_normal l acc :
  uidMapNormal acc -> uidMapNormal (fold_left uidMapStep l acc).
Proof.
  revert acc. induction l as [|[k v] l IH]; intros acc Hacc; [done|].
  cbn [fold_left]. apply IH. cbn [fst snd].
  destruct (nonBlankString v) as [s|] eqn:E; [|done].
  apply uidMapNormal_insert; [apply normalizeAccountNumber_idempotent| |done].
  by eapply nonBlankString_again.
Qed.

(** What [getLocalUidMap] returns has normalized keys and no blank
    value. *)
Lemma getLocalUidMap_normal w :
  exists m, BillMate.getLocalUidMap w = Returned m w /\ uidMapNormal m.
Proof.
  unfold BillMate.getLocalUidMap, tryCatch, bind, AsyncStorageApi.getJSON.
  destruct (jsons (storage w) !! BillMate.LOCAL_ACCOUNT_UID_MAP_KEY) as [parsed|].
  - destruct (negb (JS.isObject parsed)).
    + eexists. split; [reflexivity|apply uidMapNormal_empty].
    + eexists. split; [reflexivity|]. apply uidMapStep_normal, uidMapNormal_empty.
  - eexists. split; [reflexivity|apply uidMapNormal_empty].
Qed.

Lemma find_all_false {A} (f : A -> bool) l :
  (forall x, In x l -> f x = false) -> List.find f l = None.
Proof.
  induction l as [|x l IH]; [done|]. intros H. cbn [List.find].
  rewrite (H x) by (by left). apply IH. intros y Hy. apply H. by right.
Qed.

(** The fold of [getLocalUidMap] over entries with distinct, normalized
    keys. *)
Lemma uidMapStep_lookup l acc n :
  NoDup (l.*1) ->
  (forall k v, (k, v) ∈ l -> BillMate.normalizeAccountNumber k = k) ->
  fold_left uidMapStep l acc !! n
  = match List.find (fun kv => String.eqb (fst kv) n) l with
    | Some kv => match nonBlankString (snd kv) with
                 | Some value => Some value
                 | None => acc !! n
                 end
    | None => acc !! n
    end.
Proof.
  revert acc. induction l as [|[k v] l IH]; intros acc Hnd Hk; [done|].
  rewrite fmap_cons in Hnd. apply NoDup_cons in Hnd as [Hnk Hnd].
  cbn [fold_left List.find fst snd].
  rewrite IH; [|done|intros k' v' H; apply (Hk k' v'), list_elem_of_further, H].
  assert (BillMate.normalizeAccountNumber k = k) as Ek
    by (apply (Hk k v); apply list_elem_of_here).
  destruct (String.eqb k n) eqn:E.
  - apply String.eqb_eq in E. subst n.
    assert (List.find (fun kv => String.eqb (fst kv) k) l = None) as ->.
    { apply find_all_false. intros [k' v'] Hin. cbn [fst].
      apply String.eqb_neq. intros ->. apply Hnk.
      apply list_elem_of_fmap. exists (k, v'). split; [done|].
      by apply list_elem_of_In. }
    cbn [snd]. destruct (nonBlankString v) as [s|]; [|done].
    by rewrite Ek, lookup_insert_eq.
  - apply String.eqb_neq in E.
    assert ((match nonBlankString v with
             | Some value => <[BillMate.normalizeAccountNumber k := value]> acc
             | None => acc
             end) !! n = acc !! n) as Hacc.
    { destruct (nonBlankString v); [|done]. rewrite Ek. by rewrite lookup_insert_ne. }
    by rewrite Hacc.
Qed.

(** *** The entries of an object *)

Lemma firstKeys_elem keys k : k ∈ JS.firstKeys keys <-> k ∈ keys.
Proof.
  induction keys as [|x keys IH]; [done|]. cbn [JS.firstKeys].
  rewrite !elem_of_cons, <- IH, !list_elem_of_In, filter_In, negb_true_iff,
    String.eqb_neq.
  destruct (decide (k = x)) as [->|Hne]; [by split; left|].
  split; [intros [?|[? _]]; [done|by right]|intros [?|?]; [done|by right]].
Qed.

Lemma NoDup_List_filter {A} (p : A -> bool) l : NoDup l -> NoDup (List.filter p l).
Proof.
  induction 1 as [|x l Hx Hl IH]; cbn [List.filter]; [constructor|].
  destruct (p x); [|done]. constructor; [|done].
  rewrite list_elem_of_In, filter_In, <- list_elem_of_In. by intros [? _].
Qed.

Lemma firstKeys_NoDup keys : NoDup (JS.firstKeys keys).
Proof.
  induction keys as [|x keys IH]; cbn [JS.firstKeys]; constructor.
  - rewrite list_elem_of_In, filter_In, String.eqb_refl. by intros [_ ?].
  - by apply NoDup_List_filter.
Qed.

Lemma insertIndexed_perm x l : JS.insertIndexed x l ≡ₚ x :: l.
Proof.
  induction l as [|y l IH]; [done|]. cbn [JS.insertIndexed].
  destruct (fst x <=? fst y)%N; [done|]. rewrite IH. apply Permutation_swap.
Qed.

Lemma sortIndexed_perm l : JS.sortIndexed l ≡ₚ l.
Proof.
  induction l as [|x l IH]; [done|]. cbn [JS.sortIndexed fold_right].
  rewrite insertIndexed_perm. by constructor.
Qed.

(** [Object.keys] lists every key once. *)
Lemma ownKeys_perm fields : JS.ownKeys fields ≡ₚ JS.firstKeys (map fst fields).
Proof.
  unfold JS.ownKeys. cbv zeta. rewrite sortIndexed_perm.
  generalize (JS.firstKeys (map fst fields)). intros keys.
  induction keys as [|k keys IH]; [done|].
  cbn [omap list_omap List.filter]. destruct (JS.arrayIndex k) as [n|].
  - cbn [fmap list_fmap map snd]. by constructor.
  - rewrite <- Permutation_middle. by constructor.
Qed.

Lemma ownKeys_NoDup fields : NoDup (JS.ownKeys fields).
Proof. rewrite ownKeys_perm. apply firstKeys_NoDup. Qed.

Lemma ownKeys_elem fields k : k ∈ JS.ownKeys fields <-> k ∈ fields.*1.
Proof. rewrite ownKeys_perm. apply firstKeys_elem. Qed.

Lemma lookupField_absent k fields acc :
  k ∉ fields.*1 ->
  fold_left (fun (found : option JSValue) (kv : string * JSValue) =>
               if String.eqb (fst kv) k then Some (snd kv) else found)
    fields acc = acc.
Proof.
  revert acc. induction fields as [|[k' v'] fields IH]; intros acc H; [done|].
  rewrite fmap_cons in H. apply not_elem_of_cons in H as [Hne H].
  cbn [fold_left fst snd]. cbn [fst] in Hne.
  destruct (String.eqb k' k) eqn:E; [apply String.eqb_eq in E; congruence|].
  by apply IH.
Qed.

Lemma lookupField_unique k v fields :
  NoDup (fields.*1) -> (k, v) ∈ fields -> JS.lookupField k fields = Some v.
Proof.
  unfold JS.lookupField. generalize (@None JSValue).
  induction fields as [|[k' v'] fields IH]; intros acc Hnd Hin; [by inversion Hin|].
  rewrite fmap_cons in Hnd. apply NoDup_cons in Hnd as [Hk Hnd].
  cbn [fold_left fst snd]. cbn [fst] in Hk.
  apply elem_of_cons in Hin as [[= -> ->]|Hin].
  - rewrite String.eqb_refl. by apply lookupField_absent.
  - by apply IH.
Qed.

Lemma entries_keys_NoDup fields : NoDup ((BillMate.entries (JObj fields)).*1).
Proof.
  cbn [BillMate.entries].
  assert (forall keys : list string,
            (map (fun k => (k, default JUndefined (JS.lookupField k fields))) keys).*1
            = keys) as ->.
  { induction keys as [|k keys IH]; [done|]. cbn. by rewrite IH. }
  apply ownKeys_NoDup.
Qed.

(** The entries of an object whose fields have distinct keys are its
    fields. *)
Lemma entries_elem fields k v :
  NoDup (fields.*1) -> (k, v) ∈ BillMate.entries (JObj fields) <-> (k, v) ∈ fields.
Proof.
  intros Hnd. cbn [BillMate.entries]. rewrite list_elem_of_In, in_map_iff. split.
  - intros (k0 & [= -> <-] & Hk). apply list_elem_of_In, ownKeys_elem in Hk.
    apply list_elem_of_fmap in Hk as ([k1 v1] & -> & Hin). cbn [fst].
    by rewrite (lookupField_unique k1 v1 fields Hnd Hin).
  - intros Hin. exists k. rewrite (lookupField_unique k v fields Hnd Hin).
    split; [done|]. apply list_elem_of_In, ownKeys_elem, list_elem_of_fmap.
    by exists (k, v).
Qed.

Lemma find_key_entries (m : gmap string JSValue) n :
  match List.find (fun kv => String.eqb (fst kv) n)
          (BillMate.entries (JObj (map_to_list m))) with
  | Some kv => fst kv = n /\ m !! n = Some (snd kv)
  | None => m !! n = None
  end.
Proof.
  pose proof (NoDup_fst_map_to_list m) as Hnd.
  destruct (List.find _ _) as [[k v]|] eqn:E.
  - apply find_some in E as [Hin Hk]. cbn [fst snd] in *.
    apply String.eqb_eq in Hk. subst k. split; [done|].
    apply list_elem_of_In, (entries_elem _ _ _ Hnd) in Hin.
    by apply elem_of_map_to_list in Hin.
  - destruct (m !! n) as [v|] eqn:Em; [|done]. exfalso.
    apply elem_of_map_to_list, (entries_elem _ _ _ Hnd), list_elem_of_In in Em.
    pose proof (find_none _ _ E (n, v) Em) as H. cbn [fst] in H.
    by rewrite String.eqb_refl in H.
Qed.

(** What [getLocalUidMap] reads where a normal map has been saved. *)
Lemma getLocalUidMap_saved m w :
  uidMapNormal m ->
  jsons (storage w) !! BillMate.LOCAL_ACCOUNT_UID_MAP_KEY
  = Some (JObj (map_to_list (JStr <$> m))) ->
  BillMate.getLocalUidMap w = Returned m w.
Proof.
  intros Hm Hj.
  unfold BillMate.getLocalUidMap, tryCatch, bind, AsyncStorageApi.getJSON.
  rewrite Hj. cbn [JS.isObject negb]. unfold ret.
  f_equal. apply map_eq. intros n.
  rewrite uidMapStep_lookup.
  - pose proof (find_key_entries (JStr <$> m) n) as H.
    destruct (List.find _ _) as [[k v]|].
    + destruct H as [_ H]. cbn [snd] in *. rewrite lookup_fmap in H.
      destruct (m !! n) as [u|] eqn:Eu; [|done]. injection H as <-.
      by rewrite (proj2 (Hm n u Eu)).
    + rewrite lookup_fmap in H. rewrite lookup_empty.
      by destruct (m !! n).
  - apply entries_keys_NoDup.
  - intros k v Hin.
    apply (entries_elem _ _ _ (NoDup_fst_map_to_list _)), elem_of_map_to_list in Hin.
    rewrite lookup_fmap in Hin. destruct (m !! k) as [u|] eqn:Eu; [|done].
    by apply (Hm k u).
Qed.

Lemma saveLocalUidMap_then_read m w :
  uidMapNormal m ->
  exists w',
    (BillMate.saveLocalUidMap m ;; BillMate.getLocalUidMap)%async w = Returned m w'.
Proof.
  intros Hm. eexists.
  unfold bind at 1. unfold BillMate.saveLocalUidMap, AsyncStorageApi.setJSON.
  cbv beta iota. apply (getLocalUidMap_saved m _ Hm). proj.
  apply lookup_insert_eq.
Qed.

(** X11: the local uid map gives back what is saved: after
    [saveLocalUidMap] of a map whose keys are normalized account numbers
    and whose values are not blank, [getLocalUidMap] returns that map;
    and the map that [getLocalUidMap] returns is always of that kind. *)
Theorem local_uid_map_round_trip m w :
  (uidMapNormal m ->
   exists w',
     (BillMate.saveLocalUidMap m ;; BillMate.getLocalUidMap)%async w = Returned m w')
  /\ exists m0, BillMate.getLocalUidMap w = Returned m0 w /\ uidMapNormal m0.
Proof.
  split; [apply saveLocalUidMap_then_read|apply getLocalUidMap_normal].
Qed.

Lemma local_uid_map_round_trip_witness :
  exists w',
    (BillMate.saveLocalUidMap {[ "BM11111111" := "alice" ]} ;;
     BillMate.getLocalUidMap)%async Scenario.online
    = Returned {[ "BM11111111" := "alice" ]} w'.
Proof.
  apply (proj1 (local_uid_map_round_trip {[ "BM11111111" := "alice" ]} Scenario.online)).
  intros k v H. apply lookup_singleton_Some in H as [<- <-]. by split.
Defined.

(** X12: an account number that is registered is found: after
    [registerLocalAccountMapping a uid], for an account number that is
    not empty once normalized and a uid that is not blank,
    [getLocalUidByAccountNumber a] returns the uid, and the account
    number cached for the uid is the normalized number. *)
Theorem registered_account_is_found a uid w :
  Str.truthy (BillMate.normalizeAccountNumber a) = true ->
  Str.truthy (Str.trim uid) = true ->
  exists w',
    (BillMate.registerLocalAccountMapping a uid ;;
     BillMate.getLocalUidByAccountNumber a)%async w = Returned (Some uid) w'
    /\ texts (storage w') !! BillMate.localAccountStorageKey uid
       = Some (BillMate.normalizeAccountNumber a).
Proof.
  intros Ta Tu.
  assert (Str.truthy uid = true) as Tu'.
  { destruct uid; [done|done]. }
  unfold BillMate.registerLocalAccountMapping, BillMate.getLocalUidByAccountNumber.
  cbv zeta. rewrite Ta, Tu'. cbn [negb orb].
  unfold bind at 1. unfold bind at 1. unfold AsyncStorageApi.setItem at 1. cbv beta iota.
  set (w1 := setStorage _ w).
  destruct (getLocalUidMap_normal w1) as (m & Em & Hm).
  unfold bind at 1. rewrite Em. cbv beta iota.
  assert (uidMapNormal (<[BillMate.normalizeAccountNumber a := uid]> m)) as Hm'.
  { apply uidMapNormal_insert; [apply normalizeAccountNumber_idempotent| |done].
    cbn. by rewrite Tu. }
  destruct (saveLocalUidMap_then_read _ w1 Hm') as (w2 & E2).
  unfold bind at 1 in E2.
  unfold BillMate.saveLocalUidMap, AsyncStorageApi.setJSON in E2 |- *. cbv beta iota in E2 |- *.
  unfold bind at 1. rewrite E2. cbv beta iota.
  exists w2. split; [unfold ret; by rewrite lookup_insert_eq|].
  destruct (getLocalUidMap_normal
              (setStorage
                 {| texts := texts (storage w1);
                    jsons := <[BillMate.LOCAL_ACCOUNT_UID_MAP_KEY
                               := JObj (map_to_list
                                          (JStr <$> <[BillMate.normalizeAccountNumber a
                                                      := uid]> m))]>
                               (jsons (storage w1)) |} w1)) as (m2 & Em2 & _).
  rewrite Em2 in E2. injection E2 as _ <-. proj. subst w1. proj.
  by rewrite lookup_insert_eq.
Qed.

Lemma registered_account_is_found_witness :
  exists w',
    (BillMate.registerLocalAccountMapping " bm22222222" "bob" ;;
     BillMate.getLocalUidByAccountNumber " bm22222222")%async Scenario.online
    = Returned (Some "bob") w'
    /\ texts (storage w') !! BillMate.localAccountStorageKey "bob"
       = Some (BillMate.normalizeAccountNumber " bm22222222").
Proof.
  apply (registered_account_is_found " bm22222222" "bob" Scenario.online); reflexivity.
Defined.

(** *** Linked accounts *)

Lemma linkFrame_refl w : linkFrame w w.
Proof. done. Qed.

Lemma linkFrame_trans w1 w2 w3 : linkFrame w1 w2 -> linkFrame w2 w3 -> linkFrame w1 w3.
Proof. intros H1 H2 u. by rewrite H2, H1. Qed.

Ltac walk_link := walk linkFrame_refl linkFrame_trans.

Lemma link_storage {A} (m : M A) : preserves storageFrame m -> preserves linkFrame m.
Proof. intros H w u. specialize (H w). unfold storageFrame in H. by rewrite H. Qed.

Lemma link_getItem k : preserves linkFrame (AsyncStorageApi.getItem k).
Proof. intros w. apply linkFrame_refl. Qed.
Lemma link_getJSON k : preserves linkFrame (AsyncStorageApi.getJSON k).
Proof. intros w. apply linkFrame_refl. Qed.
Lemma link_setJSON k v : preserves linkFrame (AsyncStorageApi.setJSON k v).
Proof. intros w u. done. Qed.
Lemma link_dateNow : preserves linkFrame dateNow.
Proof. intros w u. done. Qed.
Lemma link_randomFourDigits : preserves linkFrame randomFourDigits.
Proof. intros w u. done. Qed.
Lemma link_request op : preserves linkFrame (FirestoreApi.request op).
Proof. apply link_storage, storage_request. Qed.
Lemma link_getUser u : preserves linkFrame (FirestoreApi.getUser u).
Proof. apply link_storage, storage_getUser. Qed.
Lemma link_getMapping a : preserves linkFrame (FirestoreApi.getMapping a).
Proof. apply link_storage, storage_getMapping. Qed.
Lemma link_runTransaction {A} (body : Firestore -> Exn + (A * Firestore)) :
  preserves linkFrame (FirestoreApi.runTransaction body).
Proof.
  unfold FirestoreApi.runTransaction.
  apply (preserves_bind _ linkFrame_trans); [apply link_request|]. intros _ w u.
  by destruct (body (firestore w)) as [e|[a fs]].
Qed.
Lemma link_setAccount u v :
  preserves linkFrame (AsyncStorageApi.setItem (BillMate.localAccountStorageKey u) v).
Proof.
  intros w u'. unfold after, AsyncStorageApi.setItem. proj.
  rewrite lookup_insert_ne; [done|]. intros H. by apply (linked_key_ne u' u).
Qed.
#[export] Hint Resolve link_getItem link_getJSON link_setJSON link_dateNow
  link_randomFourDigits link_request link_getUser link_getMapping link_runTransaction
  link_setAccount : preserve.

Lemma link_generateAccountNumber : preserves linkFrame generateAccountNumber.
Proof. unfold generateAccountNumber. walk_link. Qed.
Lemma link_getLocalUidMap : preserves linkFrame BillMate.getLocalUidMap.
Proof. unfold BillMate.getLocalUidMap. walk_link. Qed.
Lemma link_saveLocalUidMap m : preserves linkFrame (BillMate.saveLocalUidMap m).
Proof. unfold BillMate.saveLocalUidMap. walk_link. Qed.
#[export] Hint Resolve link_generateAccountNumber link_getLocalUidMap
  link_saveLocalUidMap : preserve.

Lemma link_register a u : preserves linkFrame (BillMate.registerLocalAccountMapping a u).
Proof. unfold BillMate.registerLocalAccountMapping. walk_link. Qed.
#[export] Hint Resolve link_register : preserve.

Lemma link_getLocalUidByAccountNumber a :
  preserves linkFrame (BillMate.getLocalUidByAccountNumber a).
Proof. unfold BillMate.getLocalUidByAccountNumber. walk_link. Qed.
#[export] Hint Resolve link_getLocalUidByAccountNumber : preserve.

Lemma link_pickLocalCandidate n u m :
  preserves linkFrame (BillMate.pickLocalCandidate n u m).
Proof.
  induction n as [|n IH];
    [rewrite BillMate_pickLocalCandidate_O|rewrite BillMate_pickLocalCandidate_S];
    walk_link.
Qed.
#[export] Hint Resolve link_pickLocalCandidate : preserve.

Lemma link_getOrCreate u : preserves linkFrame (BillMate.getOrCreateLocalAccountNumber u).
Proof. unfold BillMate.getOrCreateLocalAccountNumber. walk_link. Qed.
#[export] Hint Resolve link_getOrCreate : preserve.

Lemma link_reserveLoop n u : preserves linkFrame (BillMate.reserveLoop n u).
Proof.
  induction n as [|n IH];
    [rewrite BillMate_reserveLoop_O|rewrite BillMate_reserveLoop_S]; walk_link.
Qed.
#[export] Hint Resolve link_reserveLoop : preserve.

Lemma link_ensure u : preserves linkFrame (BillMate.ensureBankAccountForUser u).
Proof.
  unfold BillMate.ensureBankAccountForUser, BillMate.isFirebaseConfigured. walk_link.
Qed.

Lemma link_getUidByAccountNumber a : preserves linkFrame (BillMate.getUidByAccountNumber a).
Proof.
  unfold BillMate.getUidByAccountNumber, BillMate.isFirebaseConfigured. walk_link.
Qed.
#[export] Hint Resolve link_ensure link_getUidByAccountNumber : preserve.

Lemma linkShrink_refl w : linkShrink w w.
Proof. intros u. by left. Qed.

Lemma linkShrink_trans w1 w2 w3 : linkShrink w1 w2 -> linkShrink w2 w3 -> linkShrink w1 w3.
Proof.
  intros H1 H2 u. destruct (H2 u) as [E2|E2]; [|by right].
  rewrite E2. apply H1.
Qed.

Lemma linkShrink_frame {A} (m : M A) : preserves linkFrame m -> preserves linkShrink m.
Proof. intros H w u. left. apply H. Qed.

Lemma linkShrink_removeItem k : preserves linkShrink (AsyncStorageApi.removeItem k).
Proof.
  intros w u. unfold after, AsyncStorageApi.removeItem. proj.
  destruct (decide (k = BillMate.linkedAccountStorageKey u)) as [->|Hne].
  - right. apply lookup_delete_eq.
  - left. by rewrite lookup_delete_ne.
Qed.

Lemma Linking_getLinkedBankAccountInfo_safe : safe Linking.getLinkedBankAccountInfo.
Proof.
  unfold Linking.getLinkedBankAccountInfo, BillMate.currentUserUid. walk_safe.
Qed.

Lemma Linking_getLinkedBankAccountInfo_shrink :
  preserves linkShrink Linking.getLinkedBankAccountInfo.
Proof.
  unfold Linking.getLinkedBankAccountInfo, BillMate.currentUserUid.
  apply (preserves_bind _ linkShrink_trans);
    [apply (preserves_read _ linkShrink_refl)|]. intros cu.
  destruct (negb (truthyOpt cu)); [apply (preserves_ret _ linkShrink_refl)|]. cbv zeta.
  apply (preserves_bind _ linkShrink_trans); [apply linkShrink_frame, link_ensure|].
  intros own.
  apply (preserves_bind _ linkShrink_trans); [apply linkShrink_frame, link_getItem|].
  intros linked.
  destruct (negb (truthyOpt linked)); [apply (preserves_ret _ linkShrink_refl)|].
  apply (preserves_bind _ linkShrink_trans);
    [apply linkShrink_frame, link_getUidByAccountNumber|].
  intros owner.
  destruct (negb (truthyOpt owner)); [|apply (preserves_ret _ linkShrink_refl)].
  apply (preserves_bind _ linkShrink_trans); [apply linkShrink_removeItem|].
  intros _. apply (preserves_ret _ linkShrink_refl).
Qed.

(** X13: [unlinkLinkedBankAccount] never rejects and leaves no link: for
    a signed-in user the information it returns names no linked account
    and no owner of one, and afterwards the local cache holds no link for
    the user. *)
Theorem unlink_leaves_no_link w uid :
  authUid w = Some uid -> Str.truthy uid = true ->
  exists info w',
    Linking.unlinkLinkedBankAccount w = Returned info w'
    /\ Linking.linkedAccountNumber info = None
    /\ Linking.linkedAccountOwnerUid info = None
    /\ texts (storage w') !! BillMate.linkedAccountStorageKey uid = None.
Proof.
  intros U T. unfold Linking.unlinkLinkedBankAccount, BillMate.currentUserUid.
  unfold bind at 1. cbv beta iota. rewrite U. cbn [truthyOpt from_option id]. rewrite T.
  unfold bind at 1. unfold AsyncStorageApi.removeItem at 1. cbv beta iota.
  set (w1 := setStorage _ w).
  assert (texts (storage w1) !! BillMate.linkedAccountStorageKey uid = None) as H1.
  { subst w1. proj. apply lookup_delete_eq. }
  assert (authUid w1 = Some uid) as U1 by done.
  clearbody w1.
  unfold Linking.getLinkedBankAccountInfo, BillMate.currentUserUid.
  unfold bind at 1. cbv beta iota. rewrite U1. cbn [truthyOpt from_option id]. rewrite T.
  cbn [negb]. cbv zeta.
  destruct (BillMate_ensureBankAccountForUser_safe uid w1) as (own & w2 & Ee).
  pose proof (preserves_returned _ _ _ _ _ (link_ensure uid) Ee uid) as H2.
  rewrite H1 in H2.
  rewrite (bind_returned _ _ _ _ _ Ee), bind_getItem, H2. cbn [truthyOpt negb].
  by eexists _, w2.
Qed.

Lemma unlink_leaves_no_link_witness :
  exists info w',
    Linking.unlinkLinkedBankAccount Scenario.online = Returned info w'
    /\ Linking.linkedAccountNumber info = None
    /\ Linking.linkedAccountOwnerUid info = None
    /\ texts (storage w') !! BillMate.linkedAccountStorageKey "alice" = None.
Proof. apply (unlink_leaves_no_link Scenario.online "alice"); reflexivity. Defined.

(** X14: [linkBankAccountByNumber], called with a string of ASCII
    characters, never rejects, and it makes a link only when it answers
    [ok]: when the answer is not [ok] (a malformed number, no signed-in
    user, an account that is not found) the link of every user is what
    it was, or has been removed as stale; and a malformed number is
    answered with the request for a valid one. *)
Theorem link_only_when_ok a w :
  Str.isAscii a = true ->
  exists r w',
    Linking.linkBankAccountByNumber a w = Returned r w'
    /\ (Linking.link_ok r = false -> linkShrink w w')
    /\ (BillMate.isValidAccountNumber (BillMate.normalizeAccountNumber a) = false ->
        Linking.link_ok r = false
        /\ Linking.link_message r = Linking.EnterValidAccount).
Proof.
  intros _.
  unfold Linking.linkBankAccountByNumber. cbv zeta.
  destruct (negb (Str.truthy (BillMate.normalizeAccountNumber a))
            || negb (BillMate.isValidAccountNumber (BillMate.normalizeAccountNumber a)))
    eqn:V.
  { destruct (Linking_getLinkedBankAccountInfo_safe w) as (info & w' & E).
    rewrite (bind_returned _ _ _ _ _ E). eexists _, w'. split; [reflexivity|].
    split; [|done]. intros _.
    apply (preserves_returned _ _ _ _ _ Linking_getLinkedBankAccountInfo_shrink E). }
  apply orb_false_elim in V as [_ V]. apply negb_false_iff in V.
  unfold bind at 1. unfold BillMate.currentUserUid at 1. cbv beta iota.
  destruct (negb (truthyOpt (authUid w))).
  { destruct (Linking_getLinkedBankAccountInfo_safe w) as (info & w' & E).
    rewrite (bind_returned _ _ _ _ _ E). eexists _, w'. split; [reflexivity|].
    split; [|by rewrite V]. intros _.
    apply (preserves_returned _ _ _ _ _ Linking_getLinkedBankAccountInfo_shrink E). }
  destruct (BillMate_getUidByAccountNumber_safe (BillMate.normalizeAccountNumber a) w)
    as (owner & w1 & Eo).
  rewrite (bind_returned _ _ _ _ _ Eo).
  destruct (negb (truthyOpt owner)).
  { destruct (Linking_getLinkedBankAccountInfo_safe w1) as (info & w' & E).
    rewrite (bind_returned _ _ _ _ _ E). eexists _, w'. split; [reflexivity|].
    split; [|by rewrite V]. intros _.
    eapply linkShrink_trans.
    - apply (preserves_returned _ _ _ _ _
               (linkShrink_frame _ (link_getUidByAccountNumber _)) Eo).
    - apply (preserves_returned _ _ _ _ _ Linking_getLinkedBankAccountInfo_shrink E). }
  rewrite bind_setItem.
  match goal with
  | |- context [bind Linking.getLinkedBankAccountInfo _ ?W] =>
      destruct (Linking_getLinkedBankAccountInfo_safe W) as (info & w' & E)
  end.
  rewrite (bind_returned _ _ _ _ _ E). eexists _, w'. split; [reflexivity|].
  split; [done|by rewrite V].
Qed.

Lemma link_only_when_ok_witness :
  exists r w',
    Linking.linkBankAccountByNumber "XYZ123" Scenario.online = Returned r w'
    /\ (Linking.link_ok r = false -> linkShrink Scenario.online w')
    /\ (BillMate.isValidAccountNumber (BillMate.normalizeAccountNumber "XYZ123") = false ->
        Linking.link_ok r = false
        /\ Linking.link_message r = Linking.EnterValidAccount).
Proof. apply (link_only_when_ok "XYZ123" Scenario.online). reflexivity. Defined.

(** *** What is stored after an operation *)

Lemma add_signed b a :
  Num.nonneg b = true -> Num.isFinite a = true -> Num.leb a Num.zero = false ->
  signed false (Num.add b a).
Proof.
  intros Hb Hf Ha.
  destruct (positive_finite a Hf Ha) as (ma & ea & ->).
  destruct (nonneg_cases b Hb) as [[s ->]|[->|(mb & eb & ->)]]; try done.
  unfold Num.add, SFadd. apply binary_normalize_signed. simpl. lia.
Qed.

Lemma signed_jsonSafe x :
  signed false x -> Num.isFinite x = true -> jsonSafe x = true /\ Num.nonneg x = true.
Proof. destruct x as [s|s| |s m e]; simpl; intros H F; try done; by subst. Qed.

Lemma storable_credited prev a i n c :
  storable prev = true -> Num.isFinite a = true -> Num.leb a Num.zero = false ->
  Num.isFinite (Num.add (balance prev) a) = true ->
  storable (creditedState prev a i n c) = true.
Proof.
  unfold storable. intros H F P Fs.
  apply andb_prop in H as [H Ftx]. apply andb_prop in H as [_ N].
  destruct (signed_jsonSafe _ (add_signed _ _ N F P) Fs) as [Hj Hn].
  cbn [creditedState balance transactions forallb tx_amount].
  rewrite Hj, Hn, Ftx. cbn [andb].
  destruct (positive_finite a F P) as (ma & ea & ->). done.
Qed.

(** A state whose balance is not finite is read back with the balance
    0. *)
Lemma normalizeState_stateJSON_overflow s :
  Num.isFinite (balance s) = false ->
  forallb (fun t => jsonSafe (tx_amount t)) (transactions s) = true ->
  normalizeState (stateJSON s) = {| balance := Num.zero; transactions := transactions s |}.
Proof.
  intros F Ftx. destruct s as [b txs]. cbn [balance transactions] in *.
  unfold normalizeState, stateJSON. cbn [balance transactions].
  assert (JS.jsonNumber b = JNull) as -> by (by destruct b).
  cbn. by rewrite (normalizeTransactions_json txs Ftx).
Qed.

(** X15: a credit of the wallet is persisted: when the state that is
    read is storable and the new balance is finite, [getBankState] after
    [addVirtualMoney] returns the state that [addVirtualMoney] returned.
    When the new balance is not finite (the sum overflows), the ledger
    that is read back has the balance 0. *)
Theorem Legacy_credit_is_persisted a n w prev w1 :
  Legacy.getBankState w = Returned prev w1 ->
  storable prev = true -> Num.isFinite a = true -> Num.ltb Num.zero a = true ->
  exists s w',
    Legacy.addVirtualMoney a n w = Returned s w'
    /\ balance s = Num.add (balance prev) a
    /\ (Num.isFinite (balance s) = true -> Legacy.getBankState w' = Returned s w')
    /\ (Num.isFinite (balance s) = false ->
        exists s', Legacy.getBankState w' = Returned s' w'
                   /\ balance s' = Num.zero /\ transactions s' = transactions s).
Proof.
  intros E Hs F P. apply ltb_zero_not_leb in P.
  unfold Legacy.addVirtualMoney. cbv zeta.
  rewrite (safeAmountOf_finite a F), P, (bind_returned _ _ _ _ _ E).
  rewrite bind_dateNow, bind_newDateISO.
  set (s := creditedState prev a _ n _).
  unfold bind at 1. unfold Legacy.saveBankState, AsyncStorageApi.setJSON. cbv beta iota.
  eexists s, _. split; [reflexivity|]. split; [done|].
  unfold Legacy.getBankState, tryCatch, bind, AsyncStorageApi.getJSON. proj.
  rewrite lookup_insert_eq. unfold ret. split.
  - intros Fs. rewrite normalizeState_stateJSON; [done|].
    by apply storable_credited.
  - intros Fs. eexists. split; [reflexivity|].
    unfold storable in Hs. apply andb_prop in Hs as [_ Ftx].
    rewrite normalizeState_stateJSON_overflow; [done|exact Fs|].
    subst s. cbn [creditedState transactions forallb tx_amount]. rewrite Ftx.
    by destruct (positive_finite a F P) as (ma & ea & ->).
Qed.

Lemma Legacy_credit_is_persisted_witness :
  exists s w',
    Legacy.addVirtualMoney (Num.ofZ 30) "Added money" Scenario.wallet = Returned s w'
    /\ balance s = Num.add (balance (Scenario.ledger 100)) (Num.ofZ 30)
    /\ (Num.isFinite (balance s) = true -> Legacy.getBankState w' = Returned s w')
    /\ (Num.isFinite (balance s) = false ->
        exists s', Legacy.getBankState w' = Returned s' w'
                   /\ balance s' = Num.zero /\ transactions s' = transactions s).
Proof.
  apply (Legacy_credit_is_persisted (Num.ofZ 30) "Added money" Scenario.wallet
           (Scenario.ledger 100) Scenario.wallet); reflexivity.
Defined.

(** X16: in BillMate a credit or a debit of an amount that is not finite
    or not above 0 changes no ledger of a signed-in user with an account:
    the credit returns the state that [getBankState] reads, the debit
    answers [InvalidAmount], and the remote and the local ledgers are
    what they were. *)
Theorem BillMate_invalid_amount_is_noop a n w uid :
  authUid w = Some uid -> provisioned uid w ->
  Num.leb (safeAmountOf a) Num.zero = true ->
  (exists st w',
     BillMate.addVirtualMoney a n w = Returned st w'
     /\ BillMate.getBankState w = Returned st w'
     /\ cloudFrame w w' /\ localLedgerFrame w w')
  /\ (exists r w',
        BillMate.tryDeductVirtualMoney a n w = Returned r w'
        /\ ok r = false /\ message r = Some InvalidAmount
        /\ cloudFrame w w' /\ localLedgerFrame w w').
Proof.
  intros U Hp P. split.
  - unfold BillMate.addVirtualMoney. cbv zeta. rewrite P.
    destruct (BillMate_getBankState_safe w) as (st & w' & E).
    exists st, w'. split; [exact E|]. split; [exact E|].
    pose proof (preserves_returned _ _ _ _ _ (hush_getBankState uid) E U Hp)
      as (_ & _ & Hc & Hl). by split.
  - unfold BillMate.tryDeductVirtualMoney. cbv zeta.
    destruct (BillMate_resolveBankOwnerContext_safe w) as (ctx & w1 & Er).
    pose proof (preserves_returned _ _ _ _ _ (hush_resolve uid) Er U Hp)
      as (Hp1 & He1 & Hc1 & Hl1).
    assert (authUid w1 = Some uid) as U1 by (destruct He1 as [-> _]; done).
    destruct (BillMate_getBankState_safe w1) as (st & w2 & Eg).
    pose proof (preserves_returned _ _ _ _ _ (hush_getBankState uid) Eg U1 Hp1)
      as (_ & _ & Hc2 & Hl2).
    rewrite (bind_returned _ _ _ _ _ Er), (bind_returned _ _ _ _ _ Eg), P.
    eexists _, w2. split; [reflexivity|]. split; [done|]. split; [done|].
    split; [eapply cloudFrame_trans|eapply localLedgerFrame_trans]; eassumption.
Qed.

Lemma BillMate_invalid_amount_is_noop_witness :
  (exists st w',
     BillMate.addVirtualMoney Num.NaN "Added money" Scenario.online = Returned st w'
     /\ BillMate.getBankState Scenario.online = Returned st w'
     /\ cloudFrame Scenario.online w' /\ localLedgerFrame Scenario.online w')
  /\ (exists r w',
        BillMate.tryDeductVirtualMoney Num.NaN "Added money" Scenario.online
        = Returned r w'
        /\ ok r = false /\ message r = Some InvalidAmount
        /\ cloudFrame Scenario.online w' /\ localLedgerFrame Scenario.online w').
Proof.
  apply (BillMate_invalid_amount_is_noop Num.NaN "Added money" Scenario.online "alice");
    [reflexivity| |reflexivity].
  exists "BM11111111". split; vm_compute; reflexivity.
Defined.

(** X17: [persistStateForOwner] never rejects, and afterwards the state
    is stored for the owner: in the owner's document, with the local
    cache and every other document as they were, when the owner has a
    remote uid and Firestore accepts the write; and otherwise in the
    local cache under the owner's key, with Firestore and every other
    entry of the cache as they were. *)
Theorem persistStateForOwner_stores ctx st W :
  exists W',
    BillMate.persistStateForOwner ctx st W = Returned tt W'
    /\ storedFor ctx st (acceptedRemotely ctx W (requests W)) W'
    /\ (acceptedRemotely ctx W (requests W) = true ->
        storage W' = storage W
        /\ bankAccounts (firestore W') = bankAccounts (firestore W)
        /\ legacyBank (firestore W') = legacyBank (firestore W)
        /\ forall u, u <> default "" (BillMate.cloudOwnerUid ctx) ->
                     users (firestore W') !! u = users (firestore W) !! u)
    /\ (acceptedRemotely ctx W (requests W) = false ->
        firestore W' = firestore W
        /\ texts (storage W') = texts (storage W)
        /\ forall k, k <> BillMate.localBankStorageKey (BillMate.localOwnerKey ctx) ->
                     jsons (storage W') !! k = jsons (storage W) !! k).
Proof.
  destruct (BillMate_persistStateForOwner_cases ctx st W)
    as (W' & E & S & _ & _ & Y & N).
  exists W'. split; [exact E|]. split; [exact S|]. split.
  - intros A. destruct (Y A) as [-> ->]. repeat split.
    intros u Hu. by apply mergeBankState_lookup_ne.
  - intros A. destruct (N A) as (-> & -> & ->). repeat split.
    intros k Hk. by apply lookup_insert_ne.
Qed.

(** *** Looking up the owner of an account number *)

(** What [registerLocalAccountMapping] leaves in the local cache. *)
Lemma register_stores a uid w :
  Str.truthy (BillMate.normalizeAccountNumber a) = true ->
  Str.truthy (Str.trim uid) = true ->
  exists m w1,
    BillMate.registerLocalAccountMapping a uid w = Returned tt w1
    /\ uidMapNormal m /\ m !! BillMate.normalizeAccountNumber a = Some uid
    /\ jsons (storage w1) !! BillMate.LOCAL_ACCOUNT_UID_MAP_KEY
       = Some (JObj (map_to_list (JStr <$> m))).
Proof.
  intros Ta Tu.
  assert (Str.truthy uid = true) as Tu' by (by destruct uid).
  unfold BillMate.registerLocalAccountMapping. cbv zeta. rewrite Ta, Tu'.
  cbn [negb orb]. rewrite bind_setItem.
  match goal with
  | |- context [bind BillMate.getLocalUidMap _ ?W] =>
      destruct (getLocalUidMap_normal W) as (m & Em & Hm);
      rewrite (bind_returned _ _ _ _ _ Em)
  end.
  eexists (<[BillMate.normalizeAccountNumber a := uid]> m), _.
  split; [reflexivity|]. split.
  { apply uidMapNormal_insert; [apply normalizeAccountNumber_idempotent| |done].
    cbn. by rewrite Tu. }
  split; [apply lookup_insert_eq|]. proj. apply lookup_insert_eq.
Qed.

(** X18: a lookup in BillMate that Firestore has answered is remembered:
    when the mapping of a well-formed account number names a uid that is
    not blank and Firestore answers, [getUidByAccountNumber] returns the
    uid, and every later lookup of the number on a device with that local
    cache returns the uid too, even when Firestore rejects every
    request. *)
Theorem BillMate_lookup_is_remembered a uid w :
  BillMate.isValidAccountNumber (BillMate.normalizeAccountNumber a) = true ->
  firebaseConfigured w = true ->
  outage w (requests w) (GetDoc (BankAccountDoc (BillMate.normalizeAccountNumber a)))
  = false ->
  bankAccounts (firestore w) !! BillMate.normalizeAccountNumber a = Some (JStr uid) ->
  Str.truthy (Str.trim uid) = true ->
  exists w1,
    BillMate.getUidByAccountNumber a w = Returned (Some uid) w1
    /\ forall w2,
         storage w2 = storage w1 -> (forall k op, outage w2 k op = true) ->
         exists w3, BillMate.getUidByAccountNumber a w2 = Returned (Some uid) w3.
Proof.
  intros V C O Hm Tu.
  pose proof (matchesAccountPattern_truthy _ V) as Tn.
  assert (BillMate.normalizeAccountNumber (BillMate.normalizeAccountNumber a)
          = BillMate.normalizeAccountNumber a) as En
    by apply normalizeAccountNumber_idempotent.
  unfold BillMate.getUidByAccountNumber. cbv zeta. rewrite Tn, V. cbn [negb orb].
  unfold bind at 1. unfold BillMate.isFirebaseConfigured at 1. cbv beta iota. rewrite C.
  unfold bind at 1. unfold tryCatch at 1. unfold bind at 1.
  unfold FirestoreApi.getMapping at 1, bind at 1, FirestoreApi.request.
  rewrite O. cbv beta iota. proj. rewrite Hm.
  match goal with
  | |- context [bind (BillMate.registerLocalAccountMapping ?n uid) _ ?W] =>
      destruct (register_stores n uid W) as (m & w1 & Er & Hn & Hl & Hj);
        [by rewrite En|exact Tu|]
  end.
  rewrite (bind_returned _ _ _ _ _ Er). unfold ret at 1. cbv beta iota.
  exists w1. split; [reflexivity|].
  intros w2 Hs Hout.
  unfold bind at 1. unfold BillMate.isFirebaseConfigured at 1. cbv beta iota.
  assert (BillMate.getLocalUidByAccountNumber (BillMate.normalizeAccountNumber a)
          = fun W => match BillMate.getLocalUidMap W with
                     | Returned m0 W' =>
                         Returned (m0 !! BillMate.normalizeAccountNumber a) W'
                     | Thrown e W' => Thrown e W'
                     end) as Elook.
  { unfold BillMate.getLocalUidByAccountNumber. cbv zeta. rewrite En, Tn. reflexivity. }
  assert (forall W, storage W = storage w1 ->
          BillMate.getLocalUidByAccountNumber (BillMate.normalizeAccountNumber a) W
          = Returned (Some uid) W) as Hfind.
  { intros W HW. rewrite Elook. rewrite (getLocalUidMap_saved m W Hn).
    - by rewrite En in Hl; rewrite Hl.
    - by rewrite HW. }
  destruct (firebaseConfigured w2).
  - unfold bind at 1. unfold tryCatch at 1. unfold bind at 1.
    unfold FirestoreApi.getMapping at 1, bind at 1, FirestoreApi.request.
    rewrite Hout. cbv beta iota. unfold ret at 1. cbv beta iota.
    eexists. apply Hfind. proj. exact Hs.
  - unfold bind at 1. unfold ret at 1. cbv beta iota.
    eexists. by apply Hfind.
Qed.

Lemma BillMate_lookup_is_remembered_witness :
  exists w1,
    BillMate.getUidByAccountNumber " bm22222222" Scenario.online = Returned (Some "bob") w1
    /\ forall w2,
         storage w2 = storage w1 -> (forall k op, outage w2 k op = true) ->
         exists w3,
           BillMate.getUidByAccountNumber " bm22222222" w2 = Returned (Some "bob") w3.
Proof.
  apply (BillMate_lookup_is_remembered " bm22222222" "bob" Scenario.online);
    reflexivity.
Defined.

(** X19: [getUidByAccountNumber] of BankApp never rejects and writes
    nothing; it returns a uid only when Firebase is configured and the
    mapping of the trimmed, upper-cased number names that uid, which is
    not blank; and when Firestore answers it returns the uid that the
    mapping names. *)
Theorem BankApp_lookup_reads_mapping a w :
  exists r w',
    BankApp.getUidByAccountNumber a w = Returned r w'
    /\ storage w' = storage w /\ firestore w' = firestore w
    /\ (forall uid, r = Some uid ->
          firebaseConfigured w = true
          /\ bankAccounts (firestore w) !! Str.toUpperCase (Str.trim a) = Some (JStr uid)
          /\ Str.truthy (Str.trim uid) = true)
    /\ (firebaseConfigured w = true ->
        Str.truthy (Str.toUpperCase (Str.trim a)) = true ->
        outage w (requests w) (GetDoc (BankAccountDoc (Str.toUpperCase (Str.trim a))))
        = false ->
        r = nonBlankString
              (default JUndefined
                 (bankAccounts (firestore w) !! Str.toUpperCase (Str.trim a)))).
Proof.
  unfold BankApp.getUidByAccountNumber, BankApp.isFirebaseReady.
  unfold bind at 1. cbv beta iota.
  destruct (firebaseConfigured w) eqn:C; cbn [negb].
  2:{ eexists _, _. split; [reflexivity|]. repeat split; done. }
  unfold tryCatch. cbv zeta.
  destruct (Str.truthy (Str.toUpperCase (Str.trim a))) eqn:Tn; cbn [negb].
  2:{ eexists _, _. split; [reflexivity|]. repeat split; done. }
  unfold bind, FirestoreApi.getMapping, bind, FirestoreApi.request.
  destruct (outage w (requests w) _) eqn:O; cbv beta iota.
  { eexists _, _. split; [reflexivity|]. repeat split; done. }
  eexists _, _. split; [reflexivity|]. proj. split; [done|]. split; [done|].
  split; [|done]. intros uid Hr. split; [done|].
  destruct (bankAccounts (firestore w) !! Str.toUpperCase (Str.trim a)) as [v|];
    [|done].
  cbn [from_option id] in Hr. destruct v as [| | | |s| |]; try done.
  cbn in Hr. destruct (Str.truthy (Str.trim s)) eqn:Ts; [|done].
  by injection Hr as ->.
Qed.

